(** * hft-market-maker: a shallow embedding of the quoting core

    The development follows the C++ sources function by function:

    - [Fmt]                 integer insertion into a [std::ostream]
                            (decimal, and [std::hex] with [setw]/[setfill]);
    - [Str]                 the [std::string] members the sources call;
    - [Types]               [include/types.h];
    - [Env]                 what the process reads from its surroundings
                            (clocks, the random engine, the venue);
    - [OrderManager]        [src/order_manager.cpp];
    - [Steady]              the steady clock of a thread that sleeps;
    - [RateLimiter]         [src/rate_limiter.cpp];
    - [WebSocketClient]     [src/websocket_client.cpp]: the frames written,
                            the frame loop of the worker, the URI;
    - [Json], [Signing]     request signing in [src/rest_client.cpp] and
                            [src/websocket_trading_client.cpp];
    - [RestClient]          the query string, the pool of handles and the
                            precisions of [src/rest_client.cpp];
    - [TradingClient]       the pending-request table of the trading stream;
    - [MarketData]          [BinanceExchange::process_binance_orderbook] and
                            [MarketMakerBotV2::update_mid_price];
    - [BinanceExchange]     symbols, precisions and the spacing of requests
                            in [src/binance_exchange.cpp];
    - [ExchangeFactory]     [src/exchange_factory.cpp];
    - [Bot]                 the trading loop of [src/market_maker.cpp].

    A C++ [double] is a binary64 float ([PrimFloat.float]); a
    [steady_clock::time_point] is the number of nanoseconds since the clock's
    epoch, an integer; a [std::string] is a [string]. *)

From Stdlib Require Import ZArith List String Ascii Bool Lia Floats Sorted.
From stdpp Require Import base gmap strings.
Import ListNotations.

Set Warnings "-inexact-float,-register-all".
Local Open Scope Z_scope.

(** ** Integer formatting *)

Module Fmt.

(** The character of one digit, as [operator<<] writes it: ['0'..'9'], then
    lower-case ['a'..'f'] (no [std::uppercase] is ever set in the sources). *)
Definition digit_char (d : Z) : ascii :=
  if d <? 10 then ascii_of_N (Z.to_N (48 + d)) else ascii_of_N (Z.to_N (87 + d)).

(** Digits of a non-negative number, least significant first.  The fuel is
    an upper bound on the number of digits; [digit_fuel] always suffices. *)
Fixpoint digits_le (base : Z) (fuel : nat) (n : Z) : list Z :=
  match fuel with
  | O => [n]
  | S f => if n <? base then [n] else (n mod base) :: digits_le base f (n / base)
  end.

Definition digit_fuel (n : Z) : nat := Z.to_nat (Z.log2_up (n + 1)).

Definition render (base : Z) (n : Z) : string :=
  string_of_list_ascii (map digit_char (rev (digits_le base (digit_fuel n) n))).

(** [os << n] for a signed integer in the default (decimal) base. *)
Definition to_string (n : Z) : string :=
  if n <? 0 then String "-"%char (render 10 (- n)) else render 10 n.

(** [std::setw(w)] with [std::setfill(c)]: pad on the left up to width [w]. *)
Definition pad_left (w : nat) (c : ascii) (s : string) : string :=
  (string_of_list_ascii (repeat c (w - String.length s)) ++ s)%string.

(** [os << std::hex << std::setw(2) << std::setfill('0') << (int) b] for an
    [unsigned char] [b]: the int is non-negative. *)
Definition hex2 (b : Z) : string := pad_left 2 "0"%char (render 16 b).

End Fmt.

(** ** Doubles *)

Module Double.

(** Conversion of a [long] to [double] (round to nearest, as the hardware
    does).  Counters and microsecond counts stay far below [2^62]. *)
Definition of_long (z : Z) : float :=
  if z <? 0 then PrimFloat.opp (PrimFloat.of_uint63 (Uint63.of_Z (- z)))
  else PrimFloat.of_uint63 (Uint63.of_Z z).

(** [std::max (a, b)] is [(a < b) ? b : a]; [std::min (a, b)] is
    [(b < a) ? b : a]. *)
Definition max (a b : float) : float := if PrimFloat.ltb a b then b else a.
Definition min (a b : float) : float := if PrimFloat.ltb b a then b else a.


End Double.

(** ** [std::string] and [<cctype>] *)

Module Str.

(** [s.substr (pos)] and [s.substr (0, n)]; [s.substr (pos, n)] is
    [left n (from pos s)].  The sources never call [substr] with a position
    past the end, where it throws. *)
Fixpoint from (pos : nat) (s : string) : string :=
  match pos, s with
  | O, _ => s
  | S k, String _ rest => from k rest
  | S _, EmptyString => EmptyString
  end.

Fixpoint left (n : nat) (s : string) : string :=
  match n, s with
  | S k, String c rest => String c (left k rest)
  | _, _ => EmptyString
  end.

Definition substr (pos n : nat) (s : string) : string := left n (from pos s).

(** [s.find (c)]; [None] is [npos]. *)
Fixpoint find (c : ascii) (s : string) : option nat :=
  match s with
  | EmptyString => None
  | String a rest => if Ascii.eqb a c then Some O else option_map S (find c rest)
  end.

(** [s.find (c, pos)]. *)
Definition find_from (c : ascii) (pos : nat) (s : string) : option nat :=
  if (String.length s <? pos)%nat then None
  else option_map (Nat.add pos) (find c (from pos s)).

(** [s.compare (0, pattern.size (), pattern) == 0]. *)
Fixpoint starts_with (pattern : string) (s : string) : bool :=
  match pattern, s with
  | EmptyString, _ => true
  | String a pattern, String b rest => Ascii.eqb a b && starts_with pattern rest
  | String _ _, EmptyString => false
  end.

(** [s.find (pattern)]. *)
Fixpoint find_str (pattern : string) (s : string) : option nat :=
  if starts_with pattern s then Some O
  else match s with
       | EmptyString => None
       | String _ rest => option_map S (find_str pattern rest)
       end.

(** [s.find_last_not_of (c)]. *)
Fixpoint find_last_not_of (c : ascii) (s : string) : option nat :=
  match s with
  | EmptyString => None
  | String a rest =>
      match find_last_not_of c rest with
      | Some i => Some (S i)
      | None => if Ascii.eqb a c then None else Some O
      end
  end.

(** [s.erase (pos, 1)]. *)
Definition erase1 (pos : nat) (s : string) : string := (left pos s ++ from (S pos) s)%string.

(** [std::transform (s.begin (), s.end (), s.begin (), f)]. *)
Fixpoint map (f : ascii -> ascii) (s : string) : string :=
  match s with
  | EmptyString => EmptyString
  | String c rest => String (f c) (map f rest)
  end.

(** [toupper] and [tolower] in the "C" locale, which the program never
    leaves. *)
Definition toupper (c : ascii) : ascii :=
  let n := nat_of_ascii c in
  if (97 <=? n)%nat && (n <=? 122)%nat then ascii_of_nat (n - 32) else c.

Definition tolower (c : ascii) : ascii :=
  let n := nat_of_ascii c in
  if (65 <=? n)%nat && (n <=? 90)%nat then ascii_of_nat (n + 32) else c.

(** The conversion of a [size_t] to [int]. *)
Definition to_int (z : Z) : Z := (z + 2 ^ 31) mod 2 ^ 32 - 2 ^ 31.

End Str.

(** [std::stoi] ([None]: it throws), from the C++ library. *)
Class Strtol := stoi : string -> option Z.

(** The two [<cmath>] functions the sources call.  They belong to the C
    library, not to the repository, and are taken as given. *)
Class Libm := {
  pow : float -> Z -> float;       (* [std::pow (base, int)] *)
  round : float -> float           (* [std::round]           *)
}.

(** ** include/types.h *)

Module Types.

Inductive OrderSide := BUY | SELL.

Inductive OrderStatus :=
  NEW | PARTIALLY_FILLED | FILLED | CANCELED | REJECTED | EXPIRED.

Record PriceLevel := { price : float; quantity : float }.

Record OrderBook := {
  bids : list PriceLevel;
  asks : list PriceLevel;
  timestamp : Z
}.

Record Order := {
  order_id : string;
  client_order_id : string;
  symbol : string;
  side : OrderSide;
  order_price : float;
  order_quantity : float;
  executed_quantity : float;
  status : OrderStatus;
  created_time : Z;
  updated_time : Z
}.

Record LatencyMetrics := {
  avg_order_latency_ms : float;
  max_order_latency_ms : float;
  min_order_latency_ms : float;
  avg_reaction_latency_ms : float;
  max_reaction_latency_ms : float;
  min_reaction_latency_ms : float;
  total_orders : Z;
  successful_orders : Z;
  failed_orders : Z;
  reconnect_count : Z;
  start_time : Z
}.

(** The default member initialisers of [LatencyMetrics]. *)
Definition LatencyMetrics_default : LatencyMetrics := {|
  avg_order_latency_ms := 0%float;
  max_order_latency_ms := 0%float;
  min_order_latency_ms := 999999%float;
  avg_reaction_latency_ms := 0%float;
  max_reaction_latency_ms := 0%float;
  min_reaction_latency_ms := 999999%float;
  total_orders := 0;
  successful_orders := 0;
  failed_orders := 0;
  reconnect_count := 0;
  start_time := 0
|}.

Definition update_latency (latency_ms : float) (m : LatencyMetrics) : LatencyMetrics := {|
  avg_order_latency_ms :=
    ((avg_order_latency_ms m * Double.of_long (total_orders m) + latency_ms)
     / Double.of_long (total_orders m + 1))%float;
  max_order_latency_ms := Double.max (max_order_latency_ms m) latency_ms;
  min_order_latency_ms := Double.min (min_order_latency_ms m) latency_ms;
  avg_reaction_latency_ms := avg_reaction_latency_ms m;
  max_reaction_latency_ms := max_reaction_latency_ms m;
  min_reaction_latency_ms := min_reaction_latency_ms m;
  total_orders := total_orders m + 1;
  successful_orders := successful_orders m;
  failed_orders := failed_orders m;
  reconnect_count := reconnect_count m;
  start_time := start_time m
|}.

Definition update_reaction_latency (latency_ms : float) (m : LatencyMetrics) : LatencyMetrics := {|
  avg_order_latency_ms := avg_order_latency_ms m;
  max_order_latency_ms := max_order_latency_ms m;
  min_order_latency_ms := min_order_latency_ms m;
  avg_reaction_latency_ms :=
    if total_orders m =? 0 then latency_ms
    else ((avg_reaction_latency_ms m * Double.of_long (total_orders m) + latency_ms)
          / Double.of_long (total_orders m + 1))%float;
  max_reaction_latency_ms := Double.max (max_reaction_latency_ms m) latency_ms;
  min_reaction_latency_ms := Double.min (min_reaction_latency_ms m) latency_ms;
  total_orders := total_orders m;
  successful_orders := successful_orders m;
  failed_orders := failed_orders m;
  reconnect_count := reconnect_count m;
  start_time := start_time m
|}.

(** [OrderBook::get_mid_price]. *)
Definition get_mid_price (b : OrderBook) : float :=
  match bids b, asks b with
  | bid :: _, ask :: _ => ((price bid + price ask) / 2)%float
  | _, _ => 0%float
  end.

End Types.
Import Types.

(** ** The surroundings of the process *)

Module Env.

(** A call on the [IExchange] interface held by the order manager. *)
Inductive ExchangeCall :=
| PlaceLimitOrder (symbol : string) (side : OrderSide) (price quantity : float)
                  (client_order_id : string)
| CancelOrder (symbol : string) (order_id : string).

(** Everything the manager reads from outside: the k-th reading of each
    clock, the k-th draw of the random engine, the venue's answer to the
    k-th call.  The counters and the log of calls are the only parts that
    change. *)
Record World := {
  steady_clock : nat -> Z;     (* [steady_clock::now ()], nanoseconds *)
  steady_reads : nat;
  system_clock : nat -> Z;     (* [system_clock::now ().time_since_epoch ().count ()] *)
  system_reads : nat;
  dis : nat -> Z;              (* [dis (gen)], in 100000 .. 999999 *)
  dis_draws : nat;
  venue_place : nat -> ExchangeCall -> option Order;
  venue_cancel : nat -> ExchangeCall -> option bool;
  calls : list ExchangeCall    (* oldest first *)
}.

Definition with_steady_reads (n : nat) (w : World) : World := {|
  steady_clock := steady_clock w; steady_reads := n;
  system_clock := system_clock w; system_reads := system_reads w;
  dis := dis w; dis_draws := dis_draws w;
  venue_place := venue_place w; venue_cancel := venue_cancel w;
  calls := calls w |}.

Definition with_system_reads (n : nat) (w : World) : World := {|
  steady_clock := steady_clock w; steady_reads := steady_reads w;
  system_clock := system_clock w; system_reads := n;
  dis := dis w; dis_draws := dis_draws w;
  venue_place := venue_place w; venue_cancel := venue_cancel w;
  calls := calls w |}.

Definition with_dis_draws (n : nat) (w : World) : World := {|
  steady_clock := steady_clock w; steady_reads := steady_reads w;
  system_clock := system_clock w; system_reads := system_reads w;
  dis := dis w; dis_draws := n;
  venue_place := venue_place w; venue_cancel := venue_cancel w;
  calls := calls w |}.

Definition with_calls (l : list ExchangeCall) (w : World) : World := {|
  steady_clock := steady_clock w; steady_reads := steady_reads w;
  system_clock := system_clock w; system_reads := system_reads w;
  dis := dis w; dis_draws := dis_draws w;
  venue_place := venue_place w; venue_cancel := venue_cancel w;
  calls := l |}.

Definition is_place (c : ExchangeCall) : bool :=
  match c with PlaceLimitOrder _ _ _ _ _ => true | CancelOrder _ _ => false end.

(** Number of order placements among the calls made so far. *)
Definition placements (w : World) : nat := List.length (List.filter is_place (calls w)).

End Env.
Import Env.

(** ** include/config.h (the fields the order manager reads) *)

Module Config.
Record t := {
  symbol : string;
  spread_percentage : float;
  order_size : float;
  price_precision : Z;
  quantity_precision : Z;
  order_update_cooldown : Z      (* [std::chrono::milliseconds] *)
}.
End Config.

(** [std::chrono::duration_cast] from nanoseconds: truncation towards zero. *)
Definition to_microseconds (ns : Z) : Z := Z.quot ns 1000.
Definition to_milliseconds (ns : Z) : Z := Z.quot ns 1000000.

(** ** src/order_manager.cpp *)

Module OrderManager.

Record t := {
  config_ : Config.t;
  active_bid_order_ : option Order;
  active_ask_order_ : option Order;
  last_mid_price_ : float;
  last_order_update_ : Z;
  metrics_ : LatencyMetrics
}.

(** A member function: it reads and writes the object and the world. *)
Definition M (A : Type) : Type := t * World -> A * (t * World).

Definition ret {A} (a : A) : M A := fun s => (a, s).
Definition bind {A B} (c : M A) (k : A -> M B) : M B :=
  fun s => let (a, s') := c s in k a s'.

Notation "x <- c ;; k" := (bind c (fun x => k))
  (at level 100, c at next level, right associativity).
Notation "c ;;; k" := (bind c (fun _ => k))
  (at level 100, right associativity).

Definition this : M t := fun s => (fst s, s).
Definition modify (f : t -> t) : M unit := fun s => (tt, (f (fst s), snd s)).

(** [std::chrono::steady_clock::now ()]. *)
Definition now : M Z := fun s =>
  let w := snd s in
  (steady_clock w (steady_reads w), (fst s, with_steady_reads (S (steady_reads w)) w)).

(** [std::chrono::system_clock::now ().time_since_epoch ().count ()]. *)
Definition system_now : M Z := fun s =>
  let w := snd s in
  (system_clock w (system_reads w), (fst s, with_system_reads (S (system_reads w)) w)).

(** [dis (gen)] with [dis] uniform over 100000 .. 999999. *)
Definition draw : M Z := fun s =>
  let w := snd s in
  (dis w (dis_draws w), (fst s, with_dis_draws (S (dis_draws w)) w)).

(** [exchange_->place_limit_order (...)] and [exchange_->cancel_order (...)]. *)
Definition exchange_place_limit_order (symbol : string) (side : OrderSide)
    (price quantity : float) (client_order_id : string) : M (option Order) := fun s =>
  let w := snd s in
  let c := PlaceLimitOrder symbol side price quantity client_order_id in
  (venue_place w (List.length (calls w)) c, (fst s, with_calls (calls w ++ [c]) w)).

Definition exchange_cancel_order (symbol order_id : string) : M (option bool) := fun s =>
  let w := snd s in
  let c := CancelOrder symbol order_id in
  (venue_cancel w (List.length (calls w)) c, (fst s, with_calls (calls w ++ [c]) w)).

Definition set_active_bid (o : option Order) (m : t) : t := {|
  config_ := config_ m; active_bid_order_ := o;
  active_ask_order_ := active_ask_order_ m; last_mid_price_ := last_mid_price_ m;
  last_order_update_ := last_order_update_ m; metrics_ := metrics_ m |}.

Definition set_active_ask (o : option Order) (m : t) : t := {|
  config_ := config_ m; active_bid_order_ := active_bid_order_ m;
  active_ask_order_ := o; last_mid_price_ := last_mid_price_ m;
  last_order_update_ := last_order_update_ m; metrics_ := metrics_ m |}.

Definition set_last_mid_price (x : float) (m : t) : t := {|
  config_ := config_ m; active_bid_order_ := active_bid_order_ m;
  active_ask_order_ := active_ask_order_ m; last_mid_price_ := x;
  last_order_update_ := last_order_update_ m; metrics_ := metrics_ m |}.

Definition set_last_order_update (x : Z) (m : t) : t := {|
  config_ := config_ m; active_bid_order_ := active_bid_order_ m;
  active_ask_order_ := active_ask_order_ m; last_mid_price_ := last_mid_price_ m;
  last_order_update_ := x; metrics_ := metrics_ m |}.

Definition set_metrics (x : LatencyMetrics) (m : t) : t := {|
  config_ := config_ m; active_bid_order_ := active_bid_order_ m;
  active_ask_order_ := active_ask_order_ m; last_mid_price_ := last_mid_price_ m;
  last_order_update_ := last_order_update_ m; metrics_ := x |}.

Definition incr_failed_orders (x : LatencyMetrics) : LatencyMetrics := {|
  avg_order_latency_ms := avg_order_latency_ms x;
  max_order_latency_ms := max_order_latency_ms x;
  min_order_latency_ms := min_order_latency_ms x;
  avg_reaction_latency_ms := avg_reaction_latency_ms x;
  max_reaction_latency_ms := max_reaction_latency_ms x;
  min_reaction_latency_ms := min_reaction_latency_ms x;
  total_orders := total_orders x;
  successful_orders := successful_orders x;
  failed_orders := failed_orders x + 1;
  reconnect_count := reconnect_count x;
  start_time := start_time x |}.

Definition add_successful_orders (k : Z) (x : LatencyMetrics) : LatencyMetrics := {|
  avg_order_latency_ms := avg_order_latency_ms x;
  max_order_latency_ms := max_order_latency_ms x;
  min_order_latency_ms := min_order_latency_ms x;
  avg_reaction_latency_ms := avg_reaction_latency_ms x;
  max_reaction_latency_ms := max_reaction_latency_ms x;
  min_reaction_latency_ms := min_reaction_latency_ms x;
  total_orders := total_orders x;
  successful_orders := successful_orders x + k;
  failed_orders := failed_orders x;
  reconnect_count := reconnect_count x;
  start_time := start_time x |}.

Definition set_start_time (z : Z) (x : LatencyMetrics) : LatencyMetrics := {|
  avg_order_latency_ms := avg_order_latency_ms x;
  max_order_latency_ms := max_order_latency_ms x;
  min_order_latency_ms := min_order_latency_ms x;
  avg_reaction_latency_ms := avg_reaction_latency_ms x;
  max_reaction_latency_ms := max_reaction_latency_ms x;
  min_reaction_latency_ms := min_reaction_latency_ms x;
  total_orders := total_orders x;
  successful_orders := successful_orders x;
  failed_orders := failed_orders x;
  reconnect_count := reconnect_count x;
  start_time := z |}.

(** The constructor: no active order, [last_mid_price_ {0.0}], a
    value-initialised [last_order_update_], fresh metrics stamped with the
    clock. *)
Definition create (config : Config.t) (w : World) : t * World :=
  ({| config_ := config; active_bid_order_ := None; active_ask_order_ := None;
      last_mid_price_ := 0%float; last_order_update_ := 0;
      metrics_ := set_start_time (steady_clock w (steady_reads w)) LatencyMetrics_default |},
   with_steady_reads (S (steady_reads w)) w).

Section WithLibm.
Context `{Libm}.

(** [OrderManager::format_price]. *)
Definition format_price (price : float) : M float :=
m <- this ;;
let multiplier := pow 10%float (Config.price_precision (config_ m)) in
ret (round (price * multiplier) / multiplier)%float.

(** [OrderManager::generate_client_order_id]. *)
Definition client_order_id_of (side : OrderSide) (epoch_count rnd : Z) : string :=
("MM_" ++ (match side with BUY => "BID_" | SELL => "ASK_" end)
   ++ Fmt.to_string epoch_count ++ "_" ++ Fmt.to_string rnd)%string.

Definition generate_client_order_id (side : OrderSide) : M string :=
ts <- system_now ;;
r <- draw ;;
ret (client_order_id_of side ts r).

(** [OrderManager::place_order]. *)
Definition place_order (side : OrderSide) (price quantity : float) : M bool :=
client_order_id <- generate_client_order_id side ;;
m <- this ;;
order_result <- exchange_place_limit_order
                  (Config.symbol (config_ m)) side price quantity client_order_id ;;
match order_result with
| None =>
    modify (fun m => set_metrics (incr_failed_orders (metrics_ m)) m) ;;;
    ret false
| Some order =>
    modify (match side with
            | BUY => set_active_bid (Some order)
            | SELL => set_active_ask (Some order)
            end) ;;;
    ret true
end.

(** [OrderManager::cancel_order]. *)
Definition cancel_order (order : option Order) : M bool :=
match order with
| None => ret true
| Some o =>
    m <- this ;;
    result <- exchange_cancel_order (Config.symbol (config_ m)) (order_id o) ;;
    match result with
    | Some true => ret true
    | _ => ret false
    end
end.

(** [OrderManager::should_update_orders]. *)
Definition should_update_orders (new_mid_price : float) : M bool :=
m <- this ;;
let current_mid := last_mid_price_ m in
if (PrimFloat.abs (new_mid_price - current_mid) <? 0.00001)%float then ret false
else
  now_ <- now ;;
  let time_since_last_update := to_milliseconds (now_ - last_order_update_ m) in
  if time_since_last_update <? Config.order_update_cooldown (config_ m) then ret false
  else ret true.

(** [OrderManager::update_metrics]. *)
Definition update_metrics (start_time orderbook_time : Z) : M unit :=
end_time <- now ;;
let execution_latency_us := to_microseconds (end_time - start_time) in
let execution_latency_ms := (Double.of_long execution_latency_us / 1000)%float in
let reaction_latency_us := to_microseconds (end_time - orderbook_time) in
let reaction_latency_ms := (Double.of_long reaction_latency_us / 1000)%float in
modify (fun m =>
  set_metrics
    (add_successful_orders 2
       (update_reaction_latency reaction_latency_ms
          (update_latency execution_latency_ms (metrics_ m)))) m).

Definition PRICE_CHANGE_THRESHOLD : float := 0.0001%float.

(** The hysteresis test of [place_market_maker_orders], lines 74-97: [true]
  is [need_update], [false] the early [return true]. *)
Definition need_update (mid_price : float) (m : t) : bool :=
match active_bid_order_ m, active_ask_order_ m with
| Some _, Some _ =>
    let price_change_ratio :=
      (PrimFloat.abs (mid_price - last_mid_price_ m) / last_mid_price_ m)%float in
    (PRICE_CHANGE_THRESHOLD <? price_change_ratio)%float
| _, _ => true
end.

(** [OrderManager::place_market_maker_orders (mid_price, orderbook_time)].
  The two cancels run as [std::async] tasks and the two placements on two
  threads; they touch disjoint legs and take the metrics lock to count, so
  they are run here one after the other, bid first.  The waits bounded by
  100 ms only choose what is logged. *)
Definition place_market_maker_orders (mid_price : float) (orderbook_time : Z) : M bool :=
if (mid_price <=? 0)%float then ret false
else
  start_time <- now ;;
  m <- this ;;
  let spread_multiplier := Config.spread_percentage (config_ m) in
  let bid_multiplier := (1 - spread_multiplier)%float in
  let ask_multiplier := (1 + spread_multiplier)%float in
  let bid_price_raw := (mid_price * bid_multiplier)%float in
  let ask_price_raw := (mid_price * ask_multiplier)%float in
  bid_price <- format_price bid_price_raw ;;
  ask_price <- format_price ask_price_raw ;;
  t2 <- now ;;
  if negb (need_update mid_price m) then ret true
  else
    t3 <- now ;;
    let bid_order_to_cancel := active_bid_order_ m in
    let ask_order_to_cancel := active_ask_order_ m in
    match bid_order_to_cancel, ask_order_to_cancel with
    | Some _, Some _ =>
        cancel_order bid_order_to_cancel ;;;
        cancel_order ask_order_to_cancel ;;;
        modify (set_active_bid None) ;;;
        modify (set_active_ask None)
    | _, _ => ret tt
    end ;;;
    t4 <- now ;;
    t5 <- now ;;
    thread_start <- now ;;
    bid_success <- place_order BUY bid_price (Config.order_size (config_ m)) ;;
    thread_end <- now ;;
    thread_start' <- now ;;
    ask_success <- place_order SELL ask_price (Config.order_size (config_ m)) ;;
    thread_end' <- now ;;
    t6 <- now ;;
    modify (set_last_mid_price mid_price) ;;;
    update_ts <- now ;;
    modify (set_last_order_update update_ts) ;;;
    update_metrics start_time orderbook_time ;;;
    ret (bid_success && ask_success).

(** [OrderManager::update_orders_if_needed (new_mid_price, orderbook_time)]. *)
Definition update_orders_if_needed (new_mid_price : float) (orderbook_time : Z) : M bool :=
go <- should_update_orders new_mid_price ;;
if negb go then ret true
else place_market_maker_orders new_mid_price orderbook_time.

(** The one-argument overloads stamp the call with the clock. *)
Definition place_market_maker_orders_now (mid_price : float) : M bool :=
orderbook_time <- now ;;
place_market_maker_orders mid_price orderbook_time.

Definition update_orders_if_needed_now (new_mid_price : float) : M bool :=
orderbook_time <- now ;;
update_orders_if_needed new_mid_price orderbook_time.

(** [OrderManager::cancel_all_active_orders]. *)
Definition cancel_all_active_orders : M bool :=
m <- this ;;
ok_bid <- match active_bid_order_ m with
          | Some o => cancel_order (Some o)
          | None => ret true
          end ;;
ok_ask <- match active_ask_order_ m with
          | Some o => cancel_order (Some o)
          | None => ret true
          end ;;
modify (set_active_bid None) ;;;
modify (set_active_ask None) ;;;
ret (ok_bid && ok_ask).

(** [OrderManager::reset_metrics]. *)
Definition reset_metrics : M unit :=
t0 <- now ;;
modify (set_metrics (set_start_time t0 LatencyMetrics_default)).

End WithLibm.

End OrderManager.

(** ** The steady clock of a thread that sleeps *)

Module Steady.

(** [readings k] is what
    the k-th call of [steady_clock::now ()] would return had the thread never
    slept; [slept] is the time it asked [sleep_for] for so far.  A sleep
    lasts at least as long as asked: whatever it lasts longer is part of the
    readings, which never decrease. *)
Record Clock := {
  readings : nat -> Z;
  reads : nat;
  slept : Z
}.

Definition now (c : Clock) : Z * Clock :=
  (readings c (reads c) + slept c,
   {| readings := readings c; reads := S (reads c); slept := slept c |}).

Definition milliseconds (n : Z) : Z := n * 1000000.

(** [std::this_thread::sleep_for (d)]. *)
Definition sleep_for (d : Z) (c : Clock) : Clock :=
  {| readings := readings c; reads := reads c; slept := slept c + d |}.

End Steady.

(** ** src/rate_limiter.cpp *)

Module RateLimiter.

Record t := {
  max_requests_per_second_ : Z;       (* [const int] *)
  burst_size_ : Z;                    (* [const int] *)
  request_times_ : list Z;            (* [std::deque], front first *)
  request_count_ : Z
}.

Definition create (max_requests_per_second burst_size : Z) : t := {|
  max_requests_per_second_ := max_requests_per_second;
  burst_size_ := burst_size;
  request_times_ := [];
  request_count_ := 0
|}.

Definition seconds (n : Z) : Z := n * 1000000000.

(** [static_cast<size_t> (int)] and the conversion of [count_if]'s result
    to [int]. *)
Definition to_size_t (z : Z) : Z := z mod 2 ^ 64.
Definition to_int (z : Z) : Z := (z + 2 ^ 31) mod 2 ^ 32 - 2 ^ 31.

(** The loop of [cleanup_old_requests]: pop the front while it is older
    than the cutoff. *)
Fixpoint pop_while_before (cutoff : Z) (q : list Z) : list Z :=
  match q with
  | [] => []
  | front :: rest => if front <? cutoff then pop_while_before cutoff rest else q
  end.

Definition with_request_times (q : list Z) (r : t) : t := {|
  max_requests_per_second_ := max_requests_per_second_ r;
  burst_size_ := burst_size_ r;
  request_times_ := q;
  request_count_ := request_count_ r
|}.

(** [RateLimiter::cleanup_old_requests], given its reading of the clock. *)
Definition cleanup_old_requests (now : Z) (r : t) : t :=
  let cutoff := now - seconds 60 in
  with_request_times (pop_while_before cutoff (request_times_ r)) r.

(** [std::count_if] over the deque. *)
Definition count_if (p : Z -> bool) (q : list Z) : Z :=
  Z.of_nat (List.length (List.filter p q)).

(** [RateLimiter::can_request].  [now0] is the clock as read by the cleanup,
    [now1] as read for the rate check. *)
Definition can_request (now0 now1 : Z) (r : t) : bool * t :=
  let r := cleanup_old_requests now0 r in
  if to_size_t (burst_size_ r) <=? Z.of_nat (List.length (request_times_ r)) then (false, r)
  else
    let one_second_ago := now1 - seconds 1 in
    let recent_requests :=
      to_int (count_if (fun time => one_second_ago <? time) (request_times_ r)) in
    (recent_requests <? max_requests_per_second_ r, r).

(** [RateLimiter::record_request]. *)
Definition record_request (now : Z) (r : t) : t := {|
  max_requests_per_second_ := max_requests_per_second_ r;
  burst_size_ := burst_size_ r;
  request_times_ := request_times_ r ++ [now];
  request_count_ := to_int (request_count_ r + 1)
|}.

(** [RateLimiter::reset]. *)
Definition reset (r : t) : t := {|
  max_requests_per_second_ := max_requests_per_second_ r;
  burst_size_ := burst_size_ r;
  request_times_ := [];
  request_count_ := 0
|}.

(** Requests recorded at the given instants, in this order. *)
Definition record_all (times : list Z) (r : t) : t :=
  fold_left (fun acc now => record_request now acc) times r.

(** [RateLimiter::Stats]. *)
Record Stats := {
  requests_in_last_second : Z;        (* [int] *)
  requests_in_last_minute : Z;        (* [int] *)
  current_rate : float;
  is_limited : bool
}.

(** [RateLimiter::get_stats], given its reading of the clock.  It counts
    over the deque as it is: it does not clean up first. *)
Definition get_stats (now : Z) (r : t) : Stats :=
  let one_second_ago := now - seconds 1 in
  let one_minute_ago := now - seconds 60 in
  let last_second :=
    to_int (count_if (fun time => one_second_ago <? time) (request_times_ r)) in
  let last_minute :=
    to_int (count_if (fun time => one_minute_ago <? time) (request_times_ r)) in
  {| requests_in_last_second := last_second;
     requests_in_last_minute := last_minute;
     current_rate := Double.of_long last_second;
     is_limited := max_requests_per_second_ r <=? last_second |}.

(** [RateLimiter::can_request] reading the clock itself: once in the
    cleanup, once more if the burst test lets it get to the rate check. *)
Definition can_request_on (r : t) (c : Steady.Clock) : bool * (t * Steady.Clock) :=
  let (now0, c) := Steady.now c in
  let r := cleanup_old_requests now0 r in
  if to_size_t (burst_size_ r) <=? Z.of_nat (List.length (request_times_ r)) then (false, (r, c))
  else
    let (now1, c) := Steady.now c in
    let one_second_ago := now1 - seconds 1 in
    let recent_requests :=
      to_int (count_if (fun time => one_second_ago <? time) (request_times_ r)) in
    (recent_requests <? max_requests_per_second_ r, (r, c)).

(** [RateLimiter::wait_if_needed]: [while (!can_request ()) sleep_for (50 ms)].
    The fuel bounds the number of turns of the loop; [None]: the loop is
    still turning when the fuel is spent. *)
Fixpoint wait_if_needed (fuel : nat) (r : t) (c : Steady.Clock) : option (t * Steady.Clock) :=
  match fuel with
  | O => None
  | S fuel =>
      let '(ok, (r, c)) := can_request_on r c in
      if ok then Some (r, c)
      else wait_if_needed fuel r (Steady.sleep_for (Steady.milliseconds 50) c)
  end.

End RateLimiter.

(** ** src/websocket_client.cpp: the frames the client writes *)

Module WebSocketClient.

(** The bytes of a [std::string]. *)
Definition bytes_of_string (s : string) : list Z :=
  map (fun c => Z.of_N (N_of_ascii c)) (list_ascii_of_string s).

Definition dquote : string := String (ascii_of_nat 34) EmptyString.

(** What a send function hands to [SSL_write]. *)
Inductive written :=
| Nothing                           (* returned before writing *)
| Bytes (bs : list Z)               (* the bytes written, header first *)
| Indeterminate.                    (* an uninitialised header byte is written *)

Definition mask : list Z := [0x12; 0x34; 0x56; 0x78].

(** [masked_payload[i] ^= mask[i % 4]]. *)
Definition mask_payload (key : list Z) (payload : list Z) : list Z :=
  imap (fun i b => Z.lxor b (nth (i mod 4) key 0)) payload.

(** The subscription document built by [subscribe_orderbook]. *)
Definition subscribe_message (symbol : string) (depth : Z) : string :=
  ("{" ++ (dquote ++ "method" ++ dquote ++ ":" ++ dquote ++ "SUBSCRIBE" ++ dquote ++ ",")
       ++ (dquote ++ "params" ++ dquote ++ ":[" ++ dquote)
       ++ symbol ++ "@depth" ++ Fmt.to_string depth
       ++ ("@100ms" ++ dquote ++ "],")
       ++ (dquote ++ "id" ++ dquote ++ ":1")
       ++ "}")%string.

(** [WebSocketClient::subscribe_orderbook]. *)
Definition subscribe_orderbook (connected_ : bool) (symbol : string) (depth : Z) : written :=
  if negb connected_ then Nothing
  else
    let message := bytes_of_string (subscribe_message symbol depth) in
    let payload_len := Z.of_nat (List.length message) in
    let header0 := 0x81 in
    if payload_len <=? 125 then
      Bytes ([header0; Z.lor 0x80 payload_len] ++ mask ++ mask_payload mask message)
    else if payload_len <=? 65535 then
      Bytes ([header0; Z.lor 0x80 126;
              Z.land (Z.shiftr payload_len 8) 0xFF; Z.land payload_len 0xFF]
             ++ mask ++ mask_payload mask message)
    else Indeterminate.

(** [WebSocketClient::send_ping]. *)
Definition send_ping (connected_ ssl : bool) : written :=
  if negb connected_ || negb ssl then Nothing
  else Bytes [0x89; 0x80; 0x00; 0x00; 0x00; 0x00].

(** The answer of [run_worker] to a ping frame carrying [payload], lines
    395-414. *)
Definition pong (payload : list Z) : written :=
  let payload_len := Z.of_nat (List.length payload) in
  if payload_len <=? 125 then
    Bytes ([0x8A; Z.lor 0x80 payload_len; 0x12; 0x34; 0x56; 0x78]
           ++ mask_payload [0x12; 0x34; 0x56; 0x78] payload)
  else Nothing.

(** A frame read back from the wire, with the layout that [run_worker]
    decodes (lines 335-366): first byte [fin] and opcode, second byte mask
    bit and 7-bit length, then the extended length, then the four key bytes
    of a masked frame, then the payload. *)
Record frame := {
  fin : bool;
  opcode : Z;
  masked : bool;
  masking_key : list Z;
  payload : list Z
}.

Definition read_frame (bs : list Z) : option frame :=
  match bs with
  | b0 :: b1 :: rest =>
      let len7 := Z.land b1 0x7F in
      let is_masked := Z.testbit b1 7 in
      let body (len : Z) (rest : list Z) :=
        let key := if is_masked then firstn 4 rest else [] in
        let rest := if is_masked then skipn 4 rest else rest in
        if (is_masked && negb (List.length key =? 4)%nat)
           || (Z.of_nat (List.length rest) <? len)
        then None
        else Some {| fin := Z.testbit b0 7; opcode := Z.land b0 0x0F; masked := is_masked;
                     masking_key := key; payload := firstn (Z.to_nat len) rest |} in
      if len7 =? 126 then
        match rest with
        | h :: l :: rest => body (Z.lor (Z.shiftl h 8) l) rest
        | _ => None
        end
      else if len7 =? 127 then
        match rest with
        | a :: b :: c :: d :: e :: f :: g :: h :: rest =>
            body (fold_left (fun acc x => Z.lor (Z.shiftl acc 8) x) [a; b; c; d; e; f; g; h] 0) rest
        | _ => None
        end
      else body len7 rest
  | _ => None
  end.

(** What the client can write in a session. *)
Inductive send :=
| Subscribe (symbol : string) (depth : Z)
| Ping
| Pong (payload : list Z).

Definition bytes_written (s : send) : written :=
  match s with
  | Subscribe symbol depth => subscribe_orderbook true symbol depth
  | Ping => send_ping true true
  | Pong payload => pong payload
  end.

(** *** The frame loop of [run_worker], lines 331-417 *)

(** What the loop does to the outside. *)
Inductive action :=
| Deliver (message : list Z)   (* [message_handler_ (accumulated_data)]; then
                                  [last_message_time_] is stamped *)
| Write (bytes : list Z)       (* the pong handed to [SSL_write] *)
| Disconnected                 (* a close frame: [disconnect ()], [run_worker] returns *)
| Overrun.                     (* the payload is taken from past the bytes received:
                                  what follows depends on what the buffer held *)

(** The header of the frame at the current position. *)
Inductive parsed :=
| Stop                         (* [break]: the bytes left are not looked at again *)
| Past                         (* the frame reaches past the bytes received *)
| Frame (fin : bool) (opcode : Z) (payload : list Z) (rest : list Z).

(** Lines 343-355: the payload length, from the seven bits of the second
    byte and the bytes that follow it; [None] is [break]. *)
Definition extended_length (len7 : Z) (rest : list Z) : option (Z * list Z) :=
  if len7 =? 126 then
    match rest with
    | h :: l :: rest => Some (Z.lor (Z.shiftl h 8) l, rest)
    | _ => None
    end
  else if len7 =? 127 then
    match rest with
    | a :: b :: c :: d :: e :: f :: g :: h :: rest =>
        Some (fold_left (fun n x => Z.lor (Z.shiftl n 8 mod 2 ^ 64) x)
                        [a; b; c; d; e; f; g; h] 0, rest)
    | _ => None
    end
  else Some (len7, rest).

(** Lines 333-366 on the bytes from [pos] to [bytes]. *)
Definition next_frame (bs : list Z) : parsed :=
  match bs with
  | b0 :: b1 :: rest =>
      let fin := Z.testbit b0 7 in
      let opcode := Z.land b0 0x0F in
      let is_masked := Z.testbit b1 7 in
      match extended_length (Z.land b1 0x7F) rest with
      | None => Stop
      | Some (payload_len, rest) =>
          (* [bytes - pos], an [int], after [pos += 4] for the key *)
          let available := Z.of_nat (List.length rest) - (if is_masked then 4 else 0) in
          if available <? 0 then
            if available + 2 ^ 64 <? payload_len then Stop else Past
          else if available <? payload_len then Stop
          else
            let rest := if is_masked then skipn 4 rest else rest in
            Frame fin opcode (firstn (Z.to_nat payload_len) rest)
                  (skipn (Z.to_nat payload_len) rest)
      end
  | _ => Stop
  end.

(** The loop itself; [handler] tells whether [message_handler_] is set,
    [accumulated_data] is the message under assembly.  Every frame takes at
    least two bytes, so that [fuel] need not exceed the number of bytes. *)
Fixpoint frames (fuel : nat) (handler : bool) (bs : list Z) (accumulated_data : list Z)
    : list action * list Z :=
  match fuel with
  | O => ([], accumulated_data)
  | S fuel =>
      match next_frame bs with
      | Stop => ([], accumulated_data)
      | Past => ([Overrun], accumulated_data)
      | Frame fin opcode payload rest =>
          if (opcode =? 0x01) || (opcode =? 0x00) then
            let accumulated_data :=
              (if opcode =? 0x01 then [] else accumulated_data) ++ payload in
            if fin then
              let (out, left_over) := frames fuel handler rest [] in
              ((if handler && negb (Nat.eqb (List.length accumulated_data) 0)
                then [Deliver accumulated_data] else []) ++ out, left_over)
            else frames fuel handler rest accumulated_data
          else if opcode =? 0x08 then ([Disconnected], accumulated_data)
          else if opcode =? 0x09 then
            let (out, left_over) := frames fuel handler rest accumulated_data in
            (match pong payload with Bytes b => [Write b] | _ => [] end ++ out, left_over)
          else frames fuel handler rest accumulated_data
      end
  end.

(** What [run_worker] does with the bytes of one [SSL_read]. *)
Definition process_read (handler : bool) (data : list Z) (accumulated_data : list Z)
    : list action * list Z :=
  frames (List.length data) handler data accumulated_data.

(** *** The address that [connect] resolves, lines 89-111 *)

Record endpoint := {
  host : string;
  port : Z;
  path : string
}.

Section WithStrtol.
Context `{Strtol}.

(** [None]: [std::stoi] throws and the exception leaves [connect]. *)
Definition parse_uri (uri : string) : option endpoint :=
match Str.find_str "://" uri with
| Some start =>
    let start := (start + 3)%nat in
    let '(host, path) :=
      match Str.find_from "/" start uri with
      | Some end_ => (Str.substr start (end_ - start) uri, Str.from end_ uri)
      | None => (Str.from start uri, "/"%string)
      end in
    match Str.find ":" host with
    | Some colon =>
        match stoi (Str.from (colon + 1) host) with
        | Some port => Some {| host := Str.left colon host; port := port; path := path |}
        | None => None
        end
    | None => Some {| host := host; port := 443; path := path |}
    end
| None => Some {| host := EmptyString; port := 443; path := "/" |}
end.

End WithStrtol.

End WebSocketClient.

(** ** The parts of the C and C++ libraries, of jsoncpp and of OpenSSL that
    the sources call *)

(** [std::stod] ([None]: it throws) and jsoncpp's rendering of a real
    number. *)
Class Numeric := {
  stod : string -> option float;
  valueToString : float -> string
}.

(** OpenSSL's [HMAC (EVP_sha256 (), key, ..., data, ..., digest, &len)]: the
    digest bytes. *)
Class Crypto := HMAC_SHA256 : string -> string -> list Byte.byte.

Module Json.

Inductive Value :=
| nullValue
| intValue (z : Z)
| realValue (d : float)
| stringValue (s : string)
| booleanValue (b : bool)
| arrayValue (elements : list Value)
| objectValue (members : list (string * Value)).   (* a [std::map]: in key order *)

Fixpoint find_member (key : string) (members : list (string * Value)) : option Value :=
  match members with
  | [] => None
  | (k, v) :: rest => if String.eqb key k then Some v else find_member key rest
  end.

Fixpoint assign_member (key : string) (v : Value) (members : list (string * Value)) :=
  match members with
  | [] => []
  | (k, v') :: rest =>
      if String.eqb key k then (k, v) :: rest else (k, v') :: assign_member key v rest
  end.

Fixpoint insert_member (key : string) (v : Value) (members : list (string * Value)) :=
  match members with
  | [] => [(key, v)]
  | (k, v') :: rest =>
      if String.ltb key k then (key, v) :: members else (k, v') :: insert_member key v rest
  end.

(** [object[key] = v] on the member map: overwrite the member, or insert it
    at its place in key order. *)
Definition set_in (key : string) (v : Value) (members : list (string * Value)) :=
  match find_member key members with
  | Some _ => assign_member key v members
  | None => insert_member key v members
  end.

(** [value[key] = v]; [None] when jsoncpp throws (the value is neither null
    nor an object). *)
Definition set_member (key : string) (v : Value) (value : Value) : option Value :=
  match value with
  | nullValue => Some (objectValue [(key, v)])
  | objectValue members => Some (objectValue (set_in key v members))
  | _ => None
  end.

(** [value.isMember (key)]; [None] when jsoncpp throws. *)
Definition isMember (key : string) (value : Value) : option bool :=
  match value with
  | nullValue => Some false
  | objectValue members =>
      Some (match find_member key members with Some _ => true | None => false end)
  | _ => None
  end.

(** [value[key]] read; a missing member reads as null. *)
Definition get (key : string) (value : Value) : option Value :=
  match value with
  | nullValue => Some nullValue
  | objectValue members =>
      Some (match find_member key members with Some v => v | None => nullValue end)
  | _ => None
  end.

(** [value.getMemberNames ()]. *)
Definition getMemberNames (value : Value) : option (list string) :=
  match value with
  | nullValue => Some []
  | objectValue members => Some (map fst members)
  | _ => None
  end.

(** The values a range-for over [value] visits. *)
Definition iterate (value : Value) : list Value :=
  match value with
  | arrayValue elements => elements
  | objectValue members => map snd members
  | _ => []
  end.

Definition isArray (value : Value) : bool :=
  match value with arrayValue _ => true | _ => false end.

Definition size (value : Value) : nat :=
  match value with
  | arrayValue elements => List.length elements
  | objectValue members => List.length members
  | _ => O
  end.

(** [value[index]] on an array that is long enough. *)
Definition at_index (index : nat) (value : Value) : Value :=
  match value with
  | arrayValue elements => nth index elements nullValue
  | _ => nullValue
  end.

(** [value.asString ()]; [None] when jsoncpp throws. *)
Definition asString `{Numeric} (value : Value) : option string :=
  match value with
  | nullValue => Some EmptyString
  | stringValue s => Some s
  | booleanValue b => Some (if b then "true" else "false")%string
  | intValue z => Some (Fmt.to_string z)
  | realValue d => Some (valueToString d)
  | arrayValue _ | objectValue _ => None
  end.

(** [value.asInt ()]; [None] when jsoncpp throws. *)
Definition asInt (value : Value) : option Z :=
  match value with
  | nullValue => Some 0
  | intValue z => if (- 2 ^ 31 <=? z) && (z <=? 2 ^ 31 - 1) then Some z else None
  | realValue d =>
      if (PrimFloat.leb (-2147483648)%float d && PrimFloat.leb d 2147483647%float)%bool
      then Some 0 else None     (* the value [int (d)] is only printed *)
  | booleanValue b => Some (if b then 1 else 0)
  | stringValue _ | arrayValue _ | objectValue _ => None
  end.

End Json.

(** ** Request signing: src/rest_client.cpp and src/websocket_trading_client.cpp *)

Module Signing.
Section WithCrypto.
Context `{Crypto}.

(** The loop that both [RestClient::Impl::hmac_sha256] and
  [WebSocketTradingClient::generate_signature] run over the digest. *)
Definition hex_digest (digest : list Byte.byte) : string :=
fold_left (fun ss b => (ss ++ Fmt.hex2 (Z.of_N (Byte.to_N b)))%string) digest EmptyString.

Definition generate_signature (api_secret query_string : string) : string :=
hex_digest (HMAC_SHA256 api_secret query_string).

End WithCrypto.
End Signing.

Module RestClient.


Record request := {
  http_method : string;
  url : string;
  api_key_header : string
}.

Section WithCrypto.
Context `{Crypto}.



End WithCrypto.
(** [Impl::get_curl_handle]: the handle at [pool_index], and the index
    after it.  [None]: the pool is empty or the index lies past its end, where
    [operator[]] and [%] are undefined. *)
Definition get_curl_handle {handle : Type} (curl_pool : list handle) (pool_index : nat)
    : option (handle * nat) :=
  match curl_pool !! pool_index with
  | Some curl => Some (curl, ((pool_index + 1) mod List.length curl_pool)%nat)
  | None => None
  end.

(** [RestClient::get_symbol_info], lines 690-698 (and 701-709 for the step
    size): the precision read off a tick size; [precision] is what the
    variable held before. *)
Definition precision_of_step (step_size : string) (precision : Z) : Z :=
  match Str.find "." step_size with
  | Some decimal_pos =>
      let trailing_zeros :=
        match Str.find_last_not_of "0" step_size with
        | Some i => Z.of_nat i
        | None => 2 ^ 64 - 1          (* [npos] *)
        end in
      if Z.of_nat decimal_pos <? trailing_zeros
      then Str.to_int ((trailing_zeros - Z.of_nat decimal_pos) mod 2 ^ 64)
      else precision
  | None => precision
  end.

End RestClient.

(** ** src/websocket_trading_client.cpp *)

Module TradingClient.

Record PendingRequest := {
  method : string;
  sent_time : Z;
  promise : option Json.Value;      (* the shared state: empty, or the value set *)
  waiting : bool
}.

Record TradingMetrics := {
  total_requests : Z;
  successful_orders : Z;
  failed_orders : Z;
  cancelled_orders : Z
}.

(** The objects behind the [shared_ptr]s live in [heap_]; the table maps a
    request id to its object; the waiting caller holds the same address.
    [ws_thread_] tells whether the event-loop thread was started and is not
    joined yet: until then the four handlers can run.  [admitted_] counts
    the calls of [send_request_and_wait] that found [connected_] set at line
    405 and have not stored their request yet: the test is made outside the
    lock. *)
Record t := {
  api_key_ : string;
  api_secret_ : string;
  connected_ : bool;
  running_ : bool;
  ws_thread_ : bool;
  admitted_ : nat;
  heap_ : gmap nat PendingRequest;
  pending_requests_ : gmap string nat;
  request_id_counter_ : Z;
  metrics_ : TradingMetrics
}.

Definition create (api_key api_secret : string) : t := {|
  api_key_ := api_key; api_secret_ := api_secret;
  connected_ := false; running_ := false;
  ws_thread_ := false; admitted_ := O;
  heap_ := ∅; pending_requests_ := ∅;
  request_id_counter_ := 1;
  metrics_ := {| total_requests := 0; successful_orders := 0;
                 failed_orders := 0; cancelled_orders := 0 |}
|}.

Definition with_connection (connected running : bool) (c : t) : t := {|
  api_key_ := api_key_ c; api_secret_ := api_secret_ c;
  connected_ := connected; running_ := running;
  ws_thread_ := ws_thread_ c; admitted_ := admitted_ c;
  heap_ := heap_ c; pending_requests_ := pending_requests_ c;
  request_id_counter_ := request_id_counter_ c; metrics_ := metrics_ c |}.

Definition with_thread (alive : bool) (c : t) : t := {|
  api_key_ := api_key_ c; api_secret_ := api_secret_ c;
  connected_ := connected_ c; running_ := running_ c;
  ws_thread_ := alive; admitted_ := admitted_ c;
  heap_ := heap_ c; pending_requests_ := pending_requests_ c;
  request_id_counter_ := request_id_counter_ c; metrics_ := metrics_ c |}.

Definition with_admitted (n : nat) (c : t) : t := {|
  api_key_ := api_key_ c; api_secret_ := api_secret_ c;
  connected_ := connected_ c; running_ := running_ c;
  ws_thread_ := ws_thread_ c; admitted_ := n;
  heap_ := heap_ c; pending_requests_ := pending_requests_ c;
  request_id_counter_ := request_id_counter_ c; metrics_ := metrics_ c |}.

Definition with_requests (heap : gmap nat PendingRequest) (table : gmap string nat) (c : t) : t := {|
  api_key_ := api_key_ c; api_secret_ := api_secret_ c;
  connected_ := connected_ c; running_ := running_ c;
  ws_thread_ := ws_thread_ c; admitted_ := admitted_ c;
  heap_ := heap; pending_requests_ := table;
  request_id_counter_ := request_id_counter_ c; metrics_ := metrics_ c |}.

Definition with_counter (n : Z) (c : t) : t := {|
  api_key_ := api_key_ c; api_secret_ := api_secret_ c;
  connected_ := connected_ c; running_ := running_ c;
  ws_thread_ := ws_thread_ c; admitted_ := admitted_ c;
  heap_ := heap_ c; pending_requests_ := pending_requests_ c;
  request_id_counter_ := n; metrics_ := metrics_ c |}.

Definition with_metrics (m : TradingMetrics) (c : t) : t := {|
  api_key_ := api_key_ c; api_secret_ := api_secret_ c;
  connected_ := connected_ c; running_ := running_ c;
  ws_thread_ := ws_thread_ c; admitted_ := admitted_ c;
  heap_ := heap_ c; pending_requests_ := pending_requests_ c;
  request_id_counter_ := request_id_counter_ c; metrics_ := m |}.

Definition set_promise (v : Json.Value) (r : PendingRequest) : PendingRequest := {|
  method := method r; sent_time := sent_time r; promise := Some v; waiting := waiting r |}.

Definition set_waiting (b : bool) (r : PendingRequest) : PendingRequest := {|
  method := method r; sent_time := sent_time r; promise := promise r; waiting := b |}.

(** The value [disconnect] hands to the waiters: [error["error"] =
    "Connection closed"]. *)
Definition connection_closed : Json.Value :=
  Json.objectValue [("error"%string, Json.stringValue "Connection closed")].

(** One turn of the loop at the end of [disconnect].  [None]: [set_value]
    throws [std::future_error] because the promise is already satisfied. *)
Definition fail_request (id : string) (request : nat)
    (heap : option (gmap nat PendingRequest)) : option (gmap nat PendingRequest) :=
  match heap with
  | None => None
  | Some h =>
      match h !! request with
      | Some r =>
          if waiting r then
            match promise r with
            | None => Some (<[request := set_promise connection_closed r]> h)
            | Some _ => None
            end
          else Some h
      | None => Some h
      end
  end.

(** [WebSocketTradingClient::disconnect], lines 133-141: the early return,
    or the two flags cleared. *)
Definition disconnect_begin (c : t) : t :=
  if negb (running_ c) then c else with_connection false false c.

(** [WebSocketTradingClient::disconnect], lines 143-189, for a call that got
    past line 133.  Closing the socket and stopping the client leave the
    fields untouched; the event-loop thread is joined, after which no
    handler runs any more; then comes the loop over the table.  [None]: a
    [set_value] of that loop throws.  The reconnect thread, joined too, only
    ever stores false into [connected_], and only while [running_]: what it
    does, [On_close] below does. *)
Definition disconnect_end (c : t) : option t :=
  match map_fold fail_request (Some (heap_ c)) (pending_requests_ c) with
  | None => None
  | Some heap => Some (with_thread false (with_requests heap ∅ c))
  end.


(** [generate_request_id]: the counter is a [std::atomic<uint64_t>]. *)
Definition generate_request_id (c : t) : string * t :=
  (("req_" ++ Fmt.to_string (request_id_counter_ c))%string,
   with_counter ((request_id_counter_ c + 1) mod 2 ^ 64) c).

Section WithExternals.
Context `{Numeric} `{Crypto}.

(** The loop of [create_signed_request] over [getMemberNames ()]. *)
Fixpoint query_of_names (signed_params : Json.Value) (names : list string)
  (query_stream : string) (first : bool) : option string :=
match names with
| [] => Some query_stream
| key :: rest =>
    match Json.get key signed_params with
    | Some v =>
        match Json.asString v with
        | Some s =>
            let query_stream := if first then query_stream else (query_stream ++ "&")%string in
            query_of_names signed_params rest (query_stream ++ key ++ "=" ++ s)%string false
        | None => None
        end
    | None => None
    end
end.

Definition query_string_of (signed_params : Json.Value) : option string :=
match Json.getMemberNames signed_params with
| Some names => query_of_names signed_params names EmptyString true
| None => None
end.

(** The parameters after [apiKey] and [timestamp] were added. *)
Definition authenticated_params (api_key : string) (timestamp : Z) (params : Json.Value)
  : option Json.Value :=
match Json.set_member "apiKey" (Json.stringValue api_key) params with
| Some p => Json.set_member "timestamp" (Json.intValue timestamp) p
| None => None
end.

(** [WebSocketTradingClient::create_signed_request]; [system_ns] is the
  reading of the system clock taken by [get_timestamp].  [None]: a jsoncpp
  exception leaves the function. *)
Definition create_signed_request (method : string) (params : Json.Value) (system_ns : Z)
  (c : t) : option Json.Value * t :=
let (id, c) := generate_request_id c in
let request := [("id"%string, Json.stringValue id); ("method"%string, Json.stringValue method)] in
match authenticated_params (api_key_ c) (to_milliseconds system_ns) params with
| Some signed_params =>
    match query_string_of signed_params with
    | Some query_string =>
        let signature := Signing.generate_signature (api_secret_ c) query_string in
        match Json.set_member "signature" (Json.stringValue signature) signed_params with
        | Some signed_params =>
            (Some (Json.objectValue (Json.set_in "params" signed_params request)), c)
        | None => (None, c)
        end
    | None => (None, c)
    end
| None => (None, c)
end.

(** [send_request_and_wait] from line 410 up to the wait on the future, for
  a call that found [connected_] set at line 405.  [sent] tells whether
  [ws_client_->send] reported no error; [address] is where [make_shared]
  put the new object. *)
Definition register_request (method : string) (params : Json.Value) (now system_ns : Z)
  (sent : bool) (address : nat) (c : t) : t :=
match create_signed_request method params system_ns c with
| (None, c) => c
| (Some request, c) =>
    match Json.get "id" request with
    | Some (Json.stringValue request_id) =>
        let pending := {| method := method; sent_time := now;
                          promise := None; waiting := true |} in
        let c := with_requests (<[address := pending]> (heap_ c))
                               (<[request_id := address]> (pending_requests_ c)) c in
        if sent then c
        else with_requests (heap_ c) (delete request_id (pending_requests_ c)) c
    | _ => c
    end
end.

(** The same from the test of line 405 on, when nothing else runs between
  the test and the entry in the table. *)
Definition send_request (method : string) (params : Json.Value) (now system_ns : Z)
  (sent : bool) (address : nat) (c : t) : t :=
if negb (connected_ c) then c
else register_request method params now system_ns sent address c.

(** The timeout branch of [send_request_and_wait]. *)
Definition request_timeout (request_id : string) (address : nat) (c : t) : t :=
let heap := match heap_ c !! address with
            | Some r => <[address := set_waiting false r]> (heap_ c)
            | None => heap_ c
            end in
with_requests heap (delete request_id (pending_requests_ c)) c.

Definition count_total (m : TradingMetrics) : TradingMetrics := {|
  total_requests := (total_requests m + 1) mod 2 ^ 64;
  successful_orders := successful_orders m;
  failed_orders := failed_orders m;
  cancelled_orders := cancelled_orders m |}.

Definition count_successful (m : TradingMetrics) : TradingMetrics := {|
  total_requests := total_requests m;
  successful_orders := (successful_orders m + 1) mod 2 ^ 64;
  failed_orders := failed_orders m;
  cancelled_orders := cancelled_orders m |}.

Definition count_failed (m : TradingMetrics) : TradingMetrics := {|
  total_requests := total_requests m;
  successful_orders := successful_orders m;
  failed_orders := (failed_orders m + 1) mod 2 ^ 64;
  cancelled_orders := cancelled_orders m |}.

Definition count_cancelled (m : TradingMetrics) : TradingMetrics := {|
  total_requests := total_requests m;
  successful_orders := successful_orders m;
  failed_orders := failed_orders m;
  cancelled_orders := (cancelled_orders m + 1) mod 2 ^ 64 |}.

(** How a handler ends, with the metrics as it leaves them. *)
Inductive outcome :=
| Returned (m : TradingMetrics)
| Thrown (m : TradingMetrics).       (* a jsoncpp exception leaves the handler *)

(** [value[key].asString ()] for a member that is printed when present. *)
Definition prints (key : string) (value : Json.Value) : bool :=
  match Json.isMember key value with
  | Some true =>
      match Json.get key value with
      | Some v => match Json.asString v with Some _ => true | None => false end
      | None => false
      end
  | Some false => true
  | None => false
  end.

(** [handle_order_response]. *)
Definition handle_order_response (response : Json.Value) (m : TradingMetrics) : outcome :=
  match Json.isMember "result" response with
  | None => Thrown m
  | Some false => Returned m
  | Some true =>
      match Json.get "result" response with
      | None => Thrown m
      | Some result =>
          match Json.isMember "orderId" result with
          | None => Thrown m
          | Some true =>
              if prints "orderId" result && prints "side" result && prints "price" result
              then Returned (count_successful m) else Thrown (count_successful m)
          | Some false =>
              match Json.isMember "status" result with
              | None => Thrown m
              | Some false => Returned m
              | Some true =>
                  match Json.get "status" result with
                  | None => Thrown m
                  | Some status =>
                      match Json.asString status with
                      | None => Thrown m
                      | Some s =>
                          Returned (if String.eqb s "CANCELED" then count_cancelled m else m)
                      end
                  end
              end
          end
      end
  end.

(** [handle_error_response]: the counter, then the line printed from
    [error["code"].asInt ()] and [error["msg"].asString ()].  The error
    handler it calls at the end is the caller's. *)
Definition handle_error_response (response : Json.Value) (m : TradingMetrics) : outcome :=
  match Json.isMember "error" response with
  | None => Thrown m
  | Some false => Returned m
  | Some true =>
      match Json.get "error" response with
      | None => Thrown (count_failed m)
      | Some error =>
          match Json.get "code" error, Json.get "msg" error with
          | Some code, Some msg =>
              match Json.asInt code, Json.asString msg with
              | Some _, Some _ => Returned (count_failed m)
              | _, _ => Thrown (count_failed m)
              end
          | _, _ => Thrown (count_failed m)
          end
      end
  end.

(** The two calls at the end of the matched branch of [process_message]. *)
Definition handle_response (response : Json.Value) (m : TradingMetrics) : outcome :=
  match Json.isMember "result" response with
  | None => Thrown m
  | Some true => handle_order_response response m
  | Some false =>
      match Json.isMember "error" response with
      | None => Thrown m
      | Some true => handle_error_response response m
      | Some false => Returned m
      end
  end.

(** [process_message] on a parsed document, up to the call of the general
    response handler: the state it leaves, whether it returns or an
    exception leaves it half way (then the entry stays in the table).  Of
    the metrics only the counters are kept: the response-time statistics are
    doubles that nothing below reads. *)
Definition process_message (response : Json.Value) (c : t) : t :=
  match Json.isMember "id" response with
  | Some true =>
      match Json.get "id" response with
      | Some idv =>
          match Json.asString idv with
          | Some request_id =>
              match pending_requests_ c !! request_id with
              | Some address =>
                  match heap_ c !! address with
                  | Some r =>
                      let c := with_metrics (count_total (metrics_ c)) c in
                      let settled :=
                        if waiting r then
                          match promise r with
                          | None => Some (<[address := set_waiting false (set_promise response r)]>
                                            (heap_ c))
                          | Some _ => None       (* [set_value] throws *)
                          end
                        else Some (heap_ c) in
                      match settled with
                      | None => c
                      | Some heap =>
                          match handle_response response (metrics_ c) with
                          | Returned m =>
                              with_requests heap (delete request_id (pending_requests_ c))
                                (with_metrics m c)
                          | Thrown m =>
                              with_requests heap (pending_requests_ c) (with_metrics m c)
                          end
                      end
                  | None => c
                  end
              | None => c
              end
          | None => c
          end
      | None => c
      end
  | _ => c
  end.

(** What can happen to the client, one step of a call or one handler at a
  time.  [disconnect] takes two steps, with the join of the event-loop
  thread in the second, and [send_request_and_wait] takes two, with the
  lock in the second: the handlers and the other calls run in between. *)
Inductive event :=
| Connect_refused                 (* [connect]: [get_connection] reports an error *)
| Connect_started                 (* [connect]: [running_ = true], event loop started *)
| Connect_timed_out               (* [connect]: still not connected at line 113, and
                                     lines 133-141 of the [disconnect ()] it calls *)
| On_open
| On_close
| On_fail
| Send_tested                     (* [send_request_and_wait]: the test of line 405 *)
| Send (method : string) (params : Json.Value) (now system_ns : Z) (sent : bool) (address : nat)
                                  (* lines 410-435 of a call that passed the test *)
| Message (response : Json.Value)
| Timeout (request_id : string) (address : nat)
| Disconnect                      (* [disconnect]: lines 133-141 *)
| Disconnect_joined.              (* [disconnect]: lines 143-189 *)

(** The state after an event, when the event can happen in that state.
  [connect] starts the thread only when it finds the client not connected
  (line 86), and assigning to a [std::thread] that is still joinable ends
  the program.  The three handlers and [Message] run on the event-loop
  thread, from its start to the join in [disconnect], whatever the two
  flags say.  The second step of [disconnect] belongs to a call that
  cleared the flags and has not joined the thread yet.  [make_shared]
  returns an unused address; a timeout fires for a request that is in the
  table, at its address, with its promise still empty. *)
Definition step (e : event) (c : t) : option t :=
match e with
| Connect_refused => Some c
| Connect_started =>
    if connected_ c || ws_thread_ c then None
    else Some (with_thread true (with_connection (connected_ c) true c))
| Connect_timed_out => if connected_ c then None else Some (disconnect_begin c)
| On_open => if ws_thread_ c then Some (with_connection true (running_ c) c) else None
| On_close | On_fail =>
    if ws_thread_ c then Some (with_connection false (running_ c) c) else None
| Send_tested =>
    Some (if connected_ c then with_admitted (S (admitted_ c)) c else c)
| Send method params now system_ns sent address =>
    match admitted_ c, heap_ c !! address with
    | S n, None =>
        Some (register_request method params now system_ns sent address (with_admitted n c))
    | _, _ => None
    end
| Message response => if ws_thread_ c then Some (process_message response c) else None
| Timeout request_id address =>
    match pending_requests_ c !! request_id, heap_ c !! address with
    | Some a, Some r =>
        if (a =? address)%nat && waiting r && negb (bool_decide (is_Some (promise r)))
        then Some (request_timeout request_id address c) else None
    | _, _ => None
    end
| Disconnect => Some (disconnect_begin c)
| Disconnect_joined =>
    if ws_thread_ c && negb (running_ c) then disconnect_end c else None
end.

(** The states a client can be in: those reached from a new client. *)
Inductive reachable (api_key api_secret : string) : t -> Prop :=
| reachable_create : reachable api_key api_secret (create api_key api_secret)
| reachable_step e c c' :
  reachable api_key api_secret c -> step e c = Some c' -> reachable api_key api_secret c'.

End WithExternals.

End TradingClient.

(** ** Market data: src/binance_exchange.cpp and src/market_maker.cpp *)

Module MarketData.

(** The fields of [MarketMakerBotV2] that the order-book handler touches;
    [notifications_] counts the calls of [price_change_cv_.notify_one ()]. *)
Record bot := {
  current_orderbook_ : OrderBook;
  last_orderbook_time_ : Z;
  current_mid_price_ : float;
  price_changed_ : bool;
  notifications_ : nat
}.

Definition bot_create : bot := {|
  current_orderbook_ := {| bids := []; asks := []; timestamp := 0 |};
  last_orderbook_time_ := 0;
  current_mid_price_ := 0%float;
  price_changed_ := false;
  notifications_ := O
|}.

(** [MarketMakerBotV2::update_mid_price]. *)
Definition update_mid_price (b : bot) : bot :=
  match bids (current_orderbook_ b), asks (current_orderbook_ b) with
  | bid :: _, ask :: _ =>
      let best_bid := price bid in
      let best_ask := price ask in
      let new_mid_price := ((best_bid + best_ask) / 2)%float in
      let old_mid_price := current_mid_price_ b in
      let changed := (0.00001 <? PrimFloat.abs (old_mid_price - new_mid_price))%float in
      {| current_orderbook_ := current_orderbook_ b;
         last_orderbook_time_ := last_orderbook_time_ b;
         current_mid_price_ := new_mid_price;
         price_changed_ := if changed then true else price_changed_ b;
         notifications_ := if changed then S (notifications_ b) else notifications_ b |}
  | _, _ => b
  end.

(** [MarketMakerBotV2::handle_orderbook_update]; [now] is its reading of the
    steady clock. *)
Definition handle_orderbook_update (orderbook : OrderBook) (now : Z) (b : bot) : bot :=
  update_mid_price {|
    current_orderbook_ := orderbook;
    last_orderbook_time_ := now;
    current_mid_price_ := current_mid_price_ b;
    price_changed_ := price_changed_ b;
    notifications_ := notifications_ b |}.

Section WithNumeric.
Context `{Numeric}.

(** The two parsing loops of [process_binance_orderbook].  [None]: an
  exception ([stod], [asString]) leaves the loop. *)
Fixpoint parse_levels (entries : list Json.Value) : option (list PriceLevel) :=
match entries with
| [] => Some []
| entry :: rest =>
    if Json.isArray entry && (2 <=? Json.size entry)%nat then
      match Json.asString (Json.at_index 0 entry), Json.asString (Json.at_index 1 entry) with
      | Some p, Some q =>
          match stod p, stod q with
          | Some price, Some quantity =>
              match parse_levels rest with
              | Some levels => Some ({| price := price; quantity := quantity |} :: levels)
              | None => None
              end
          | _, _ => None
          end
      | _, _ => None
      end
    else parse_levels rest
end.

(** The order book that [process_binance_orderbook] builds from a parsed
  document, when it builds one. *)
Definition orderbook_of (root : Json.Value) : option OrderBook :=
match Json.isMember "bids" root with
| Some true =>
    match Json.isMember "asks" root with
    | Some true =>
        match Json.get "bids" root, Json.get "asks" root with
        | Some bids, Some asks =>
            match parse_levels (Json.iterate bids) with
            | Some bid_levels =>
                match parse_levels (Json.iterate asks) with
                | Some ask_levels =>
                    Some {| bids := bid_levels; asks := ask_levels; timestamp := 0 |}
                | None => None
                end
            | None => None
            end
        | _, _ => None
        end
    | _ => None
    end
| _ => None
end.

(** [BinanceExchange::process_binance_orderbook] with the handler that
  [MarketMakerBotV2::setup_exchange] installs.  [root] is the outcome of
  [reader.parse]; the first component is the exchange's own
  [current_orderbook_]. *)
Definition process_binance_orderbook (root : option Json.Value) (now : Z)
  (st : OrderBook * bot) : OrderBook * bot :=
match root with
| None => st
| Some root =>
    match orderbook_of root with
    | Some orderbook => (orderbook, handle_orderbook_update orderbook now (snd st))
    | None => st
    end
end.

End WithNumeric.

End MarketData.

(** ** src/binance_exchange.cpp: symbols, precisions and the spacing of requests *)

Module BinanceExchange.

(** [BinanceExchange::convert_symbol_to_binance]. *)
Definition convert_symbol_to_binance (symbol : string) : string :=
  let result :=
    match Str.find "/" symbol with
    | Some pos => Str.erase1 pos symbol
    | None => symbol
    end in
  Str.map Str.toupper result.

(** [BinanceExchange::convert_symbol_from_binance]; the quote currencies
    are tried in the order of [supported_quote_currencies_]. *)
Fixpoint convert_symbol_from_binance (supported_quote_currencies_ : list string)
    (symbol : string) : string :=
  match supported_quote_currencies_ with
  | [] => symbol
  | quote :: rest =>
      if (String.length quote <? String.length symbol)%nat
         && String.eqb (Str.from (String.length symbol - String.length quote) symbol) quote
      then (Str.left (String.length symbol - String.length quote) symbol ++ "/" ++ quote)%string
      else convert_symbol_from_binance rest symbol
  end.

(** [get_exchange_info], lines 205-211 (and 217-223): the precision that
    goes into the symbol cache. *)
Definition precision_of_tick (tick_str : string) : Z :=
  match Str.find "." tick_str with
  | Some decimal_pos =>
      Str.to_int ((Z.of_nat (String.length tick_str) - Z.of_nat decimal_pos - 1) mod 2 ^ 64)
  | None => 0
  end.

(** [BinanceExchange::enforce_rate_limit]: the new [last_request_time_].
    [None]: [max_requests_per_second] is zero and the division is
    undefined. *)
Definition enforce_rate_limit (max_requests_per_second : Z) (last_request_time_ : Z)
    (c : Steady.Clock) : option (Z * Steady.Clock) :=
  let (now, c) := Steady.now c in
  let time_since_last := to_milliseconds (now - last_request_time_) in
  if max_requests_per_second =? 0 then None
  else
    let min_interval_ms := Z.quot 1000 max_requests_per_second in
    let c :=
      if time_since_last <? min_interval_ms
      then Steady.sleep_for (Steady.milliseconds (min_interval_ms - time_since_last)) c
      else c in
    Some (Steady.now c).

End BinanceExchange.

(** ** src/exchange_factory.cpp *)

Module ExchangeFactory.

Inductive ExchangeType :=
  BINANCE | COINBASE | KRAKEN | FTX | BYBIT | OKX | BITGET | KUCOIN | UNKNOWN.

(** [ExchangeFactory::normalize_exchange_name]. *)
Definition normalize_exchange_name (name : string) : string :=
  let normalized := Str.map Str.tolower name in
  if String.eqb normalized "binance.com" || String.eqb normalized "binance.us" then "binance"
  else if String.eqb normalized "coinbase" || String.eqb normalized "coinbasepro"
          || String.eqb normalized "coinbase pro" then "coinbase"
  else if String.eqb normalized "okex" then "okx"
  else normalized.

(** The [type_map] of [get_exchange_type]. *)
Definition type_map : list (string * ExchangeType) :=
  [("binance", BINANCE); ("coinbase", COINBASE); ("kraken", KRAKEN); ("ftx", FTX);
   ("bybit", BYBIT); ("okx", OKX); ("bitget", BITGET); ("kucoin", KUCOIN)]%string.

Fixpoint find (key : string) (m : list (string * ExchangeType)) : option ExchangeType :=
  match m with
  | [] => None
  | (k, v) :: rest => if String.eqb key k then Some v else find key rest
  end.

(** [ExchangeFactory::get_exchange_type]. *)
Definition get_exchange_type (name : string) : ExchangeType :=
  let normalized := normalize_exchange_name name in
  match find normalized type_map with
  | Some t => t
  | None => UNKNOWN
  end.

(** [ExchangeFactory::get_exchange_name]. *)
Definition get_exchange_name (type : ExchangeType) : string :=
  match type with
  | BINANCE => "binance"
  | COINBASE => "coinbase"
  | KRAKEN => "kraken"
  | FTX => "ftx"
  | BYBIT => "bybit"
  | OKX => "okx"
  | BITGET => "bitget"
  | KUCOIN => "kucoin"
  | UNKNOWN => "unknown"
  end.

(** The keys of [exchange_registry_]; the creators are left out. *)
Definition registry := gset string.

(** [ExchangeFactory::register_exchange]. *)
Definition register_exchange (name : string) (exchange_registry_ : registry) : registry :=
  {[ normalize_exchange_name name ]} ∪ exchange_registry_.

(** The registry once the static [ExchangeInitializer] has run. *)
Definition initial_registry : registry :=
  register_exchange "kucoin"
    (register_exchange "bitget"
       (register_exchange "okx"
          (register_exchange "bybit"
             (register_exchange "kraken"
                (register_exchange "coinbase"
                   (register_exchange "binance" ∅)))))).

(** [ExchangeFactory::is_supported]. *)
Definition is_supported (exchange_registry_ : registry) (exchange_name : string) : bool :=
  bool_decide (normalize_exchange_name exchange_name ∈ exchange_registry_).

End ExchangeFactory.

(** ** src/market_maker.cpp: the trading loop *)

Module Bot.
Import MarketData.
Section WithLibm.
Context `{Libm}.

Definition set_price_changed (flag : bool) (b : bot) : bot := {|
  current_orderbook_ := current_orderbook_ b;
  last_orderbook_time_ := last_orderbook_time_ b;
  current_mid_price_ := current_mid_price_ b;
  price_changed_ := flag;
  notifications_ := notifications_ b |}.

(** [MarketMakerBotV2::check_and_update_orders]. *)
Definition check_and_update_orders (b : bot) : OrderManager.M unit :=
let mid_price := current_mid_price_ b in
if (mid_price <=? 0)%float then OrderManager.ret tt
else
  OrderManager.bind
    (OrderManager.update_orders_if_needed mid_price (last_orderbook_time_ b))
    (fun _ => OrderManager.ret tt).

(** [MarketMakerBotV2::print_status]: it prints the metrics and the active
  orders; [get_uptime_percentage] reads the clock for it. *)
Definition print_status : OrderManager.M unit :=
OrderManager.bind OrderManager.now (fun _ => OrderManager.ret tt).

(** One turn of [main_loop] once the wait on the condition variable is over
  and [running_] still holds, lines 154-167, with the book handler kept
  out for the length of the turn.  The second component is
  [last_status_print]. *)
Definition main_loop_turn (b : bot) (last_status_print : Z) : OrderManager.M (bot * Z) :=
let mid_price := current_mid_price_ b in
OrderManager.bind
  (if (0 <? mid_price)%float then
     if price_changed_ b then
       let b := set_price_changed false b in
       OrderManager.bind (check_and_update_orders b) (fun _ => OrderManager.ret b)
     else OrderManager.ret b
   else OrderManager.ret b)
  (fun b =>
     OrderManager.bind OrderManager.now (fun now =>
       if 30 <=? Z.quot (now - last_status_print) 1000000000 then
         OrderManager.bind print_status (fun _ => OrderManager.ret (b, now))
       else OrderManager.ret (b, last_status_print))).

End WithLibm.
End Bot.

(** ** Concrete surroundings, used to run the code on examples *)

Module Sample.

(** A [<cmath>] good enough to run examples: powers by repeated
    multiplication, rounding half away from zero through the [2^52] trick.
    No theorem below depends on it except through a named example. *)
Fixpoint pow_nat (b : float) (n : nat) : float :=
  match n with O => 1%float | S k => (b * pow_nat b k)%float end.

Definition round_half_away (x : float) : float :=
  let a := PrimFloat.abs x in
  if (a <? 4503599627370496)%float then
    let r := ((a + 4503599627370496) - 4503599627370496)%float in
    let r' := if (a - r =? 0.5)%float then (r + 1)%float else r in
    if (x <? 0)%float then (- r')%float else r'
  else x.

#[export] Instance libm : Libm := {|
  pow b n := if n <? 0 then (1 / pow_nat b (Z.to_nat (- n)))%float else pow_nat b (Z.to_nat n);
  round := round_half_away
|}.

Definition config : Config.t := {|
  Config.symbol := "BTCUSDT";
  Config.spread_percentage := 0.02%float;
  Config.order_size := 0.001%float;
  Config.price_precision := 2;
  Config.quantity_precision := 6;
  Config.order_update_cooldown := 100
|}.

(** The venue accepts an order by echoing it under the id ["1000"]. *)
Definition accept (c : ExchangeCall) : option Order :=
  match c with
  | PlaceLimitOrder sym sd p q cid =>
      Some {| order_id := "1000"; client_order_id := cid; symbol := sym; side := sd;
              order_price := p; order_quantity := q; executed_quantity := 0%float;
              status := NEW; created_time := 0; updated_time := 0 |}
  | CancelOrder _ _ => None
  end.

(** A venue that accepts everything, one that rejects every bid, one that
    rejects everything. *)
Definition venue_accepting (_ : nat) (c : ExchangeCall) : option Order := accept c.

Definition venue_rejecting_bids (_ : nat) (c : ExchangeCall) : option Order :=
  match c with
  | PlaceLimitOrder _ BUY _ _ _ => None
  | _ => accept c
  end.

Definition venue_rejecting (_ : nat) (_ : ExchangeCall) : option Order := None.

(** A steady clock that starts one second after its epoch and advances one
    millisecond per reading; a system clock and a random engine that repeat
    themselves. *)
Definition world (place : nat -> ExchangeCall -> option Order) : World := {|
  steady_clock := fun k => 1000000000 + 1000000 * Z.of_nat k;
  steady_reads := 0;
  system_clock := fun _ => 1700000000000000000;
  system_reads := 0;
  dis := fun _ => 123456;
  dis_draws := 0;
  venue_place := place;
  venue_cancel := fun _ _ => Some true;
  calls := []
|}.


(** The same surroundings after the system clock was set back between two
    reprices (the readings repeat with period two), with a random engine
    that repeats its two draws. *)
Definition world_clock_set_back (place : nat -> ExchangeCall -> option Order) : World := {|
  steady_clock := fun k => 1000000000 * (1 + Z.of_nat k);
  steady_reads := 0;
  system_clock := fun k => 1700000000000000000 + 1000 * (Z.of_nat k mod 2);
  system_reads := 0;
  dis := fun k => if Nat.even k then 123456 else 654321;
  dis_draws := 0;
  venue_place := place;
  venue_cancel := fun _ _ => Some true;
  calls := []
|}.

(** The client order ids of the placements made so far, oldest first. *)
Fixpoint placed_ids (cs : list ExchangeCall) : list string :=
  match cs with
  | [] => []
  | PlaceLimitOrder _ _ _ _ id :: rest => id :: placed_ids rest
  | CancelOrder _ _ :: rest => placed_ids rest
  end.

(** A [stod] for plain decimal numerals such as ["50100.00"] (digits, then
    optionally a point and digits), and a stand-in for the rendering of real
    numbers, which the sample documents do not hold. *)
Fixpoint digits_value (acc : Z) (cs : list ascii) : option Z :=
  match cs with
  | [] => Some acc
  | c :: rest =>
      let n := Z.of_N (N_of_ascii c) in
      if (48 <=? n) && (n <=? 57) then digits_value (10 * acc + (n - 48)) rest else None
  end.

Fixpoint split_point (cs : list ascii) : list ascii * option (list ascii) :=
  match cs with
  | [] => ([], None)
  | c :: rest =>
      if Ascii.eqb c "."%char then ([], Some rest)
      else let (a, b) := split_point rest in (c :: a, b)
  end.

Definition stod_decimal (s : string) : option float :=
  let (int_part, frac_part) := split_point (list_ascii_of_string s) in
  let frac := match frac_part with Some f => f | None => [] end in
  match int_part ++ frac with
  | [] => None
  | ds =>
      match digits_value 0 ds with
      | Some n => Some (Double.of_long n / pow_nat 10 (List.length frac))%float
      | None => None
      end
  end.

#[export] Instance numeric : Numeric := {|
  stod := stod_decimal;
  valueToString := fun _ => "0"%string
|}.

(** A stand-in for OpenSSL: the "digest" is four fixed bytes.  It only
    serves to run the signing code on an example. *)
#[export] Instance crypto : Crypto := fun _ _ => [Byte.x00; Byte.x1f; Byte.xa0; Byte.xff].

(** A [std::stoi] for plain decimal numerals. *)
#[export] Instance strtol : Strtol := fun s =>
  match list_ascii_of_string s with
  | [] => None
  | cs => digits_value 0 cs
  end.

(** Depth documents: one level a side. *)
Definition depth (bid ask : string) : Json.Value :=
  Json.objectValue
    [("asks"%string, Json.arrayValue [Json.arrayValue [Json.stringValue ask; Json.stringValue "1"]]);
     ("bids"%string, Json.arrayValue [Json.arrayValue [Json.stringValue bid; Json.stringValue "1"]])].

Definition depth_without_bids (ask : string) : Json.Value :=
  Json.objectValue
    [("asks"%string, Json.arrayValue [Json.arrayValue [Json.stringValue ask; Json.stringValue "1"]]);
     ("bids"%string, Json.arrayValue [])].

End Sample.

(** * The vocabulary of the properties *)

Definition chars (s : string) : list ascii := list_ascii_of_string s.

(** The value of a list of digits, least significant first. *)
Definition value_le (base : Z) (ds : list Z) : Z :=
  fold_right (fun d acc => d + base * acc) 0 ds.

(** A character written for a decimal digit. *)
Definition decimal_digit (c : ascii) : Prop := exists d, 0 <= d < 10 /\ c = Fmt.digit_char d.

Definition side_tag (side : OrderSide) : string :=
  match side with BUY => "BID" | SELL => "ASK" end.

(** The shape [MM_<SIDE>_<epoch>_<rand6>]. *)
Definition id_shape (side : OrderSide) (epoch_count : Z) (id : string) : Prop :=
  exists rand6 : string,
    id = ("MM_" ++ side_tag side ++ "_" ++ Fmt.to_string epoch_count ++ "_" ++ rand6)%string
    /\ String.length rand6 = 6%nat
    /\ Forall decimal_digit (chars rand6).

(** A new manager on a venue that accepts every order. *)
Definition w0 : World := Sample.world Sample.venue_accepting.
Definition m0 : OrderManager.t := fst (OrderManager.create Sample.config w0).

(** The session used against uniqueness: a new manager quotes around 50050,
    then around 50100, while the system clock is set back in between. *)
Definition session_clock_set_back : OrderManager.t * World :=
  let s0 := OrderManager.create Sample.config (Sample.world_clock_set_back Sample.venue_accepting) in
  let s1 := snd (OrderManager.place_market_maker_orders (H := Sample.libm) 50050%float 0 s0) in
  snd (OrderManager.place_market_maker_orders (H := Sample.libm) 50100%float 0 s1).

(** What each frame carries before masking, and the key it is masked with. *)
Definition plaintext (s : WebSocketClient.send) : list Z :=
  match s with
  | WebSocketClient.Subscribe symbol depth =>
      WebSocketClient.bytes_of_string (WebSocketClient.subscribe_message symbol depth)
  | WebSocketClient.Ping => []
  | WebSocketClient.Pong payload => payload
  end.

Definition fixed_key (s : WebSocketClient.send) : list Z :=
  match s with
  | WebSocketClient.Ping => [0; 0; 0; 0]
  | _ => [0x12; 0x34; 0x56; 0x78]
  end.

(** The masking key of the frame a send writes, if it writes one. *)
Definition key_written (s : WebSocketClient.send) : option (list Z) :=
  match WebSocketClient.bytes_written s with
  | WebSocketClient.Bytes bs =>
      match WebSocketClient.read_frame bs with
      | Some f => Some (WebSocketClient.masking_key f)
      | None => None
      end
  | _ => None
  end.

(** Counting recorded requests: those newer than one second before [now],
    and those not older than sixty seconds before [now]. *)
Definition in_last_second (now : Z) (r : RateLimiter.t) : Z :=
  Z.of_nat (List.length (List.filter (fun t => now - RateLimiter.seconds 1 <? t)
                                     (RateLimiter.request_times_ r))).

Definition in_last_minute (now : Z) (r : RateLimiter.t) : Z :=
  Z.of_nat (List.length (List.filter (fun t => now - RateLimiter.seconds 60 <=? t)
                                     (RateLimiter.request_times_ r))).

(** The admit test as C7 words it: both limits are taken over the trailing
    second. *)
Definition admits_within_one_second (now : Z) (r : RateLimiter.t) : bool :=
  (in_last_second now r <? RateLimiter.max_requests_per_second_ r)
  && (in_last_second now r <? RateLimiter.burst_size_ r).

(** The order limiter (10 per second, burst 20) after twenty requests, one
    every 100 ms from 0.1 s to 2.0 s. *)
Definition limiter_after_twenty : RateLimiter.t :=
  RateLimiter.record_all (map (fun k => Z.of_nat k * 100000000) (seq 1 20))
                         (RateLimiter.create 10 20).

(** The relative price change that [place_market_maker_orders] compares
    with its threshold. *)
Definition price_change_ratio (mid_price : float) (m : OrderManager.t) : float :=
  (PrimFloat.abs (mid_price - OrderManager.last_mid_price_ m)
   / OrderManager.last_mid_price_ m)%float.

Definition both_legs_active (m : OrderManager.t) : Prop :=
  is_Some (OrderManager.active_bid_order_ m) /\ is_Some (OrderManager.active_ask_order_ m).

(** The time since the last order update as [should_update_orders] would
    measure it at its next reading of the clock, in milliseconds. *)
Definition since_last_update (m : OrderManager.t) (w : World) : Z :=
  to_milliseconds (steady_clock w (steady_reads w) - OrderManager.last_order_update_ m).

(** A call that left the manager as it was and reached the venue with
    nothing. *)
Definition untouched (m : OrderManager.t) (w : World) (r : bool * (OrderManager.t * World)) : Prop :=
  fst (snd r) = m /\ calls (snd (snd r)) = calls w.

(** A steady clock never goes back. *)
Definition monotone (clock : nat -> Z) : Prop :=
  forall i j, (i <= j)%nat -> clock i <= clock j.

(** The two entry points of a reprice, and when each finds that no update is
    needed. *)
Inductive entry := Place_market_maker_orders | Update_orders_if_needed.

Definition run `{Libm} (e : entry) (mid_price : float) (orderbook_time : Z)
    : OrderManager.M bool :=
  match e with
  | Place_market_maker_orders => OrderManager.place_market_maker_orders mid_price orderbook_time
  | Update_orders_if_needed => OrderManager.update_orders_if_needed mid_price orderbook_time
  end.

Definition below_hysteresis (mid_price : float) (m : OrderManager.t) : Prop :=
  (mid_price <=? 0)%float = false
  /\ both_legs_active m
  /\ (price_change_ratio mid_price m <? OrderManager.PRICE_CHANGE_THRESHOLD)%float = true.

Definition mid_unchanged (mid_price : float) (m : OrderManager.t) : Prop :=
  (PrimFloat.abs (mid_price - OrderManager.last_mid_price_ m) <? 0.00001)%float = true.

Definition within_cooldown (m : OrderManager.t) (w : World) : Prop :=
  since_last_update m w < Config.order_update_cooldown (OrderManager.config_ m).

Definition no_update_needed (e : entry) (mid_price : float) (m : OrderManager.t) (w : World) : Prop :=
  match e with
  | Place_market_maker_orders => below_hysteresis mid_price m
  | Update_orders_if_needed =>
      mid_unchanged mid_price m \/ within_cooldown m w \/ below_hysteresis mid_price m
  end.

(** The accounting of C1.  The manager issues an order by calling
    [place_limit_order]: the issuances attempted are the placements in the
    log of calls.  It never consults the validator, so nothing is rejected
    before issue. *)
Definition total_attempted (w : World) : Z := Z.of_nat (placements w).
Definition rejected_by_validation (m : OrderManager.t) : Z := 0.

Definition accounted (m : OrderManager.t) (w : World) : Prop :=
  Types.successful_orders (OrderManager.metrics_ m)
  + Types.failed_orders (OrderManager.metrics_ m)
  + rejected_by_validation m
  = total_attempted w.

(** Whatever a reprice entry point does, it either leaves the manager and the
    log of calls alone, or runs one full reprice. *)
Definition reprice_done (M : float) (m : OrderManager.t) (w : World)
    (r : bool * (OrderManager.t * World)) : Prop :=
  OrderManager.last_mid_price_ (fst (snd r)) = M
  /\ (exists k, (steady_reads w <= k)%nat
               /\ OrderManager.last_order_update_ (fst (snd r)) = steady_clock w k)
  /\ OrderManager.config_ (fst (snd r)) = OrderManager.config_ m
  /\ steady_clock (snd (snd r)) = steady_clock w
  /\ placements (snd (snd r)) = (placements w + 2)%nat.

Definition nothing_done (m : OrderManager.t) (w : World)
    (r : bool * (OrderManager.t * World)) : Prop :=
  fst (snd r) = m
  /\ calls (snd (snd r)) = calls w
  /\ steady_clock (snd (snd r)) = steady_clock w
  /\ (steady_reads w <= steady_reads (snd (snd r)))%nat.

(** Sessions on the sample venues: a new manager, then a first price update
    at 50050. *)
Definition started (place : nat -> ExchangeCall -> option Order) : OrderManager.t * World :=
  OrderManager.create Sample.config (Sample.world place).

Definition quoted_50050 (place : nat -> ExchangeCall -> option Order) : OrderManager.t * World :=
  snd (OrderManager.update_orders_if_needed (H := Sample.libm) 50050%float 0 (started place)).



(** A book whose best bid is not below its best ask. *)
Definition crossed (b : OrderBook) : bool :=
  match bids b, asks b with
  | bid :: _, ask :: _ => (price ask <=? price bid)%float
  | _, _ => false
  end.

(** The bot published nothing: same mid, same flag, no notification. *)
Definition nothing_published (b b' : MarketData.bot) : Prop :=
  MarketData.current_mid_price_ b' = MarketData.current_mid_price_ b
  /\ MarketData.price_changed_ b' = MarketData.price_changed_ b
  /\ MarketData.notifications_ b' = MarketData.notifications_ b.

(** The bot before any book, with the exchange's own empty book. *)
Definition market_start : OrderBook * MarketData.bot :=
  ({| bids := []; asks := []; timestamp := 0 |}, MarketData.bot_create).

(** The pending-request table in good order: every entry points to an object
    whose promise is still empty if its caller still waits, and no two ids
    share an object. *)
Definition entry_ok (heap : gmap nat TradingClient.PendingRequest) (a : nat) : Prop :=
  exists r, heap !! a = Some r
    /\ (TradingClient.waiting r = true -> TradingClient.promise r = None).

Definition table_ok (heap : gmap nat TradingClient.PendingRequest) (table : gmap string nat) : Prop :=
  (forall id a, table !! id = Some a -> entry_ok heap a)
  /\ (forall id1 id2 a, table !! id1 = Some a -> table !! id2 = Some a -> id1 = id2).

(** What every state of the client keeps. *)
Definition client_invariant (c : TradingClient.t) : Prop :=
  table_ok (TradingClient.heap_ c) (TradingClient.pending_requests_ c).

(** What the sweep of [disconnect] does to one request object. *)
Definition fulfil (r : TradingClient.PendingRequest) : TradingClient.PendingRequest :=
  if TradingClient.waiting r
  then TradingClient.set_promise TradingClient.connection_closed r else r.

(** The state after an event, or the same state if the event cannot happen. *)
Definition after `{Numeric} `{Crypto} (e : TradingClient.event) (c : TradingClient.t)
    : TradingClient.t :=
  match TradingClient.step e c with Some c' => c' | None => c end.

(** A session: the events that happen to a client, one after the other;
    [None] if one of them cannot happen in the state it finds. *)
Fixpoint session `{Numeric} `{Crypto} (events : list TradingClient.event) (c : TradingClient.t)
    : option TradingClient.t :=
  match events with
  | [] => Some c
  | e :: rest =>
      match TradingClient.step e c with
      | Some c' => session rest c'
      | None => None
      end
  end.

(** The parameters of an [order.place]. *)
Definition order_members : list (string * Json.Value) :=
  [("price"%string, Json.stringValue "49049.00");
   ("quantity"%string, Json.stringValue "0.00100");
   ("side"%string, Json.stringValue "BUY");
   ("symbol"%string, Json.stringValue "BTCUSDT");
   ("timeInForce"%string, Json.stringValue "GTC");
   ("type"%string, Json.stringValue "LIMIT")].

Definition order_params : Json.Value := Json.objectValue order_members.

(** A client that connected and sent one [order.place], still unanswered. *)
Definition events_of_pending_order : list TradingClient.event :=
  [TradingClient.Connect_started; TradingClient.On_open; TradingClient.Send_tested;
   TradingClient.Send "order.place" order_params 5000000000 1700000000123456789 true 0].

Definition client_with_pending_order : TradingClient.t :=
  fold_left (fun c e => after (H := Sample.numeric) (H0 := Sample.crypto) e c)
    events_of_pending_order (TradingClient.create "key" "secret").









(** ** The vocabulary of the further properties *)

(** The value of the next reading of the clock. *)
Definition next_reading (c : Steady.Clock) : Z :=
  Steady.readings c (Steady.reads c) + Steady.slept c.

(** A clock read for the first time three seconds after its epoch, which
    advances a millisecond a reading when the thread does not sleep. *)
Definition clock_at_three_seconds : Steady.Clock := {|
  Steady.readings := fun k => 3000000000 + 1000000 * Z.of_nat k;
  Steady.reads := 0;
  Steady.slept := 0
|}.

(** The cancels that [cancel_all_active_orders] has to send for the legs
    that are active. *)
Definition cancels_of (m : OrderManager.t) : list ExchangeCall :=
  match OrderManager.active_bid_order_ m with
  | Some o => [CancelOrder (Config.symbol (OrderManager.config_ m)) (order_id o)]
  | None => []
  end
  ++ match OrderManager.active_ask_order_ m with
     | Some o => [CancelOrder (Config.symbol (OrderManager.config_ m)) (order_id o)]
     | None => []
     end.

Definition no_leg_active (m : OrderManager.t) : Prop :=
  OrderManager.active_bid_order_ m = None /\ OrderManager.active_ask_order_ m = None.

(** The price that [format_price] returns. *)
Definition formatted `{Libm} (cfg : Config.t) (price : float) : float :=
  (round (price * pow 10%float (Config.price_precision cfg))
   / pow 10%float (Config.price_precision cfg))%float.

(** A series of price updates, each through one of the two entry points. *)
Definition run_all `{Libm} (updates : list (entry * float * Z)) (s : OrderManager.t * World)
    : OrderManager.t * World :=
  fold_left (fun s u => snd (run (fst (fst u)) (snd (fst u)) (snd u) s)) updates s.

(** A session on the accepting venue whose first mid price is not a
    number. *)
Definition quoted_nan : OrderManager.t * World :=
  snd (OrderManager.place_market_maker_orders (H := Sample.libm) PrimFloat.nan 0
         (started Sample.venue_accepting)).

(** An unmasked frame as a server sends it, for a payload of less than
    [2^16] bytes: the first byte holds FIN and the opcode, then comes the
    length on seven bits, or 126 and the length on two bytes. *)
Definition server_frame (fin : bool) (opcode : Z) (payload : list Z) : list Z :=
  let len := Z.of_nat (List.length payload) in
  Z.lor (if fin then 0x80 else 0) opcode
  :: (if len <=? 125 then [len] else [126; len / 256; len mod 256])
  ++ payload.

(** One step of the frame loop on the outcome of the steps that follow. *)
Definition dispatch (handler fin : bool) (opcode : Z) (payload accumulated_data : list Z)
    (continue : list Z -> list WebSocketClient.action * list Z)
    : list WebSocketClient.action * list Z :=
  if (opcode =? 0x01) || (opcode =? 0x00) then
    let accumulated_data := (if opcode =? 0x01 then [] else accumulated_data) ++ payload in
    if fin then
      ((if handler && negb (Nat.eqb (List.length accumulated_data) 0)
        then [WebSocketClient.Deliver accumulated_data] else []) ++ fst (continue []),
       snd (continue []))
    else continue accumulated_data
  else if opcode =? 0x08 then ([WebSocketClient.Disconnected], accumulated_data)
  else if opcode =? 0x09 then
    (match WebSocketClient.pong payload with
     | WebSocketClient.Bytes b => [WebSocketClient.Write b]
     | _ => []
     end ++ fst (continue accumulated_data), snd (continue accumulated_data))
  else continue accumulated_data.

(** The string has no occurrence of the character. *)
Definition lacks (c : ascii) (s : string) : Prop := ~ In c (list_ascii_of_string s).

(** What follows the authority of a URI: nothing, or a path that starts
    with a slash. *)
Definition path_or_nothing (tail : string) : Prop :=
  tail = EmptyString \/ exists q, tail = String "/" q.

Definition path_of (tail : string) : string :=
  match tail with EmptyString => "/" | _ => tail end.

(** The handles that [k] calls of [get_curl_handle] return, and the index
    they leave. *)
Fixpoint handles {handle : Type} (k : nat) (curl_pool : list handle) (pool_index : nat)
    : option (list handle * nat) :=
  match k with
  | O => Some ([], pool_index)
  | S k =>
      match RestClient.get_curl_handle curl_pool pool_index with
      | Some (curl, next) =>
          match handles k curl_pool next with
          | Some (more, last) => Some (curl :: more, last)
          | None => None
          end
      | None => None
      end
  end.

(** [k] zeros. *)
Fixpoint zeros (k : nat) : string :=
  match k with O => EmptyString | S k => String "0" (zeros k) end.

(** The ids that [k] calls of [generate_request_id] return, in order. *)
Fixpoint request_ids (k : nat) (c : TradingClient.t) : list string :=
  match k with
  | O => []
  | S k => fst (TradingClient.generate_request_id c)
           :: request_ids k (snd (TradingClient.generate_request_id c))
  end.

(** The id that a response carries, as [process_message] reads it. *)
Definition id_of `{Numeric} (response : Json.Value) : option string :=
  match Json.get "id" response with
  | Some v => Json.asString v
  | None => None
  end.

(** The responses whose outcome the client has counted. *)
Definition outcomes (m : TradingClient.TradingMetrics) : Z :=
  TradingClient.successful_orders m + TradingClient.failed_orders m
  + TradingClient.cancelled_orders m.

(** Every id in the table was generated earlier: it is [req_k] for a [k]
    below the counter. *)
Definition used_ids (c : TradingClient.t) : Prop :=
  forall id a, TradingClient.pending_requests_ c !! id = Some a ->
    exists k, 1 <= k < TradingClient.request_id_counter_ c
              /\ id = ("req_" ++ Fmt.to_string k)%string.

(** What holds of a client after at most [n] events. *)
Definition after_at_most (n : Z) (c : TradingClient.t) : Prop :=
  1 <= TradingClient.request_id_counter_ c <= 1 + n
  /\ used_ids c
  /\ 0 <= TradingClient.successful_orders (TradingClient.metrics_ c)
  /\ 0 <= TradingClient.failed_orders (TradingClient.metrics_ c)
  /\ 0 <= TradingClient.cancelled_orders (TradingClient.metrics_ c)
  /\ outcomes (TradingClient.metrics_ c) <= TradingClient.total_requests (TradingClient.metrics_ c)
  /\ TradingClient.total_requests (TradingClient.metrics_ c) <= n.

Definition metrics_after (o : TradingClient.outcome) : TradingClient.TradingMetrics :=
  match o with TradingClient.Returned m | TradingClient.Thrown m => m end.

(** A response to the request that [client_with_pending_order] waits for. *)
Definition response_to_req_1 : Json.Value :=
  Json.objectValue [("id"%string, Json.stringValue "req_1"); ("status"%string, Json.intValue 200)].

(** A book with at least one level a side. *)
Definition two_sided (book : OrderBook) : Prop := bids book <> [] /\ asks book <> [].

(** Books that arrive one after the other, each with a mid within [1e-5] of
    the mid before it, starting from [mid]. *)
Fixpoint creeping (mid : float) (books : list (OrderBook * Z)) : Prop :=
  match books with
  | [] => True
  | (book, _) :: rest =>
      two_sided book
      /\ (0.00001 <? PrimFloat.abs (mid - get_mid_price book))%float = false
      /\ creeping (get_mid_price book) rest
  end.

(** The bot after the handler has seen the books, each at its time. *)
Definition feed (books : list (OrderBook * Z)) (b : MarketData.bot) : MarketData.bot :=
  fold_left (fun b u => MarketData.handle_orderbook_update (fst u) (snd u) b) books b.

(** The mid of the last book, or [mid] if there is none. *)
Definition last_mid (mid : float) (books : list (OrderBook * Z)) : float :=
  fold_left (fun _ u => get_mid_price (fst u)) books mid.

(** A first book around 50050, the bot once the main loop has taken note of
    it, and a second book a millionth above the first. *)
Definition book_50050 : OrderBook := {|
  bids := [{| price := 50049.5%float; quantity := 1%float |}];
  asks := [{| price := 50050.5%float; quantity := 1%float |}];
  timestamp := 0
|}.

Definition bot_at_50050 : MarketData.bot :=
  Bot.set_price_changed false
    (MarketData.handle_orderbook_update book_50050 0 MarketData.bot_create).

Definition book_a_millionth_above : OrderBook := {|
  bids := [{| price := 50049.500001%float; quantity := 1%float |}];
  asks := [{| price := 50050.500001%float; quantity := 1%float |}];
  timestamp := 0
|}.

(** The members of a depth document whose only bid has no number for a
    price. *)
Definition depth_with_a_bad_bid : list (string * Json.Value) :=
  [("asks"%string,
    Json.arrayValue [Json.arrayValue [Json.stringValue "50050.5"; Json.stringValue "1"]]);
   ("bids"%string,
    Json.arrayValue [Json.arrayValue [Json.stringValue "n/a"; Json.stringValue "1"]])].

(** * Properties *)

(** ** Strings as character lists *)

Lemma chars_app (a b : string) : chars (a ++ b)%string = chars a ++ chars b.
Proof. induction a as [|c a IH]; simpl; [reflexivity | now rewrite <- IH]. Qed.

Lemma chars_of_list (l : list ascii) : chars (string_of_list_ascii l) = l.
Proof. apply list_ascii_of_string_of_list_ascii. Qed.

Lemma chars_inj (a b : string) : chars a = chars b -> a = b.
Proof.
  intros E. rewrite <- (string_of_list_ascii_of_string a), <- (string_of_list_ascii_of_string b).
  unfold chars in E. now rewrite E.
Qed.

Lemma chars_length (s : string) : List.length (chars s) = String.length s.
Proof. induction s; simpl; congruence. Qed.

(** ** Integer formatting *)

Section FmtFacts.

Lemma digits_le_value base fuel n :
  base <> 0 -> value_le base (Fmt.digits_le base fuel n) = n.
Proof.
  intros Hb. revert n. induction fuel as [|f IH]; intros n; simpl.
  - lia.
  - destruct (n <? base); simpl; [lia|].
    rewrite IH. pose proof (Z.div_mod n base Hb). lia.
Qed.

Lemma digits_le_range base fuel n :
  2 <= base -> 0 <= n < 2 ^ Z.of_nat fuel ->
  Forall (fun d => 0 <= d < base) (Fmt.digits_le base fuel n).
Proof.
  intros Hb. revert n. induction fuel as [|f IH]; intros n Hn.
  - simpl in *. constructor; [lia | constructor].
  - cbn [Fmt.digits_le]. destruct (Z.ltb_spec n base) as [Hlt|Hge].
    + constructor; [lia | constructor].
    + constructor.
      * apply Z.mod_pos_bound. lia.
      * apply IH. rewrite Nat2Z.inj_succ, Z.pow_succ_r in Hn by lia.
        split; [apply Z.div_pos; lia|].
        apply Z.div_lt_upper_bound; [lia|]. nia.
Qed.

Lemma digit_fuel_enough n : 0 <= n -> n < 2 ^ Z.of_nat (Fmt.digit_fuel n).
Proof.
  intros Hn. unfold Fmt.digit_fuel.
  rewrite Z2Nat.id by apply Z.log2_up_nonneg.
  destruct (Z.eq_dec n 0) as [->|Hne]; [reflexivity|].
  pose proof (Z.log2_up_spec (n + 1)). lia.
Qed.

Lemma digits_le_nonempty base fuel n : Fmt.digits_le base fuel n <> [].
Proof. destruct fuel; simpl; [discriminate|]. destruct (n <? base); discriminate. Qed.

(** The number of digits is the one of the decimal expansion. *)
Lemma digits_le_length (k : nat) : forall fuel n,
  0 <= n < 10 ^ Z.of_nat (S k) -> (k = O \/ 10 ^ Z.of_nat k <= n) ->
  n < 2 ^ Z.of_nat fuel ->
  List.length (Fmt.digits_le 10 fuel n) = S k.
Proof.
  induction k as [|k IH]; intros fuel n Hn Hlow Hfuel.
  - change (10 ^ Z.of_nat 1) with 10 in Hn.
    destruct fuel; simpl; [reflexivity|].
    destruct (Z.ltb_spec n 10); [reflexivity | lia].
  - destruct Hlow as [Hk|Hlow]; [discriminate|].
    assert (H10 : 10 <= n).
    { rewrite Nat2Z.inj_succ, Z.pow_succ_r in Hlow by lia.
      pose proof (Z.pow_pos_nonneg 10 (Z.of_nat k)). lia. }
    destruct fuel as [|fuel]; [simpl in Hfuel; lia|].
    cbn [Fmt.digits_le]. destruct (Z.ltb_spec n 10); [lia|].
    cbn [List.length]. f_equal. apply IH.
    + rewrite (Nat2Z.inj_succ (S k)), Z.pow_succ_r in Hn by lia.
      split; [apply Z.div_pos; lia|].
      apply Z.div_lt_upper_bound; lia.
    + right. rewrite Nat2Z.inj_succ, Z.pow_succ_r in Hlow by lia.
      apply Z.div_le_lower_bound; lia.
    + rewrite Nat2Z.inj_succ, Z.pow_succ_r in Hfuel by lia.
      apply Z.div_lt_upper_bound; [lia|]. nia.
Qed.

Lemma digit_char_inj d e :
  0 <= d < 16 -> 0 <= e < 16 -> Fmt.digit_char d = Fmt.digit_char e -> d = e.
Proof.
  intros Hd He E.
  assert (N : forall x, 0 <= x < 16 ->
            Z.of_N (N_of_ascii (Fmt.digit_char x)) = if x <? 10 then 48 + x else 87 + x).
  { intros x Hx. unfold Fmt.digit_char.
    destruct (Z.ltb_spec x 10); rewrite N_ascii_embedding; lia. }
  apply (f_equal (fun c => Z.of_N (N_of_ascii c))) in E.
  rewrite (N d Hd), (N e He) in E.
  destruct (Z.ltb_spec d 10), (Z.ltb_spec e 10); lia.
Qed.

Lemma digit_chars_inj (l l' : list Z) :
  Forall (fun d => 0 <= d < 16) l -> Forall (fun d => 0 <= d < 16) l' ->
  map Fmt.digit_char l = map Fmt.digit_char l' -> l = l'.
Proof.
  intros Hl. revert l'. induction Hl as [|d l Hd Hl IH]; intros l' Hl' E.
  - destruct l'; [reflexivity | discriminate].
  - destruct l' as [|e l']; [discriminate|]. simpl in E.
    injection E as E1 E2.
    apply Forall_cons_iff in Hl' as [He Hl'].
    f_equal; [now apply digit_char_inj | now apply IH].
Qed.

Lemma render_chars base n :
  chars (Fmt.render base n)
  = map Fmt.digit_char (rev (Fmt.digits_le base (Fmt.digit_fuel n) n)).
Proof. apply chars_of_list. Qed.

Lemma render_digits_range base n :
  2 <= base <= 16 -> 0 <= n ->
  Forall (fun d => 0 <= d < 16) (rev (Fmt.digits_le base (Fmt.digit_fuel n) n)).
Proof.
  intros Hb Hn. apply Forall_rev.
  eapply List.Forall_impl; [| apply (digits_le_range base); [lia|]].
  - simpl. intros; lia.
  - split; [lia | now apply digit_fuel_enough].
Qed.

Lemma render_inj base n m :
  2 <= base <= 16 -> 0 <= n -> 0 <= m -> Fmt.render base n = Fmt.render base m -> n = m.
Proof.
  intros Hb Hn Hm E. apply (f_equal chars) in E. rewrite !render_chars in E.
  apply digit_chars_inj in E; try now apply render_digits_range.
  apply (f_equal (@rev Z)) in E. rewrite !rev_involutive in E.
  apply (f_equal (value_le base)) in E.
  rewrite !digits_le_value in E by lia. exact E.
Qed.

Lemma render10_digits n : 0 <= n -> Forall decimal_digit (chars (Fmt.render 10 n)).
Proof.
  intros Hn. rewrite render_chars. apply Forall_map, Forall_rev.
  eapply List.Forall_impl; [| apply (digits_le_range 10); [lia|]].
  - intros d Hd. exists d. split; [exact Hd | reflexivity].
  - split; [lia | now apply digit_fuel_enough].
Qed.

Lemma decimal_digit_code c : decimal_digit c -> 48 <= Z.of_N (N_of_ascii c) <= 57.
Proof.
  intros (d & Hd & ->). unfold Fmt.digit_char.
  destruct (Z.ltb_spec d 10); [|lia]. rewrite N_ascii_embedding; lia.
Qed.

Lemma to_string_chars n :
  chars (Fmt.to_string n)
  = if n <? 0 then "-"%char :: chars (Fmt.render 10 (- n)) else chars (Fmt.render 10 n).
Proof. unfold Fmt.to_string. now destruct (n <? 0). Qed.

Lemma to_string_inj n m : Fmt.to_string n = Fmt.to_string m -> n = m.
Proof.
  intros E. apply (f_equal chars) in E. rewrite !to_string_chars in E.
  assert (Hd : forall k l, 0 <= k -> "-"%char :: l = chars (Fmt.render 10 k) -> False).
  { intros k l Hk E'. pose proof (render10_digits k Hk) as F. rewrite <- E' in F.
    apply Forall_cons_iff in F as [F _]. apply decimal_digit_code in F.
    vm_compute in F. destruct F as [F _]. now apply F. }
  destruct (Z.ltb_spec n 0), (Z.ltb_spec m 0).
  - injection E as E. apply chars_inj, render_inj in E; lia.
  - exfalso. apply (Hd m _ ltac:(lia) E).
  - exfalso. symmetry in E. apply (Hd n _ ltac:(lia) E).
  - apply chars_inj, render_inj in E; lia.
Qed.

(** No character of a printed integer is an underscore. *)
Lemma to_string_no_underscore n : ~ In "_"%char (chars (Fmt.to_string n)).
Proof.
  rewrite to_string_chars.
  assert (Hd : forall k, 0 <= k -> ~ In "_"%char (chars (Fmt.render 10 k))).
  { intros k Hk Hin. pose proof (render10_digits k Hk) as F.
    rewrite List.Forall_forall in F. apply F, decimal_digit_code in Hin.
    vm_compute in Hin. destruct Hin as [_ Hin]. now apply Hin. }
  destruct (Z.ltb_spec n 0).
  - intros [E|Hin]; [discriminate | revert Hin; apply Hd; lia].
  - now apply Hd.
Qed.

Lemma to_string_six_digits r :
  100000 <= r <= 999999 ->
  String.length (Fmt.to_string r) = 6%nat /\ Forall decimal_digit (chars (Fmt.to_string r)).
Proof.
  intros Hr. pose proof (to_string_chars r) as E.
  destruct (Z.ltb_spec r 0); [lia|]. rewrite <- chars_length, E. split.
  - rewrite render_chars, length_map, length_rev.
    apply (digits_le_length 5).
    + change (10 ^ Z.of_nat 6) with 1000000. lia.
    + right. change (10 ^ Z.of_nat 5) with 100000. lia.
    + apply digit_fuel_enough. lia.
  - apply render10_digits. lia.
Qed.

End FmtFacts.

(** ** Client order ids *)

Section ClientOrderId.

Lemma client_order_id_shape side t r :
  100000 <= r <= 999999 -> id_shape side t (OrderManager.client_order_id_of side t r).
Proof.
  intros Hr. exists (Fmt.to_string r).
  destruct (to_string_six_digits r Hr) as [Hlen Hdig].
  split; [|split; assumption].
  unfold OrderManager.client_order_id_of. now destruct side.
Qed.

Lemma split_at_separator {A} (sep : A) (l1 l2 r1 r2 : list A) :
  ~ In sep l1 -> ~ In sep l2 -> l1 ++ sep :: r1 = l2 ++ sep :: r2 -> l1 = l2 /\ r1 = r2.
Proof.
  revert l2. induction l1 as [|a l1 IH]; intros l2 H1 H2 E.
  - destruct l2 as [|b l2]; simpl in E.
    + injection E as E. now split.
    + injection E as E1 E2. subst b. exfalso. apply H2. now left.
  - destruct l2 as [|b l2]; simpl in E.
    + injection E as E1 E2. subst a. exfalso. apply H1. now left.
    + injection E as E1 E2. subst b.
      destruct (IH l2) as [-> ->]; auto.
      * intros Hin. apply H1. now right.
      * intros Hin. apply H2. now right.
Qed.

Lemma client_order_id_inj side t r side' t' r' :
  OrderManager.client_order_id_of side t r = OrderManager.client_order_id_of side' t' r' ->
  side = side' /\ t = t' /\ r = r'.
Proof.
  intros E. unfold OrderManager.client_order_id_of in E.
  apply (f_equal chars) in E. rewrite !chars_app in E.
  apply app_inv_head in E.
  assert (Hs : side = side').
  { destruct side, side'; try reflexivity; simpl in E; discriminate. }
  subst side'. split; [reflexivity|].
  apply app_inv_head in E.
  change (chars "_") with ["_"%char] in E. simpl in E.
  apply split_at_separator in E; try apply to_string_no_underscore.
  destruct E as [Et Er].
  split; apply to_string_inj, chars_inj; assumption.
Qed.

(** What [generate_client_order_id] returns in a given world. *)
Lemma generate_client_order_id_eq side (m : OrderManager.t) (w : World) :
  fst (OrderManager.generate_client_order_id side (m, w))
  = OrderManager.client_order_id_of side (system_clock w (system_reads w)) (dis w (dis_draws w)).
Proof. reflexivity. Qed.

(** C9 (as amended): an id generated by the manager has the shape
    [MM_<SIDE>_<epoch_ns>_<rand6>], with [SIDE] one of [BID], [ASK], the
    reading of the system clock in decimal and six random digits; two
    generated ids are equal only if the side, the clock reading and the
    random draw are all equal, so that ids made at different clock readings
    (or for different sides, or with different draws) are distinct. *)
Theorem client_order_id_shape_and_injectivity
    (side side' : OrderSide) (m m' : OrderManager.t) (w w' : World) :
  100000 <= dis w (dis_draws w) <= 999999 ->
  100000 <= dis w' (dis_draws w') <= 999999 ->
  id_shape side (system_clock w (system_reads w))
    (fst (OrderManager.generate_client_order_id side (m, w)))
  /\ (fst (OrderManager.generate_client_order_id side (m, w))
      = fst (OrderManager.generate_client_order_id side' (m', w')) ->
      side = side'
      /\ system_clock w (system_reads w) = system_clock w' (system_reads w')
      /\ dis w (dis_draws w) = dis w' (dis_draws w')).
Proof.
  intros Hr Hr'. rewrite !generate_client_order_id_eq. split.
  - now apply client_order_id_shape.
  - apply client_order_id_inj.
Qed.

End ClientOrderId.

Lemma client_order_id_shape_and_injectivity_witness :
  100000 <= dis w0 (dis_draws w0) <= 999999
  /\ id_shape BUY (system_clock w0 (system_reads w0))
       (fst (OrderManager.generate_client_order_id BUY (m0, w0)))
  /\ (fst (OrderManager.generate_client_order_id BUY (m0, w0))
      = fst (OrderManager.generate_client_order_id SELL (m0, w0)) ->
      BUY = SELL
      /\ system_clock w0 (system_reads w0) = system_clock w0 (system_reads w0)
      /\ dis w0 (dis_draws w0) = dis w0 (dis_draws w0)).
Proof.
  assert (R : 100000 <= dis w0 (dis_draws w0) <= 999999) by (vm_compute; split; discriminate).
  split; [exact R|].
  exact (client_order_id_shape_and_injectivity BUY SELL m0 m0 w0 w0 R R).
Defined.

(** C9 (as stated) fails: in that session the manager creates four orders and
    the two bids carry the same client order id, as do the two asks. *)
Lemma client_order_id_not_unique :
  Sample.placed_ids (calls (snd session_clock_set_back))
  = ["MM_BID_1700000000000000000_123456"; "MM_ASK_1700000000000001000_654321";
     "MM_BID_1700000000000000000_123456"; "MM_ASK_1700000000000001000_654321"]%string
  /\ ~ List.NoDup (Sample.placed_ids (calls (snd session_clock_set_back))).
Proof.
  assert (E : Sample.placed_ids (calls (snd session_clock_set_back))
          = ["MM_BID_1700000000000000000_123456"; "MM_ASK_1700000000000001000_654321";
             "MM_BID_1700000000000000000_123456"; "MM_ASK_1700000000000001000_654321"]%string)
    by (vm_compute; reflexivity).
  split; [exact E|]. rewrite E. intros N.
  apply List.NoDup_cons_iff in N as [N _]. apply N. right. left. reflexivity.
Qed.

(** ** Frames written by the market-data client *)

Section Frames.
Import WebSocketClient.

Lemma mask_payload_length key p : List.length (mask_payload key p) = List.length p.
Proof. apply length_imap. Qed.

Lemma mask_payload_involutive key p : mask_payload key (mask_payload key p) = p.
Proof.
  apply list_eq. intros i. unfold mask_payload. rewrite !list_lookup_imap.
  destruct (p !! i) as [b|]; simpl; [|reflexivity].
  f_equal. now rewrite Z.lxor_assoc, Z.lxor_nilpotent, Z.lxor_0_r.
Qed.

Lemma length7 len : 0 <= len <= 125 ->
  Z.land (Z.lor 0x80 len) 0x7F = len /\ Z.testbit (Z.lor 0x80 len) 7 = true.
Proof.
  intros Hlen. split.
  - rewrite Z.land_lor_distr_l. change (Z.land 0x80 0x7F) with 0.
    change 0x7F with (Z.ones 7). rewrite Z.land_ones by lia.
    rewrite Z.lor_0_l. apply Z.mod_small. change (2 ^ 7) with 128. lia.
  - rewrite Z.lor_spec. reflexivity.
Qed.

Lemma small_bits len n k : 0 <= len < 2 ^ k -> k <= n -> Z.testbit len n = false.
Proof.
  intros Hlen Hn. destruct (Z.eq_dec len 0) as [->|Hne]; [apply Z.bits_0|].
  apply Z.bits_above_log2; [lia|].
  assert (Z.log2 len < k) by (apply Z.log2_lt_pow2; lia). lia.
Qed.

Lemma length16 len : 0 <= len <= 65535 ->
  Z.lor (Z.shiftl (Z.land (Z.shiftr len 8) 0xFF) 8) (Z.land len 0xFF) = len.
Proof.
  intros Hlen. change 0xFF with (Z.ones 8).
  apply Z.bits_inj'. intros n Hn. rewrite Z.lor_spec, Z.land_spec.
  destruct (Z.ltb_spec n 8) as [Hlow|Hhigh].
  - rewrite Z.shiftl_spec_low, Z.ones_spec_low by lia. simpl. apply andb_true_r.
  - rewrite Z.shiftl_spec, Z.land_spec, Z.shiftr_spec by lia.
    rewrite (Z.ones_spec_high 8 n) by lia. rewrite andb_false_r, orb_false_r.
    replace (n - 8 + 8) with n by lia.
    destruct (Z.ltb_spec n 16) as [Hmid|Htop].
    + rewrite Z.ones_spec_low by lia. apply andb_true_r.
    + rewrite Z.ones_spec_high by lia. rewrite andb_false_r.
      symmetry. apply (small_bits len n 16); [change (2 ^ 16) with 65536|]; lia.
Qed.

Lemma read_small b0 len k0 k1 k2 k3 p :
  0 <= len <= 125 -> Z.of_nat (List.length p) = len ->
  read_frame (b0 :: Z.lor 0x80 len :: k0 :: k1 :: k2 :: k3 :: p)
  = Some {| fin := Z.testbit b0 7; opcode := Z.land b0 0x0F; masked := true;
            masking_key := [k0; k1; k2; k3]; payload := p |}.
Proof.
  intros Hlen Hp. destruct (length7 len Hlen) as [E7 Eb].
  cbv beta iota zeta delta [read_frame]. rewrite E7, Eb.
  destruct (Z.eqb_spec len 126); [lia|]. destruct (Z.eqb_spec len 127); [lia|].
  cbn [firstn skipn List.length Nat.eqb negb andb orb].
  change (take 0 p) with (@nil Z). change (drop 0 p) with p.
  cbn [List.length Nat.eqb negb andb orb].
  destruct (Z.ltb_spec (Z.of_nat (List.length p)) len); [lia|].
  rewrite <- Hp, Nat2Z.id, firstn_all. reflexivity.
Qed.

Lemma read_medium b0 len k0 k1 k2 k3 p :
  126 <= len <= 65535 -> Z.of_nat (List.length p) = len ->
  read_frame (b0 :: Z.lor 0x80 126 :: Z.land (Z.shiftr len 8) 0xFF :: Z.land len 0xFF
                 :: k0 :: k1 :: k2 :: k3 :: p)
  = Some {| fin := Z.testbit b0 7; opcode := Z.land b0 0x0F; masked := true;
            masking_key := [k0; k1; k2; k3]; payload := p |}.
Proof.
  intros Hlen Hp.
  cbv beta iota zeta delta [read_frame].
  change (Z.land (Z.lor 0x80 126) 0x7F) with 126.
  change (Z.testbit (Z.lor 0x80 126) 7) with true.
  change (126 =? 126) with true. cbv iota.
  rewrite length16 by lia.
  cbn [firstn skipn List.length Nat.eqb negb andb orb].
  change (take 0 p) with (@nil Z). change (drop 0 p) with p.
  cbn [List.length Nat.eqb negb andb orb].
  destruct (Z.ltb_spec (Z.of_nat (List.length p)) len); [lia|].
  rewrite <- Hp, Nat2Z.id, firstn_all. reflexivity.
Qed.

(** C8 (as amended): every frame the client writes -- a subscription, a
    ping, a pong -- has the mask bit set, carries a four-byte masking key and
    has its payload XOR-ed with that key; the key is the constant
    [12 34 56 78] (all zeroes for a ping), the same for every frame. *)
Theorem client_frames_are_masked_with_a_fixed_key (s : send) (bs : list Z) :
  bytes_written s = Bytes bs ->
  exists f, read_frame bs = Some f
    /\ masked f = true
    /\ masking_key f = fixed_key s
    /\ mask_payload (masking_key f) (payload f) = plaintext s.
Proof.
  destruct s as [symbol depth| |p]; cbn [bytes_written].
  - unfold subscribe_orderbook. cbn [negb].
    remember (bytes_of_string (subscribe_message symbol depth)) as message eqn:Emsg.
    destruct (Z.leb_spec (Z.of_nat (List.length message)) 125) as [Hs|Hs].
    + intros [= <-]. eexists. split.
      * cbn [app mask]. apply read_small; [lia|]. now rewrite mask_payload_length.
      * cbn [masked masking_key payload fixed_key plaintext]. rewrite <- ?Emsg.
        repeat split. apply mask_payload_involutive.
    + destruct (Z.leb_spec (Z.of_nat (List.length message)) 65535) as [Hm|Hm]; [|discriminate].
      intros [= <-]. eexists. split.
      * cbn [app mask]. apply read_medium; [lia|]. now rewrite mask_payload_length.
      * cbn [masked masking_key payload fixed_key plaintext]. rewrite <- ?Emsg.
        repeat split. apply mask_payload_involutive.
  - cbn [send_ping negb orb]. intros [= <-]. eexists. split; [reflexivity|].
    repeat split.
  - unfold pong.
    destruct (Z.leb_spec (Z.of_nat (List.length p)) 125) as [Hs|Hs]; [|discriminate].
    intros [= <-]. eexists. split.
    + cbn [app]. apply read_small; [lia|]. now rewrite mask_payload_length.
    + cbn [masked masking_key payload fixed_key plaintext].
      repeat split. apply mask_payload_involutive.
Qed.

End Frames.

Lemma client_frames_are_masked_with_a_fixed_key_witness :
  WebSocketClient.bytes_written WebSocketClient.Ping
  = WebSocketClient.Bytes [0x89; 0x80; 0; 0; 0; 0]
  /\ exists f, WebSocketClient.read_frame [0x89; 0x80; 0; 0; 0; 0] = Some f
       /\ WebSocketClient.masked f = true
       /\ WebSocketClient.masking_key f = fixed_key WebSocketClient.Ping
       /\ WebSocketClient.mask_payload (WebSocketClient.masking_key f) (WebSocketClient.payload f)
          = plaintext WebSocketClient.Ping.
Proof.
  split; [reflexivity|].
  apply (client_frames_are_masked_with_a_fixed_key WebSocketClient.Ping). reflexivity.
Defined.

(** C8 (as stated) fails: the subscriptions to two symbols are two distinct
    frames, and both carry the masking key [12 34 56 78]. *)
Lemma masking_key_is_reused :
  WebSocketClient.bytes_written (WebSocketClient.Subscribe "btcusdt" 20)
  <> WebSocketClient.bytes_written (WebSocketClient.Subscribe "ethusdt" 20)
  /\ key_written (WebSocketClient.Subscribe "btcusdt" 20) = Some [0x12; 0x34; 0x56; 0x78]
  /\ key_written (WebSocketClient.Subscribe "ethusdt" 20) = Some [0x12; 0x34; 0x56; 0x78]
  /\ ~ (forall s1 s2 k1 k2,
         WebSocketClient.bytes_written s1 <> WebSocketClient.bytes_written s2 ->
         key_written s1 = Some k1 -> key_written s2 = Some k2 -> k1 <> k2).
Proof.
  assert (D : WebSocketClient.bytes_written (WebSocketClient.Subscribe "btcusdt" 20)
              <> WebSocketClient.bytes_written (WebSocketClient.Subscribe "ethusdt" 20))
    by (vm_compute; discriminate).
  assert (K1 : key_written (WebSocketClient.Subscribe "btcusdt" 20) = Some [0x12; 0x34; 0x56; 0x78])
    by (vm_compute; reflexivity).
  assert (K2 : key_written (WebSocketClient.Subscribe "ethusdt" 20) = Some [0x12; 0x34; 0x56; 0x78])
    by (vm_compute; reflexivity).
  repeat split; try assumption.
  intros F. exact (F _ _ _ _ D K1 K2 eq_refl).
Qed.

(** ** The rate limiter *)

Section RateLimiterFacts.
Import RateLimiter.

Lemma pop_while_before_sorted cutoff q :
  Sorted Z.le q -> pop_while_before cutoff q = List.filter (fun t => cutoff <=? t) q.
Proof.
  intros S. apply Sorted_StronglySorted in S; [|exact Z.le_trans].
  induction S as [|front rest S IH F]; [reflexivity|].
  cbn [pop_while_before List.filter].
  destruct (Z.ltb_spec front cutoff) as [Hold|Hkeep].
  - destruct (Z.leb_spec cutoff front); [lia | exact IH].
  - destruct (Z.leb_spec cutoff front); [|lia]. f_equal.
    symmetry. apply forallb_filter_id. apply forallb_forall.
    rewrite List.Forall_forall in F. intros t Ht. apply F in Ht. apply Z.leb_le. lia.
Qed.

Lemma filter_filter_weaker (p q : Z -> bool) (l : list Z) :
  (forall t, p t = true -> q t = true) ->
  List.filter p (List.filter q l) = List.filter p l.
Proof.
  intros Hpq. induction l as [|t l IH]; [reflexivity|]. cbn [List.filter].
  destruct (q t) eqn:Eq; cbn [List.filter].
  - destruct (p t); [f_equal|]; exact IH.
  - destruct (p t) eqn:Ep; [|exact IH]. apply Hpq in Ep. congruence.
Qed.

Lemma filter_length_le (p : Z -> bool) (l : list Z) :
  (List.length (List.filter p l) <= List.length l)%nat.
Proof. induction l as [|t l IH]; simpl; [lia|]. destruct (p t); simpl; lia. Qed.

(** C7 (as amended): [can_request] admits exactly when the number of
    recorded requests of the last sixty seconds (those the cleanup keeps) is
    below [burst_size] and the number of the last second is below
    [max_per_second]. *)
Theorem can_request_iff (r : t) (now0 now1 : Z) :
  0 <= burst_size_ r < 2 ^ 31 ->
  Sorted Z.le (request_times_ r) ->
  now0 <= now1 ->
  fst (can_request now0 now1 r) = true
  <-> in_last_minute now0 r < burst_size_ r
      /\ in_last_second now1 r < max_requests_per_second_ r.
Proof.
  intros Hb Hs Hnow. unfold can_request, cleanup_old_requests, in_last_minute, in_last_second.
  cbn [with_request_times burst_size_ request_times_ max_requests_per_second_].
  rewrite pop_while_before_sorted by exact Hs.
  set (kept := List.filter (fun t => now0 - seconds 60 <=? t) (request_times_ r)).
  assert (Eb : to_size_t (burst_size_ r) = burst_size_ r).
  { unfold to_size_t. apply Z.mod_small. split; [lia|].
    apply Z.lt_trans with (2 ^ 31); [lia | reflexivity]. }
  rewrite Eb.
  assert (Ec : List.filter (fun t => now1 - seconds 1 <? t) kept
               = List.filter (fun t => now1 - seconds 1 <? t) (request_times_ r)).
  { apply filter_filter_weaker. intros t Ht. apply Z.ltb_lt in Ht. apply Z.leb_le.
    unfold seconds in *. lia. }
  destruct (Z.leb_spec (burst_size_ r) (Z.of_nat (List.length kept))) as [Hfull|Hroom];
    cbn [fst].
  - split; [discriminate | lia].
  - unfold count_if. rewrite <- Ec.
    pose proof (filter_length_le (fun t => now1 - seconds 1 <? t) kept) as Hle.
    assert (Ei : to_int (Z.of_nat (List.length (List.filter (fun t => now1 - seconds 1 <? t) kept)))
                 = Z.of_nat (List.length (List.filter (fun t => now1 - seconds 1 <? t) kept))).
    { unfold to_int. rewrite Z.mod_small; [lia|].
      change (2 ^ 32) with 4294967296. change (2 ^ 31) with 2147483648 in *. lia. }
    rewrite Ei. rewrite Z.ltb_lt. tauto.
Qed.

End RateLimiterFacts.

Lemma can_request_iff_witness :
  0 <= RateLimiter.burst_size_ limiter_after_twenty < 2 ^ 31
  /\ Sorted Z.le (RateLimiter.request_times_ limiter_after_twenty)
  /\ RateLimiter.seconds 30 <= RateLimiter.seconds 30
  /\ (fst (RateLimiter.can_request (RateLimiter.seconds 30) (RateLimiter.seconds 30)
             limiter_after_twenty) = true
      <-> in_last_minute (RateLimiter.seconds 30) limiter_after_twenty
            < RateLimiter.burst_size_ limiter_after_twenty
          /\ in_last_second (RateLimiter.seconds 30) limiter_after_twenty
            < RateLimiter.max_requests_per_second_ limiter_after_twenty).
Proof.
  assert (Hb : 0 <= RateLimiter.burst_size_ limiter_after_twenty < 2 ^ 31)
    by (vm_compute; split; [discriminate | reflexivity]).
  assert (Hs : Sorted Z.le (RateLimiter.request_times_ limiter_after_twenty))
    by (vm_compute; repeat constructor; discriminate).
  assert (Hn : RateLimiter.seconds 30 <= RateLimiter.seconds 30) by lia.
  split; [exact Hb|]. split; [exact Hs|]. split; [exact Hn|].
  exact (can_request_iff limiter_after_twenty _ _ Hb Hs Hn).
Defined.

(** C7 (as stated) fails: twenty requests made within two seconds fill the
    burst for a minute.  Half a minute later the trailing second is empty,
    below both limits, and [can_request] still refuses. *)
Lemma burst_is_counted_over_a_minute :
  in_last_second (RateLimiter.seconds 30) limiter_after_twenty = 0
  /\ admits_within_one_second (RateLimiter.seconds 30) limiter_after_twenty = true
  /\ fst (RateLimiter.can_request (RateLimiter.seconds 30) (RateLimiter.seconds 30)
            limiter_after_twenty) = false.
Proof. vm_compute. repeat split. Qed.

(** ** Comparisons of doubles *)

Section DoubleFacts.

Lemma SFcompare_Lt_asym (f1 f2 : spec_float) :
  SFcompare f1 f2 = Some Lt -> SFcompare f2 f1 = Some Gt.
Proof.
  destruct f1 as [s1|s1| |s1 m1 e1], f2 as [s2|s2| |s2 m2 e2]; cbn;
    try discriminate; try (destruct s1; discriminate); try (destruct s2; discriminate);
    try (destruct s1, s2; (discriminate || reflexivity)).
  destruct s1, s2; try (discriminate || reflexivity).
  - rewrite (Z.compare_antisym e1 e2). destruct (e1 ?= e2) eqn:E; cbn; try discriminate.
    + rewrite !Pos.compare_cont_spec. cbn. rewrite (Pos.compare_antisym m1 m2).
      destruct (m1 ?= m2)%positive; cbn; (discriminate || reflexivity).
    + reflexivity.
  - rewrite (Z.compare_antisym e1 e2). destruct (e1 ?= e2) eqn:E; cbn; try discriminate.
    + rewrite !Pos.compare_cont_spec. cbn. rewrite (Pos.compare_antisym m1 m2).
      destruct (m1 ?= m2)%positive; cbn; (discriminate || reflexivity).
    + reflexivity.
Qed.

(** [a < b] excludes [b < a]. *)
Lemma ltb_asym (a b : float) : (a <? b)%float = true -> (b <? a)%float = false.
Proof.
  rewrite !ltb_spec. unfold SFltb.
  destruct (SFcompare (Prim2SF a) (Prim2SF b)) as [[| |]|] eqn:E; try discriminate.
  intros _. now rewrite (SFcompare_Lt_asym _ _ E).
Qed.




End DoubleFacts.

(** ** The order manager *)

Section OrderManagerFacts.
Import OrderManager.
Context `{Libm}.

Ltac fields :=
  cbn [with_steady_reads with_system_reads with_dis_draws with_calls
       steady_reads steady_clock system_clock system_reads dis dis_draws
       venue_place venue_cancel calls
       set_active_bid set_active_ask set_last_mid_price set_last_order_update set_metrics
       config_ active_bid_order_ active_ask_order_ last_mid_price_ last_order_update_ metrics_
       fst snd negb].

Ltac exec :=
  cbv beta iota zeta delta
    [bind ret this modify now system_now draw format_price generate_client_order_id
     place_order cancel_order exchange_place_limit_order exchange_cancel_order
     update_metrics fst snd];
  fields.

Ltac replies :=
  repeat match goal with
         | |- context [match venue_cancel ?w ?k ?c with _ => _ end] =>
             destruct (venue_cancel w k c) as [[|]|]; exec
         | |- context [match venue_place ?w ?k ?c with _ => _ end] =>
             destruct (venue_place w k c) as [?|]; exec
         end.

(** A mid price that is not positive is refused before anything happens. *)
Lemma place_refuses_nonpositive M obt m w :
  (M <=? 0)%float = true -> place_market_maker_orders M obt (m, w) = (false, (m, w)).
Proof. intros Hneg. unfold place_market_maker_orders. now rewrite Hneg. Qed.

(** The early return of the hysteresis test. *)
Lemma place_quiet M obt m w :
  (M <=? 0)%float = false -> need_update M m = false ->
  place_market_maker_orders M obt (m, w)
  = (true, (m, with_steady_reads (S (S (steady_reads w))) w)).
Proof.
  intros Hpos Hneed. unfold place_market_maker_orders. rewrite Hpos. exec.
  rewrite Hneed. reflexivity.
Qed.

(** A full reprice: what it leaves behind whatever the venue answers. *)
Lemma place_loud M obt m w :
  (M <=? 0)%float = false -> need_update M m = true ->
  let r := place_market_maker_orders M obt (m, w) in
  last_mid_price_ (fst (snd r)) = M
  /\ last_order_update_ (fst (snd r)) = steady_clock w (steady_reads w + 10)%nat
  /\ config_ (fst (snd r)) = config_ m
  /\ steady_clock (snd (snd r)) = steady_clock w
  /\ steady_reads (snd (snd r)) = (steady_reads w + 12)%nat
  /\ placements (snd (snd r)) = (placements w + 2)%nat
  /\ Types.successful_orders (metrics_ (fst (snd r)))
     = Types.successful_orders (metrics_ m) + 2.
Proof.
  intros Hpos Hneed. unfold place_market_maker_orders. rewrite Hpos. exec.
  rewrite Hneed. cbn [negb].
  destruct (active_bid_order_ m) as [b|], (active_ask_order_ m) as [a|]; exec; replies.
  all: repeat match goal with |- _ /\ _ => split end; try reflexivity.
  all: try (now rewrite Nat.add_comm).
  all: unfold placements; fields; rewrite !List.filter_app, !List.length_app;
    cbn [List.filter is_place List.length]; lia.
Qed.

Lemma need_update_below_hysteresis M m :
  both_legs_active m ->
  (price_change_ratio M m <? PRICE_CHANGE_THRESHOLD)%float = true ->
  need_update M m = false.
Proof.
  intros [[b Hb] [a Ha]] Hlt. unfold need_update. rewrite Hb, Ha.
  apply ltb_asym. exact Hlt.
Qed.

(** The two tests of [should_update_orders]. *)
Lemma should_update_orders_eq M m w :
  should_update_orders M (m, w)
  = if (PrimFloat.abs (M - last_mid_price_ m) <? 0.00001)%float then (false, (m, w))
    else (negb (since_last_update m w <? Config.order_update_cooldown (config_ m)),
          (m, with_steady_reads (S (steady_reads w)) w)).
Proof.
  unfold should_update_orders, since_last_update. exec.
  destruct (PrimFloat.abs (M - last_mid_price_ m) <? 0.00001)%float; [reflexivity|]. exec.
  destruct (to_milliseconds (steady_clock w (steady_reads w) - last_order_update_ m)
            <? Config.order_update_cooldown (config_ m)); reflexivity.
Qed.

Lemma update_orders_if_needed_eq M obt m w :
  update_orders_if_needed M obt (m, w)
  = if fst (should_update_orders M (m, w))
    then place_market_maker_orders M obt (snd (should_update_orders M (m, w)))
    else (true, snd (should_update_orders M (m, w))).
Proof.
  unfold update_orders_if_needed, bind.
  destruct (should_update_orders M (m, w)) as [[|] s]; reflexivity.
Qed.

Lemma place_outcome M obt m w :
  nothing_done m w (place_market_maker_orders M obt (m, w))
  \/ reprice_done M m w (place_market_maker_orders M obt (m, w)).
Proof.
  destruct (M <=? 0)%float eqn:Hpos.
  - left. rewrite place_refuses_nonpositive by exact Hpos.
    repeat split; cbn; lia.
  - destruct (need_update M m) eqn:Hneed.
    + right. destruct (place_loud M obt m w Hpos Hneed) as (A & B & C & D & E & F & G).
      repeat split; try assumption. exists (steady_reads w + 10)%nat. split; [lia | exact B].
    + left. rewrite place_quiet by assumption. repeat split; cbn; lia.
Qed.

Lemma update_outcome M obt m w :
  nothing_done m w (update_orders_if_needed M obt (m, w))
  \/ reprice_done M m w (update_orders_if_needed M obt (m, w)).
Proof.
  rewrite update_orders_if_needed_eq, should_update_orders_eq.
  destruct (PrimFloat.abs (M - last_mid_price_ m) <? 0.00001)%float; cbn [fst snd].
  - left. repeat split; cbn; lia.
  - destruct (since_last_update m w <? Config.order_update_cooldown (config_ m)); cbn [negb fst snd].
    + left. repeat split; cbn; lia.
    + destruct (place_outcome M obt m (with_steady_reads (S (steady_reads w)) w))
        as [(A & B & C & D)|(A & (k & Hk & B) & C & D & E)].
      * left. repeat split; try assumption. cbn in D. lia.
      * right. repeat split; try assumption. exists k. split; [cbn in Hk; lia | exact B].
Qed.

Lemma nothing_done_placements m w r : nothing_done m w r -> placements (snd (snd r)) = placements w.
Proof. intros (_ & E & _). unfold placements. now rewrite E. Qed.

Lemma update_adds_at_most_one_sequence M obt m w :
  (placements (snd (snd (update_orders_if_needed M obt (m, w)))) <= placements w + 2)%nat.
Proof.
  destruct (update_outcome M obt m w) as [N|(_ & _ & _ & _ & E)].
  - rewrite (nothing_done_placements _ _ _ N). lia.
  - rewrite E. lia.
Qed.

Lemma update_quiet_when_mid_unchanged M obt m w :
  mid_unchanged M m -> update_orders_if_needed M obt (m, w) = (true, (m, w)).
Proof.
  intros Hsame. rewrite update_orders_if_needed_eq, should_update_orders_eq.
  unfold mid_unchanged in Hsame. now rewrite Hsame.
Qed.

Lemma update_quiet_within_cooldown M obt m w :
  within_cooldown m w ->
  fst (update_orders_if_needed M obt (m, w)) = true
  /\ untouched m w (update_orders_if_needed M obt (m, w)).
Proof.
  intros Hcool. rewrite update_orders_if_needed_eq, should_update_orders_eq.
  unfold within_cooldown in Hcool. apply Z.ltb_lt in Hcool. rewrite Hcool.
  destruct (PrimFloat.abs (M - last_mid_price_ m) <? 0.00001)%float; cbn; repeat split.
Qed.

Lemma place_quiet_below_hysteresis M obt m w :
  below_hysteresis M m ->
  fst (place_market_maker_orders M obt (m, w)) = true
  /\ untouched m w (place_market_maker_orders M obt (m, w)).
Proof.
  intros (Hpos & Hlegs & Hlt).
  rewrite place_quiet; [repeat split | exact Hpos | now apply need_update_below_hysteresis].
Qed.

End OrderManagerFacts.

Section OrderManagerClaims.
Import OrderManager.
Context `{Libm}.

(** C10: when an entry point of the reprice finds that no update is needed
    -- a price change below the hysteresis threshold with both legs active,
    or, in [update_orders_if_needed], a mid that has not changed or a call
    within the cooldown -- it returns [true], the manager is exactly as it
    was (both active orders, [last_mid_price_], [last_order_update_], every
    metric) and nothing was asked of the exchange. *)
Theorem no_update_is_a_no_op (e : entry) (M : float) (obt : Z) (m : t) (w : World) :
  no_update_needed e M m w ->
  fst (run e M obt (m, w)) = true /\ untouched m w (run e M obt (m, w)).
Proof.
  destruct e; cbn [no_update_needed run].
  - apply place_quiet_below_hysteresis.
  - intros [Hsame|[Hcool|Hhyst]].
    + rewrite update_quiet_when_mid_unchanged by exact Hsame. repeat split.
    + now apply update_quiet_within_cooldown.
    + rewrite update_orders_if_needed_eq, should_update_orders_eq.
      destruct (PrimFloat.abs (M - last_mid_price_ m) <? 0.00001)%float;
        [cbn; repeat split|].
      destruct (since_last_update m w <? Config.order_update_cooldown (config_ m));
        cbn [negb fst snd]; [repeat split|].
      destruct (place_quiet_below_hysteresis M obt m
                  (with_steady_reads (S (steady_reads w)) w) Hhyst) as [Ht [Hm Hc]].
      repeat split; assumption.
Qed.


(** C2 (as amended): [update_orders_if_needed] does nothing whenever the time
    since the last order update is below the cooldown, whether or not a pair
    is active; and two updates handled within the cooldown of each other make
    at most one place sequence. *)
Theorem cooldown_gate (M1 M2 : float) (obt1 obt2 : Z) (m : t) (w : World) :
  (within_cooldown m w ->
   fst (update_orders_if_needed M1 obt1 (m, w)) = true
   /\ untouched m w (update_orders_if_needed M1 obt1 (m, w)))
  /\ (monotone (steady_clock w) ->
      let s1 := snd (update_orders_if_needed M1 obt1 (m, w)) in
      to_milliseconds (steady_clock (snd s1) (steady_reads (snd s1))
                       - steady_clock w (steady_reads w))
        < Config.order_update_cooldown (config_ m) ->
      (placements (snd (snd (update_orders_if_needed M2 obt2 s1))) <= placements w + 2)%nat).
Proof.
  split; [apply update_quiet_within_cooldown|].
  intros Hmono s1 Hclose. subst s1.
  pose proof (update_outcome M1 obt1 m w) as O.
  destruct (update_orders_if_needed M1 obt1 (m, w)) as [b1 [m1 w1]].
  destruct O as [N|(_ & (k & Hk & Hlou) & Hcfg & Hclock & Hp)]; cbn [fst snd] in *.
  - pose proof (update_adds_at_most_one_sequence M2 obt2 m1 w1) as A.
    apply (nothing_done_placements m w (b1, (m1, w1))) in N. cbn [fst snd] in N. lia.
  - assert (Hcool : within_cooldown m1 w1).
    { unfold within_cooldown, since_last_update. rewrite Hcfg, Hlou.
      eapply Z.le_lt_trans; [|exact Hclose].
      unfold to_milliseconds. apply Z.quot_le_mono; [lia|].
      rewrite Hclock. pose proof (Hmono _ _ Hk). lia. }
    destruct (update_quiet_within_cooldown M2 obt2 m1 w1 Hcool) as [_ [_ Hc]].
    unfold placements in *. rewrite Hc. lia.
Qed.

End OrderManagerClaims.

Lemma no_update_is_a_no_op_witness :
  no_update_needed Place_market_maker_orders 50050.5%float
    (fst (quoted_50050 Sample.venue_accepting)) (snd (quoted_50050 Sample.venue_accepting))
  /\ fst (run (H := Sample.libm) Place_market_maker_orders 50050.5%float 0
            (fst (quoted_50050 Sample.venue_accepting),
             snd (quoted_50050 Sample.venue_accepting))) = true
  /\ untouched (fst (quoted_50050 Sample.venue_accepting))
               (snd (quoted_50050 Sample.venue_accepting))
       (run (H := Sample.libm) Place_market_maker_orders 50050.5%float 0
            (fst (quoted_50050 Sample.venue_accepting),
             snd (quoted_50050 Sample.venue_accepting))).
Proof.
  assert (N : no_update_needed Place_market_maker_orders 50050.5%float
                (fst (quoted_50050 Sample.venue_accepting))
                (snd (quoted_50050 Sample.venue_accepting))).
  { repeat split; try (vm_compute; reflexivity); vm_compute; eexists; reflexivity. }
  split; [exact N|].
  exact (no_update_is_a_no_op (H := Sample.libm) Place_market_maker_orders 50050.5%float 0 _ _ N).
Defined.



Lemma sample_clock_monotone place : monotone (steady_clock (snd (quoted_50050 place))).
Proof.
  pose proof (update_outcome (H := Sample.libm) 50050%float 0
                (fst (started place)) (snd (started place))) as O.
  unfold quoted_50050.
  change (started place) with (fst (started place), snd (started place)).
  assert (E : steady_clock
                (snd (snd (OrderManager.update_orders_if_needed (H := Sample.libm) 50050%float 0
                             (fst (started place), snd (started place)))))
              = fun k : nat => 1000000000 + 1000000 * Z.of_nat k).
  { destruct O as [(_ & _ & E & _)|(_ & _ & _ & E & _)]; exact E. }
  rewrite E. intros i j Hij. lia.
Qed.

Lemma cooldown_gate_witness :
  within_cooldown (fst (quoted_50050 Sample.venue_rejecting))
                  (snd (quoted_50050 Sample.venue_rejecting))
  /\ monotone (steady_clock (snd (quoted_50050 Sample.venue_rejecting)))
  /\ fst (OrderManager.update_orders_if_needed (H := Sample.libm) 50100%float 0
            (fst (quoted_50050 Sample.venue_rejecting),
             snd (quoted_50050 Sample.venue_rejecting))) = true
  /\ untouched (fst (quoted_50050 Sample.venue_rejecting))
               (snd (quoted_50050 Sample.venue_rejecting))
       (OrderManager.update_orders_if_needed (H := Sample.libm) 50100%float 0
          (fst (quoted_50050 Sample.venue_rejecting),
           snd (quoted_50050 Sample.venue_rejecting)))
  /\ (placements
        (snd (snd (OrderManager.update_orders_if_needed (H := Sample.libm) 50150%float 0
                     (snd (OrderManager.update_orders_if_needed (H := Sample.libm) 50100%float 0
                             (fst (quoted_50050 Sample.venue_rejecting),
                              snd (quoted_50050 Sample.venue_rejecting)))))))
      <= placements (snd (quoted_50050 Sample.venue_rejecting)) + 2)%nat.
Proof.
  assert (C : within_cooldown (fst (quoted_50050 Sample.venue_rejecting))
                              (snd (quoted_50050 Sample.venue_rejecting)))
    by (vm_compute; reflexivity).
  pose proof (sample_clock_monotone Sample.venue_rejecting) as Mo.
  destruct (cooldown_gate (H := Sample.libm) 50100%float 50150%float 0 0
              (fst (quoted_50050 Sample.venue_rejecting))
              (snd (quoted_50050 Sample.venue_rejecting))) as [A B].
  split; [exact C|]. split; [exact Mo|].
  destruct (A C) as [A1 A2]. split; [exact A1|]. split; [exact A2|].
  apply (B Mo). vm_compute. reflexivity.
Defined.

(** C2 (as stated) fails: the venue rejected both legs of the first reprice,
    so no pair is active; a price update with another mid, handled two
    milliseconds after that reprice, is held back by the cooldown all the
    same. *)
Lemma cooldown_applies_without_an_active_pair :
  OrderManager.active_bid_order_ (fst (quoted_50050 Sample.venue_rejecting)) = None
  /\ OrderManager.active_ask_order_ (fst (quoted_50050 Sample.venue_rejecting)) = None
  /\ (PrimFloat.abs (50100 - OrderManager.last_mid_price_
                               (fst (quoted_50050 Sample.venue_rejecting))) <? 0.00001)%float
     = false
  /\ since_last_update (fst (quoted_50050 Sample.venue_rejecting))
                       (snd (quoted_50050 Sample.venue_rejecting)) = 2
  /\ fst (OrderManager.should_update_orders 50100%float
            (quoted_50050 Sample.venue_rejecting)) = false
  /\ calls (snd (snd (OrderManager.update_orders_if_needed (H := Sample.libm) 50100%float 0
                        (quoted_50050 Sample.venue_rejecting))))
     = calls (snd (quoted_50050 Sample.venue_rejecting))
  /\ ~ (forall M m w,
         fst (OrderManager.should_update_orders M (m, w)) = false ->
         mid_unchanged M m \/ (within_cooldown m w /\ both_legs_active m)).
Proof.
  assert (B : OrderManager.active_bid_order_ (fst (quoted_50050 Sample.venue_rejecting)) = None)
    by (vm_compute; reflexivity).
  assert (Ch : (PrimFloat.abs (50100 - OrderManager.last_mid_price_
                                  (fst (quoted_50050 Sample.venue_rejecting))) <? 0.00001)%float
               = false) by (vm_compute; reflexivity).
  assert (S : fst (OrderManager.should_update_orders 50100%float
                     (fst (quoted_50050 Sample.venue_rejecting),
                      snd (quoted_50050 Sample.venue_rejecting))) = false)
    by (vm_compute; reflexivity).
  split; [exact B|].
  split; [vm_compute; reflexivity|].
  split; [exact Ch|].
  split; [vm_compute; reflexivity|].
  split; [vm_compute; reflexivity|].
  split; [vm_compute; reflexivity|].
  intros F. destruct (F _ _ _ S) as [U|[_ [[b Hb] _]]].
  - unfold mid_unchanged in U. congruence.
  - congruence.
Qed.

(** C1 fails on the code: when the venue rejects the bid of a reprice and
    accepts the ask, [place_order] counts one failed order and
    [update_metrics] still adds two successful ones, so that the three
    counters sum to three for two orders attempted. *)
Lemma successes_are_counted_for_failed_legs :
  Types.successful_orders (OrderManager.metrics_ (fst (quoted_50050 Sample.venue_rejecting_bids))) = 2
  /\ Types.failed_orders (OrderManager.metrics_ (fst (quoted_50050 Sample.venue_rejecting_bids))) = 1
  /\ rejected_by_validation (fst (quoted_50050 Sample.venue_rejecting_bids)) = 0
  /\ total_attempted (snd (quoted_50050 Sample.venue_rejecting_bids)) = 2
  /\ OrderManager.active_bid_order_ (fst (quoted_50050 Sample.venue_rejecting_bids)) = None
  /\ ~ accounted (fst (quoted_50050 Sample.venue_rejecting_bids))
                 (snd (quoted_50050 Sample.venue_rejecting_bids)).
Proof.
  assert (E : Types.successful_orders (OrderManager.metrics_ (fst (quoted_50050 Sample.venue_rejecting_bids)))
              + Types.failed_orders (OrderManager.metrics_ (fst (quoted_50050 Sample.venue_rejecting_bids)))
              + rejected_by_validation (fst (quoted_50050 Sample.venue_rejecting_bids)) = 3)
    by (vm_compute; reflexivity).
  assert (A : total_attempted (snd (quoted_50050 Sample.venue_rejecting_bids)) = 2)
    by (vm_compute; reflexivity).
  split; [vm_compute; reflexivity|].
  split; [vm_compute; reflexivity|].
  split; [reflexivity|].
  split; [exact A|].
  split; [vm_compute; reflexivity|].
  unfold accounted. rewrite E, A. discriminate.
Qed.

(** ** Market data *)

Section MarketDataFacts.
Import MarketData.
Context `{Numeric}.

Lemma update_mid_price_empty_side (b : bot) :
  bids (current_orderbook_ b) = [] \/ asks (current_orderbook_ b) = [] ->
  update_mid_price b = b.
Proof.
  unfold update_mid_price. intros [E|E]; rewrite E; [reflexivity|].
  now destruct (bids (current_orderbook_ b)).
Qed.

(** C4 (as amended): a parsed depth payload with an empty bid side or an
    empty ask side publishes nothing -- the mid is not recomputed and no
    price-change notification is raised.  Any payload with both sides
    present, crossed or not, has its mid [(best_bid + best_ask) / 2]
    published, and is notified exactly when that mid is more than [1e-5]
    away from the previous one. *)
Theorem empty_sides_are_ignored_and_any_two_sided_book_is_published
    (root : Json.Value) (now : Z) (ex : OrderBook) (b : bot) (ob : OrderBook) :
  orderbook_of root = Some ob ->
  (bids ob = [] \/ asks ob = [] ->
   nothing_published b (snd (process_binance_orderbook (Some root) now (ex, b))))
  /\ (forall bid ask bids' asks',
        bids ob = bid :: bids' -> asks ob = ask :: asks' ->
        let b' := snd (process_binance_orderbook (Some root) now (ex, b)) in
        let mid := ((price bid + price ask) / 2)%float in
        current_mid_price_ b' = mid
        /\ (notifications_ b', price_changed_ b')
           = if (0.00001 <? PrimFloat.abs (current_mid_price_ b - mid))%float
             then (S (notifications_ b), true)
             else (notifications_ b, price_changed_ b)).
Proof.
  intros Hob. unfold process_binance_orderbook. rewrite Hob. cbn [snd]. split.
  - intros Hempty. unfold handle_orderbook_update.
    rewrite update_mid_price_empty_side by exact Hempty. repeat split.
  - intros bid ask bids' asks' Hb Ha. cbv zeta.
    unfold handle_orderbook_update, update_mid_price. cbn [current_orderbook_].
    rewrite Hb, Ha. cbn [current_mid_price_ notifications_ price_changed_].
    split; [reflexivity|].
    now destruct (0.00001 <? PrimFloat.abs (current_mid_price_ b - (price bid + price ask) / 2))%float.
Qed.

End MarketDataFacts.

Lemma empty_sides_are_ignored_and_any_two_sided_book_is_published_witness :
  MarketData.orderbook_of (H := Sample.numeric) (Sample.depth_without_bids "50100.00")
  = Some {| bids := []; asks := [{| price := 50100%float; quantity := 1%float |}]; timestamp := 0 |}
  /\ nothing_published (snd market_start)
       (snd (MarketData.process_binance_orderbook (H := Sample.numeric)
               (Some (Sample.depth_without_bids "50100.00")) 7 market_start)).
Proof.
  assert (E : MarketData.orderbook_of (H := Sample.numeric) (Sample.depth_without_bids "50100.00")
              = Some {| bids := []; asks := [{| price := 50100%float; quantity := 1%float |}];
                        timestamp := 0 |}) by (vm_compute; reflexivity).
  split; [exact E|].
  apply (empty_sides_are_ignored_and_any_two_sided_book_is_published (H := Sample.numeric)
           _ 7 (fst market_start) (snd market_start) _ E).
  left. reflexivity.
Defined.

(** C4 (as stated) fails: the payload with best bid 50100 and best ask 50000
    is crossed, and it publishes the mid 50050 and raises the notification. *)
Lemma crossed_book_is_published :
  exists ob, MarketData.orderbook_of (H := Sample.numeric) (Sample.depth "50100.00" "50000.00") = Some ob
    /\ crossed ob = true
    /\ MarketData.current_mid_price_
         (snd (MarketData.process_binance_orderbook (H := Sample.numeric)
                 (Some (Sample.depth "50100.00" "50000.00")) 7 market_start)) = 50050%float
    /\ MarketData.price_changed_
         (snd (MarketData.process_binance_orderbook (H := Sample.numeric)
                 (Some (Sample.depth "50100.00" "50000.00")) 7 market_start)) = true
    /\ MarketData.notifications_
         (snd (MarketData.process_binance_orderbook (H := Sample.numeric)
                 (Some (Sample.depth "50100.00" "50000.00")) 7 market_start)) = 1%nat
    /\ ~ nothing_published (snd market_start)
         (snd (MarketData.process_binance_orderbook (H := Sample.numeric)
                 (Some (Sample.depth "50100.00" "50000.00")) 7 market_start)).
Proof.
  eexists. split; [vm_compute; reflexivity|].
  split; [vm_compute; reflexivity|].
  split; [vm_compute; reflexivity|].
  split; [vm_compute; reflexivity|].
  split; [vm_compute; reflexivity|].
  intros (_ & _ & N). vm_compute in N. discriminate.
Qed.

(** ** The pending requests of the trading stream *)

Section TradingClientFacts.
Import TradingClient.
Context `{Numeric} `{Crypto}.

Lemma table_ok_submap heap (table : gmap string nat) i x :
  table !! i = None -> table_ok heap (<[i := x]> table) ->
  table_ok heap table /\ entry_ok heap x /\ (forall id, table !! id <> Some x).
Proof.
  intros Hnone [Hentries Hinj]. split; [split|split].
  - intros id a Hid. apply (Hentries id a).
    rewrite lookup_insert_ne; [exact Hid | congruence].
  - intros id1 id2 a H1 H2. apply (Hinj id1 id2 a); rewrite lookup_insert_ne; congruence.
  - apply (Hentries i x). apply lookup_insert_eq.
  - intros id Hid. assert (id = i).
    { apply (Hinj id i x); [rewrite lookup_insert_ne; congruence | apply lookup_insert_eq]. }
    congruence.
Qed.

(** The loop of [disconnect] over a table in good order never throws; it
    completes the promise of every waiting request of the table and touches
    nothing else. *)
Lemma sweep_spec heap (table : gmap string nat) :
  table_ok heap table ->
  exists h, map_fold fail_request (Some heap) table = Some h
    /\ (forall id a r, table !! id = Some a -> heap !! a = Some r -> h !! a = Some (fulfil r))
    /\ (forall a, (forall id, table !! id <> Some a) -> h !! a = heap !! a).
Proof.
  apply (map_fold_weak_ind
    (fun acc (tbl : gmap string nat) =>
       table_ok heap tbl ->
       exists h, acc = Some h
         /\ (forall id a r, tbl !! id = Some a -> heap !! a = Some r -> h !! a = Some (fulfil r))
         /\ (forall a, (forall id, tbl !! id <> Some a) -> h !! a = heap !! a))).
  - intros _. exists heap. split; [reflexivity|]. split.
    + intros id a r Hid. now rewrite lookup_empty in Hid.
    + reflexivity.
  - intros i x m acc Hnone IH Hok.
    destruct (table_ok_submap heap m i x Hnone Hok) as (Hsub & (r & Hr & Hempty) & Hfresh).
    destruct (IH Hsub) as (h & -> & Hin & Hout).
    assert (Hx : h !! x = Some r) by (rewrite (Hout x Hfresh); exact Hr).
    cbn [fail_request]. rewrite Hx.
    destruct (waiting r) eqn:Hw.
    + rewrite (Hempty eq_refl).
      exists (<[x := set_promise connection_closed r]> h). split; [reflexivity|]. split.
      * intros id a r0 Hid Ha. destruct (decide (id = i)) as [->|Hne].
        -- rewrite lookup_insert_eq in Hid. injection Hid as <-.
           rewrite Hr in Ha. injection Ha as <-.
           rewrite lookup_insert_eq. unfold fulfil. now rewrite Hw.
        -- rewrite lookup_insert_ne in Hid by congruence.
           rewrite lookup_insert_ne; [now apply (Hin id)|].
           intros <-. now apply (Hfresh id).
      * intros a Ha. rewrite lookup_insert_ne.
        -- apply Hout. intros id Hid. apply (Ha id).
           rewrite lookup_insert_ne; [exact Hid | congruence].
        -- intros <-. apply (Ha i). apply lookup_insert_eq.
    + exists h. split; [reflexivity|]. split.
      * intros id a r0 Hid Ha. destruct (decide (id = i)) as [->|Hne].
        -- rewrite lookup_insert_eq in Hid. injection Hid as <-.
           rewrite Hr in Ha. injection Ha as <-.
           rewrite Hx. unfold fulfil. now rewrite Hw.
        -- rewrite lookup_insert_ne in Hid by congruence. now apply (Hin id).
      * intros a Ha. apply Hout. intros id Hid. apply (Ha id).
        rewrite lookup_insert_ne; [exact Hid | congruence].
Qed.

Lemma table_ok_delete heap (table : gmap string nat) id :
  table_ok heap table -> table_ok heap (delete id table).
Proof.
  intros [Hentries Hinj]. split.
  - intros id' a Hid. apply lookup_delete_Some in Hid as [_ Hid]. now apply (Hentries id').
  - intros id1 id2 a H1 H2. apply lookup_delete_Some in H1 as [_ H1].
    apply lookup_delete_Some in H2 as [_ H2]. now apply (Hinj id1 id2 a).
Qed.

Lemma table_ok_insert_fresh heap (table : gmap string nat) id a p :
  table_ok heap table -> heap !! a = None ->
  (waiting p = true -> promise p = None) ->
  table_ok (<[a := p]> heap) (<[id := a]> table).
Proof.
  intros [Hentries Hinj] Hfresh Hp.
  assert (Hold : forall id' a', table !! id' = Some a' -> a' <> a).
  { intros id' a' Hid ->. destruct (Hentries _ _ Hid) as (r & Hr & _). congruence. }
  split.
  - intros id' a' Hid. destruct (decide (id' = id)) as [->|Hne].
    + rewrite lookup_insert_eq in Hid. injection Hid as <-.
      exists p. split; [apply lookup_insert_eq | exact Hp].
    + rewrite lookup_insert_ne in Hid by congruence.
      destruct (Hentries _ _ Hid) as (r & Hr & Hw). exists r. split; [|exact Hw].
      rewrite lookup_insert_ne; [exact Hr|]. intros <-. now apply (Hold id' a).
  - intros id1 id2 a' H1 H2.
    destruct (decide (id1 = id)) as [->|Hne1], (decide (id2 = id)) as [->|Hne2];
      try reflexivity.
    + rewrite lookup_insert_eq in H1. injection H1 as <-.
      rewrite lookup_insert_ne in H2 by congruence. now apply Hold in H2.
    + rewrite lookup_insert_eq in H2. injection H2 as <-.
      rewrite lookup_insert_ne in H1 by congruence. now apply Hold in H1.
    + rewrite lookup_insert_ne in H1, H2 by congruence. now apply (Hinj id1 id2 a').
Qed.

Lemma table_ok_settle heap (table : gmap string nat) a r :
  table_ok heap table -> (waiting r = true -> promise r = None) ->
  table_ok (<[a := r]> heap) table.
Proof.
  intros [Hentries Hinj] Hr. split; [|exact Hinj].
  intros id a' Hid. destruct (decide (a' = a)) as [->|Hne].
  - exists r. split; [apply lookup_insert_eq | exact Hr].
  - destruct (Hentries _ _ Hid) as (r' & Hr' & Hw). exists r'. split; [|exact Hw].
    now rewrite lookup_insert_ne.
Qed.

Lemma create_signed_request_keeps_requests method params system_ns (c : t) :
  connected_ (snd (create_signed_request method params system_ns c)) = connected_ c
  /\ running_ (snd (create_signed_request method params system_ns c)) = running_ c
  /\ heap_ (snd (create_signed_request method params system_ns c)) = heap_ c
  /\ pending_requests_ (snd (create_signed_request method params system_ns c))
     = pending_requests_ c.
Proof.
  unfold create_signed_request, generate_request_id.
  repeat case_match; cbn; repeat split.
Qed.

Lemma register_request_invariant method params now system_ns sent address (c : t) :
  client_invariant c -> heap_ c !! address = None ->
  client_invariant (register_request method params now system_ns sent address c).
Proof.
  unfold client_invariant. intros Hok Hfresh. unfold register_request.
  pose proof (create_signed_request_keeps_requests method params system_ns c)
    as (_ & _ & Eh & Et).
  destruct (create_signed_request method params system_ns c) as [[request|] c1];
    cbn [snd] in *; [|now rewrite Eh, Et].
  destruct (Json.get "id" request) as [[| | |request_id| | |]|]; try (now rewrite Eh, Et).
  assert (Hnew : table_ok (<[address := {| method := method; sent_time := now;
                                            promise := None; waiting := true |}]> (heap_ c1))
                          (<[request_id := address]> (pending_requests_ c1))).
  { apply table_ok_insert_fresh; [now rewrite Eh, Et | now rewrite Eh | reflexivity]. }
  destruct sent; cbn; [exact Hnew | now apply table_ok_delete].
Qed.

Lemma request_timeout_invariant request_id address (c : t) :
  client_invariant c -> client_invariant (request_timeout request_id address c).
Proof.
  unfold client_invariant. intros Hok. unfold request_timeout. cbn.
  apply table_ok_delete. destruct (heap_ c !! address); [|exact Hok].
  apply table_ok_settle; [exact Hok | discriminate].
Qed.

Lemma process_message_invariant response (c : t) :
  client_invariant c -> client_invariant (process_message response c).
Proof.
  unfold client_invariant. intros Hok. unfold process_message.
  repeat case_match; simplify_eq; try exact Hok;
    cbn; try apply table_ok_delete; try exact Hok;
    (apply table_ok_settle; [exact Hok | discriminate]).
Qed.

(** The second step of [disconnect] on a table in good order: the loop
    never throws, it completes every waiting request of the table, and the
    table is empty afterwards. *)
Lemma disconnect_end_spec (c : t) :
  client_invariant c ->
  exists c', disconnect_end c = Some c'
    /\ ws_thread_ c' = false
    /\ pending_requests_ c' = ∅
    /\ (forall id a r, pending_requests_ c !! id = Some a -> heap_ c !! a = Some r ->
        heap_ c' !! a = Some (fulfil r)).
Proof.
  intros Hok. unfold disconnect_end.
  destruct (sweep_spec _ _ Hok) as (h & Hfold & Hin & _). rewrite Hfold.
  eexists. split; [reflexivity|]. cbn. repeat split. exact Hin.
Qed.

Lemma disconnect_begin_invariant (c : t) :
  client_invariant c -> client_invariant (disconnect_begin c).
Proof. unfold client_invariant, disconnect_begin. now destruct (running_ c). Qed.

Lemma disconnect_end_invariant (c c' : t) :
  client_invariant c -> disconnect_end c = Some c' -> client_invariant c'.
Proof.
  intros Hok Hd. destruct (disconnect_end_spec c Hok) as (c1 & E & _ & Hempty & _).
  rewrite E in Hd. injection Hd as <-. unfold client_invariant. rewrite Hempty.
  split; intros *; rewrite lookup_empty; discriminate.
Qed.

Lemma step_invariant (e : event) (c c' : t) :
  client_invariant c -> step e c = Some c' -> client_invariant c'.
Proof.
  intros Hinv Hstep. destruct e; cbn [step] in Hstep.
  - now injection Hstep as <-.
  - destruct (connected_ c || ws_thread_ c); [discriminate|]. now injection Hstep as <-.
  - destruct (connected_ c); [discriminate|]. injection Hstep as <-.
    now apply disconnect_begin_invariant.
  - destruct (ws_thread_ c); [|discriminate]. now injection Hstep as <-.
  - destruct (ws_thread_ c); [|discriminate]. now injection Hstep as <-.
  - destruct (ws_thread_ c); [|discriminate]. now injection Hstep as <-.
  - injection Hstep as <-. now destruct (connected_ c).
  - destruct (admitted_ c) as [|n]; [discriminate|].
    destruct (heap_ c !! address) eqn:Ea; [discriminate|]. injection Hstep as <-.
    now apply register_request_invariant.
  - destruct (ws_thread_ c); [|discriminate]. injection Hstep as <-.
    now apply process_message_invariant.
  - repeat case_match; simplify_eq. now apply request_timeout_invariant.
  - injection Hstep as <-. now apply disconnect_begin_invariant.
  - destruct (ws_thread_ c && negb (running_ c)); [|discriminate].
    now apply (disconnect_end_invariant c).
Qed.

Lemma reachable_invariant api_key api_secret (c : t) :
  reachable api_key api_secret c -> client_invariant c.
Proof.
  induction 1 as [|e c c' _ IH Hstep].
  - split; intros *; cbn; rewrite lookup_empty; discriminate.
  - now apply (step_invariant e c).
Qed.

(** What [disconnect] achieves when it gets to its loop: in every state the
    client can reach, the loop ends normally; the request object of every
    entry of the table whose caller still waits then holds the
    closed-session error [{"error": "Connection closed"}] in its promise,
    and the table is empty. *)
Lemma the_sweep_fails_every_waiter api_key api_secret (c : t) :
  reachable api_key api_secret c ->
  exists c', disconnect_end c = Some c'
    /\ pending_requests_ c' = ∅
    /\ (forall id a r,
          pending_requests_ c !! id = Some a -> heap_ c !! a = Some r -> waiting r = true ->
          exists r', heap_ c' !! a = Some r' /\ promise r' = Some connection_closed).
Proof.
  intros Hreach. apply reachable_invariant in Hreach.
  destruct (disconnect_end_spec c Hreach) as (c' & Hd & _ & Hempty & Hsweep).
  exists c'. split; [exact Hd|]. split; [exact Hempty|].
  intros id a r Hid Ha Hw. exists (fulfil r). split; [now apply (Hsweep id)|].
  unfold fulfil. now rewrite Hw.
Qed.

Lemma session_reachable api_key api_secret (events : list event) : forall (c c' : t),
  reachable api_key api_secret c -> session events c = Some c' ->
  reachable api_key api_secret c'.
Proof.
  induction events as [|e events IH]; intros c c' Hc Hrun; cbn [session] in Hrun.
  - now injection Hrun as <-.
  - destruct (step e c) as [c1|] eqn:Hstep; [|discriminate].
    apply (IH c1 c'); [|exact Hrun]. now apply (reachable_step _ _ e c).
Qed.

End TradingClientFacts.


(** ** Request signing *)

Section SigningFacts.
Context `{Numeric} `{Crypto}.
























End SigningFacts.


(** * Further properties of the code *)

(** ** The rate limiter: cleanup, statistics and waiting *)

Section RateLimiterWaiting.
Import RateLimiter.

Lemma pop_while_before_split cutoff q :
  exists old, q = old ++ pop_while_before cutoff q /\ List.Forall (fun t => t < cutoff) old.
Proof.
  induction q as [|front rest (old & E & F)]; cbn [pop_while_before].
  - exists []. split; [reflexivity | constructor].
  - destruct (Z.ltb_spec front cutoff) as [Hold|Hkeep].
    + exists (front :: old). split; [cbn; now rewrite <- E | now constructor].
    + exists []. split; [reflexivity | constructor].
Qed.

Lemma filter_pop_while_before (p : Z -> bool) cutoff q :
  (forall t, p t = true -> cutoff <= t) ->
  List.filter p (pop_while_before cutoff q) = List.filter p q.
Proof.
  intros Hp. destruct (pop_while_before_split cutoff q) as (old & E & F).
  rewrite E at 2. rewrite List.filter_app.
  replace (List.filter p old) with (@nil Z); [reflexivity|].
  symmetry. clear E. induction F as [|t old Ht F IH]; [reflexivity|]. cbn [List.filter].
  destruct (p t) eqn:Ept; [apply Hp in Ept; lia | exact IH].
Qed.

Lemma to_int_small z : 0 <= z < 2 ^ 31 -> to_int z = z.
Proof.
  intros Hz. unfold to_int. rewrite Z.mod_small; [lia|].
  change (2 ^ 32) with 4294967296. change (2 ^ 31) with 2147483648 in *. lia.
Qed.

Lemma count_if_bounds p q : 0 <= count_if p q <= Z.of_nat (List.length q).
Proof. unfold count_if. pose proof (filter_length_le p q). lia. Qed.

Lemma cleanup_length now r :
  (List.length (request_times_ (cleanup_old_requests now r))
   <= List.length (request_times_ r))%nat.
Proof.
  unfold cleanup_old_requests. cbn [with_request_times request_times_].
  destruct (pop_while_before_split (now - seconds 60) (request_times_ r)) as (old & E & _).
  apply (f_equal (@List.length Z)) in E. rewrite List.length_app in E. lia.
Qed.

(** X1: the cleanup pops a run of requests from the front of the queue, all
    of them older than sixty seconds; every request of the last sixty
    seconds stays, and so do the two limits. *)
Theorem cleanup_keeps_the_last_minute (now : Z) (r : t) :
  (exists old,
     request_times_ r = old ++ request_times_ (cleanup_old_requests now r)
     /\ List.Forall (fun t => t < now - seconds 60) old)
  /\ (forall t, In t (request_times_ r) -> now - seconds 60 <= t ->
                In t (request_times_ (cleanup_old_requests now r)))
  /\ max_requests_per_second_ (cleanup_old_requests now r) = max_requests_per_second_ r
  /\ burst_size_ (cleanup_old_requests now r) = burst_size_ r.
Proof.
  unfold cleanup_old_requests.
  cbn [with_request_times request_times_ max_requests_per_second_ burst_size_].
  destruct (pop_while_before_split (now - seconds 60) (request_times_ r)) as (old & E & F).
  split; [exists old; split; assumption|]. split; [|split; reflexivity].
  intros t Hin Hrecent. rewrite E in Hin. apply in_app_or in Hin as [Hin|Hin]; [|exact Hin].
  rewrite List.Forall_forall in F. apply F in Hin. lia.
Qed.

(** X2: when [can_request] admits a request, the statistics taken at the
    instant of its rate check do not report the limiter as limited, whatever
    the order of the queue. *)
Theorem admitted_is_not_limited (now0 now1 : Z) (r : t) :
  now0 <= now1 ->
  Z.of_nat (List.length (request_times_ r)) < 2 ^ 31 ->
  fst (can_request now0 now1 r) = true ->
  is_limited (get_stats now1 r) = false.
Proof.
  intros Hnow Hlen. unfold can_request, get_stats, cleanup_old_requests.
  cbn [with_request_times burst_size_ request_times_ max_requests_per_second_ is_limited].
  destruct (to_size_t (burst_size_ r) <=? _); cbn [fst]; [discriminate|].
  unfold count_if. rewrite filter_pop_while_before.
  - rewrite Z.ltb_lt, Z.leb_gt. tauto.
  - intros t. rewrite Z.ltb_lt. unfold seconds. lia.
Qed.

Lemma pop_while_before_all cutoff q :
  List.Forall (fun t => t < cutoff) q -> pop_while_before cutoff q = [].
Proof.
  induction 1 as [|t q Ht F IH]; [reflexivity|]. cbn [pop_while_before].
  destruct (Z.ltb_spec t cutoff); [exact IH | lia].
Qed.

Lemma to_size_t_positive b : b <> 0 -> - 2 ^ 31 <= b < 2 ^ 31 -> 0 < to_size_t b.
Proof.
  intros Hb Hr. unfold to_size_t.
  assert (0 <= b mod 2 ^ 64 < 2 ^ 64) by (apply Z.mod_pos_bound; reflexivity).
  destruct (Z.eq_dec (b mod 2 ^ 64) 0) as [E|]; [|lia].
  apply Z.mod_divide in E; [|discriminate]. destruct E as [k E].
  change (2 ^ 31) with 2147483648 in Hr. change (2 ^ 64) with 18446744073709551616 in E. lia.
Qed.

(** What a turn of the loop leaves behind. *)
Lemma can_request_on_leaves r c :
  let r' := fst (snd (can_request_on r c)) in
  let c' := snd (snd (can_request_on r c)) in
  r' = cleanup_old_requests (next_reading c) r
  /\ Steady.readings c' = Steady.readings c /\ Steady.slept c' = Steady.slept c
  /\ (Steady.reads c < Steady.reads c')%nat.
Proof.
  unfold can_request_on, Steady.now, next_reading.
  destruct (to_size_t _ <=? _); cbn; repeat split; lia.
Qed.

Lemma can_request_on_once_all_are_old r c :
  0 < max_requests_per_second_ r -> burst_size_ r <> 0 -> - 2 ^ 31 <= burst_size_ r < 2 ^ 31 ->
  List.Forall (fun t => t < next_reading c - seconds 60) (request_times_ r) ->
  fst (can_request_on r c) = true.
Proof.
  intros Hmax Hb Hr Hold. unfold can_request_on, Steady.now, cleanup_old_requests.
  cbn [with_request_times burst_size_ request_times_ max_requests_per_second_].
  fold (next_reading c). rewrite (pop_while_before_all _ _ Hold). cbn [List.length].
  pose proof (to_size_t_positive _ Hb Hr).
  destruct (Z.leb_spec (to_size_t (burst_size_ r)) (Z.of_nat 0)); [lia|].
  cbn [fst]. unfold count_if. cbn. apply Z.ltb_lt. exact Hmax.
Qed.

Lemma cleanup_keeps_bound T now r :
  List.Forall (fun t => t <= T) (request_times_ r) ->
  List.Forall (fun t => t <= T) (request_times_ (cleanup_old_requests now r)).
Proof.
  intros F. unfold cleanup_old_requests. cbn [with_request_times request_times_].
  destruct (pop_while_before_split (now - seconds 60) (request_times_ r)) as (old & E & _).
  rewrite E in F. apply Forall_app in F. tauto.
Qed.

Lemma wait_if_needed_within (T : Z) (n : nat) : forall r c,
  0 < max_requests_per_second_ r -> burst_size_ r <> 0 -> - 2 ^ 31 <= burst_size_ r < 2 ^ 31 ->
  monotone (Steady.readings c) ->
  List.Forall (fun t => t <= T) (request_times_ r) ->
  T + seconds 60 < next_reading c + Steady.milliseconds 50 * Z.of_nat n ->
  exists r' c', wait_if_needed (S n) r c = Some (r', c')
                /\ max_requests_per_second_ r' = max_requests_per_second_ r
                /\ burst_size_ r' = burst_size_ r.
Proof.
  induction n as [|n IH]; intros r c Hmax Hb Hr Hmono HT Hlate.
  - cbn [wait_if_needed].
    assert (Hok : fst (can_request_on r c) = true).
    { apply can_request_on_once_all_are_old; try assumption.
      eapply List.Forall_impl; [|exact HT]. cbn beta. intros t Ht. lia. }
    destruct (can_request_on_leaves r c) as (Er & _).
    destruct (can_request_on r c) as [ok [r' c']]. cbn [fst snd] in *. subst ok.
    exists r', c'. split; [reflexivity|]. subst r'. split; reflexivity.
  - cbn [wait_if_needed].
    destruct (can_request_on_leaves r c) as (Er & Ec & Es & Ek).
    destruct (can_request_on r c) as [ok [r' c']]. cbn [fst snd] in *.
    destruct ok.
    + exists r', c'. split; [reflexivity|]. subst r'. split; reflexivity.
    + destruct (IH r' (Steady.sleep_for (Steady.milliseconds 50) c')) as (r'' & c'' & E & A & B).
      * now subst r'.
      * now subst r'.
      * now subst r'.
      * cbn [Steady.sleep_for Steady.readings]. now rewrite Ec.
      * subst r'. now apply cleanup_keeps_bound.
      * unfold next_reading in *.
        cbn [Steady.sleep_for Steady.readings Steady.reads Steady.slept]. rewrite Ec, Es.
        assert (Steady.readings c (Steady.reads c) <= Steady.readings c (Steady.reads c'))
          by (apply Hmono; lia).
        lia.
      * exists r'', c''. split; [exact E|]. subst r'. split; [exact A | exact B].
Qed.

(** X3: with a positive rate limit and a burst size other than zero,
    [wait_if_needed] returns, after 1202 turns of its loop at most (a little
    over a minute of sleeping), whatever requests were recorded up to now:
    by then the cleanup has dropped them all. *)
Theorem wait_if_needed_returns (r : t) (c : Steady.Clock) :
  0 < max_requests_per_second_ r ->
  burst_size_ r <> 0 -> - 2 ^ 31 <= burst_size_ r < 2 ^ 31 ->
  monotone (Steady.readings c) ->
  List.Forall (fun t => t <= next_reading c) (request_times_ r) ->
  exists r' c', wait_if_needed 1202 r c = Some (r', c')
                /\ max_requests_per_second_ r' = max_requests_per_second_ r
                /\ burst_size_ r' = burst_size_ r.
Proof.
  intros Hmax Hb Hr Hmono Hpast.
  apply (wait_if_needed_within (next_reading c) 1201); try assumption.
  unfold next_reading, seconds, Steady.milliseconds. lia.
Qed.

Lemma can_request_on_refuses r c :
  max_requests_per_second_ r <= 0 \/ burst_size_ r = 0 ->
  Z.of_nat (List.length (request_times_ r)) < 2 ^ 31 ->
  fst (can_request_on r c) = false.
Proof.
  intros Hmax Hlen. unfold can_request_on, Steady.now.
  destruct (to_size_t _ <=? _) eqn:Eb; cbn [fst]; [reflexivity|].
  destruct Hmax as [Hmax|Hzero].
  - set (q := request_times_ (cleanup_old_requests _ r)).
    assert (List.length q <= List.length (request_times_ r))%nat
      by (subst q; apply cleanup_length).
    match goal with
    | |- (to_int (count_if ?p q) <? _) = false => pose proof (count_if_bounds p q)
    end.
    rewrite to_int_small by lia. apply Z.ltb_ge.
    cbn [cleanup_old_requests with_request_times max_requests_per_second_]. lia.
  - exfalso. cbn [cleanup_old_requests with_request_times burst_size_] in Eb.
    rewrite Hzero in Eb. apply Z.leb_gt in Eb. unfold to_size_t in Eb.
    rewrite Z.mod_0_l in Eb by discriminate. lia.
Qed.

(** X4: with a rate limit of zero or less, or with a burst size of zero,
    [wait_if_needed] never returns: however many turns its loop is given, it
    is still turning. *)
Theorem wait_if_needed_never_returns (fuel : nat) (r : t) (c : Steady.Clock) :
  max_requests_per_second_ r <= 0 \/ burst_size_ r = 0 ->
  Z.of_nat (List.length (request_times_ r)) < 2 ^ 31 ->
  wait_if_needed fuel r c = None.
Proof.
  revert r c. induction fuel as [|fuel IH]; intros r c Hmax Hlen; [reflexivity|].
  cbn [wait_if_needed].
  pose proof (can_request_on_refuses r c Hmax Hlen) as Hno.
  destruct (can_request_on_leaves r c) as (Er & _).
  destruct (can_request_on r c) as [ok [r' c']]. cbn [fst snd] in *. subst ok.
  apply IH; subst r'.
  - exact Hmax.
  - pose proof (cleanup_length (next_reading c) r). lia.
Qed.

End RateLimiterWaiting.

Lemma admitted_is_not_limited_witness :
  RateLimiter.seconds 90 <= RateLimiter.seconds 90
  /\ Z.of_nat (List.length (RateLimiter.request_times_ limiter_after_twenty)) < 2 ^ 31
  /\ fst (RateLimiter.can_request (RateLimiter.seconds 90) (RateLimiter.seconds 90)
            limiter_after_twenty) = true
  /\ RateLimiter.is_limited (RateLimiter.get_stats (RateLimiter.seconds 90) limiter_after_twenty)
     = false.
Proof.
  assert (Hn : RateLimiter.seconds 90 <= RateLimiter.seconds 90) by lia.
  assert (Hl : Z.of_nat (List.length (RateLimiter.request_times_ limiter_after_twenty)) < 2 ^ 31)
    by (vm_compute; reflexivity).
  assert (Ha : fst (RateLimiter.can_request (RateLimiter.seconds 90) (RateLimiter.seconds 90)
                      limiter_after_twenty) = true) by (vm_compute; reflexivity).
  split; [exact Hn|]. split; [exact Hl|]. split; [exact Ha|].
  exact (admitted_is_not_limited _ _ limiter_after_twenty Hn Hl Ha).
Defined.

Lemma clock_at_three_seconds_monotone : monotone (Steady.readings clock_at_three_seconds).
Proof. intros i j Hij. cbn [clock_at_three_seconds Steady.readings]. lia. Qed.

Lemma wait_if_needed_returns_witness :
  exists r' c',
    RateLimiter.wait_if_needed 1202 limiter_after_twenty clock_at_three_seconds = Some (r', c')
    /\ RateLimiter.max_requests_per_second_ r' = 10
    /\ RateLimiter.burst_size_ r' = 20.
Proof.
  apply (wait_if_needed_returns limiter_after_twenty clock_at_three_seconds).
  - vm_compute; reflexivity.
  - vm_compute; discriminate.
  - vm_compute; split; [discriminate | reflexivity].
  - exact clock_at_three_seconds_monotone.
  - apply List.Forall_forall. intros t Ht. vm_compute in Ht.
    repeat (destruct Ht as [<-|Ht]; [vm_compute; discriminate|]). destruct Ht.
Defined.

Lemma wait_if_needed_never_returns_witness :
  RateLimiter.wait_if_needed 100 (RateLimiter.create 0 20) clock_at_three_seconds = None.
Proof.
  apply wait_if_needed_never_returns.
  - left. vm_compute; discriminate.
  - vm_compute; reflexivity.
Defined.

(** ** The spacing of the REST calls *)

Section RequestSpacing.
Import BinanceExchange.

(** X5: with a positive [max_requests_per_second] and a clock that never
    goes back, [enforce_rate_limit] leaves a [last_request_time_] that lies
    at least [1000 / max_requests_per_second] milliseconds after the
    previous one: it returns, and two calls to the exchange are never closer
    than that. *)
Theorem requests_are_spaced (max_requests_per_second last_request_time_ : Z)
    (c : Steady.Clock) :
  0 < max_requests_per_second ->
  monotone (Steady.readings c) ->
  last_request_time_ <= next_reading c ->
  exists t c',
    enforce_rate_limit max_requests_per_second last_request_time_ c = Some (t, c')
    /\ last_request_time_ + Steady.milliseconds (Z.quot 1000 max_requests_per_second) <= t.
Proof.
  intros Hmax Hmono Hlast. unfold enforce_rate_limit, Steady.now, next_reading in *.
  destruct (Z.eqb_spec max_requests_per_second 0) as [|_]; [lia|].
  set (now := Steady.readings c (Steady.reads c) + Steady.slept c) in *.
  set (interval := Z.quot 1000 max_requests_per_second).
  assert (Hstep : Steady.readings c (Steady.reads c) <= Steady.readings c (S (Steady.reads c)))
    by (apply Hmono; lia).
  assert (Hms : to_milliseconds (now - last_request_time_) * 1000000 <= now - last_request_time_).
  { unfold to_milliseconds. rewrite Z.quot_div_nonneg by lia.
    pose proof (Z.mul_div_le (now - last_request_time_) 1000000). lia. }
  destruct (Z.ltb_spec (to_milliseconds (now - last_request_time_)) interval) as [Hsoon|Hlate].
  - eexists _, _. split; [reflexivity|].
    cbn [Steady.sleep_for Steady.readings Steady.reads Steady.slept].
    unfold Steady.milliseconds. subst now. lia.
  - eexists _, _. split; [reflexivity|].
    cbn [Steady.readings Steady.reads Steady.slept].
    unfold Steady.milliseconds. subst now. nia.
Qed.

End RequestSpacing.

Lemma requests_are_spaced_witness :
  exists t c',
    BinanceExchange.enforce_rate_limit 10 2950000000 clock_at_three_seconds = Some (t, c')
    /\ 2950000000 + Steady.milliseconds (Z.quot 1000 10) <= t.
Proof.
  apply (requests_are_spaced 10 2950000000 clock_at_three_seconds).
  - lia.
  - exact clock_at_three_seconds_monotone.
  - vm_compute; discriminate.
Defined.

(** ** Doubles that are not numbers *)

Section NotANumber.

Lemma SFcompare_antisym (f1 f2 : spec_float) :
  SFcompare f2 f1 = option_map CompOpp (SFcompare f1 f2).
Proof.
  destruct f1 as [s1|s1| |s1 m1 e1], f2 as [s2|s2| |s2 m2 e2]; cbn;
    try reflexivity; try (destruct s1; reflexivity); try (destruct s2; reflexivity);
    try (destruct s1, s2; reflexivity).
  destruct s1, s2; try reflexivity.
  - rewrite (Z.compare_antisym e1 e2). destruct (e1 ?= e2) eqn:E; cbn; try reflexivity.
    rewrite !Pos.compare_cont_spec. cbn. rewrite (Pos.compare_antisym m1 m2).
    destruct (m1 ?= m2)%positive; reflexivity.
  - rewrite (Z.compare_antisym e1 e2). destruct (e1 ?= e2) eqn:E; cbn; try reflexivity.
    rewrite !Pos.compare_cont_spec. cbn. rewrite (Pos.compare_antisym m1 m2).
    destruct (m1 ?= m2)%positive; reflexivity.
Qed.

Lemma SFcompare_defined (f1 f2 : spec_float) :
  f1 <> S754_nan -> f2 <> S754_nan -> exists c, SFcompare f1 f2 = Some c.
Proof.
  intros H1 H2.
  destruct f1 as [s1|s1| |s1 m1 e1], f2 as [s2|s2| |s2 m2 e2]; try congruence; cbn;
    try (destruct s1; eexists; reflexivity); try (destruct s2; eexists; reflexivity);
    try (destruct s1, s2; eexists; reflexivity); try (eexists; reflexivity).
Qed.

Lemma SFcompare_refl (f : spec_float) : f <> S754_nan -> SFcompare f f = Some Eq.
Proof.
  intros Hf. destruct f as [s|s| |s m e]; try congruence; cbn; try reflexivity.
  - destruct s; reflexivity.
  - destruct s; rewrite Z.compare_refl, Pos.compare_cont_refl; reflexivity.
Qed.

Lemma is_nan_true (x : float) : PrimFloat.is_nan x = true -> Prim2SF x = S754_nan.
Proof.
  unfold PrimFloat.is_nan. rewrite FloatAxioms.eqb_spec. unfold SFeqb. intros E.
  destruct (Prim2SF x) as [s|s| |s m e] eqn:Ex; [| |reflexivity|];
    rewrite SFcompare_refl in E by discriminate; discriminate.
Qed.

Lemma is_nan_false (x : float) : PrimFloat.is_nan x = false -> Prim2SF x <> S754_nan.
Proof.
  unfold PrimFloat.is_nan. rewrite FloatAxioms.eqb_spec. unfold SFeqb. intros E Hn.
  rewrite Hn in E. discriminate.
Qed.

Lemma leb_refl (a : float) : PrimFloat.is_nan a = false -> (a <=? a)%float = true.
Proof.
  intros Ha. rewrite leb_spec. unfold SFleb.
  now rewrite (SFcompare_refl _ (is_nan_false a Ha)).
Qed.

Lemma ltb_false_leb (a b : float) :
  PrimFloat.is_nan a = false -> PrimFloat.is_nan b = false ->
  (a <? b)%float = false -> (b <=? a)%float = true.
Proof.
  intros Ha Hb. rewrite ltb_spec, leb_spec. unfold SFltb, SFleb.
  rewrite (SFcompare_antisym (Prim2SF a) (Prim2SF b)).
  destruct (SFcompare_defined _ _ (is_nan_false a Ha) (is_nan_false b Hb)) as [c E].
  rewrite E. destruct c; cbn; congruence.
Qed.

(** Nothing is below or above a NaN, and arithmetic on a NaN gives a NaN. *)
Lemma leb_nan_l (x y : float) : Prim2SF x = S754_nan -> (x <=? y)%float = false.
Proof. intros E. rewrite leb_spec, E. reflexivity. Qed.

Lemma ltb_nan_r (x y : float) : Prim2SF y = S754_nan -> (x <? y)%float = false.
Proof.
  intros E. rewrite ltb_spec, E. unfold SFltb.
  destruct (Prim2SF x) as [s|s| |s m e]; reflexivity.
Qed.

Lemma div_nan_r (x y : float) : Prim2SF y = S754_nan -> Prim2SF (x / y) = S754_nan.
Proof.
  intros E. rewrite div_spec, E. destruct (Prim2SF x) as [s|s| |s m e]; reflexivity.
Qed.

End NotANumber.

(** ** The latency record *)

(** X6: whatever numbers the record held before, after [update_latency]
    the minimum is at most the new sample, the maximum at least the new
    sample, and one more order is counted. *)
Theorem update_latency_brackets_the_sample (latency_ms : float) (m : LatencyMetrics) :
  PrimFloat.is_nan latency_ms = false ->
  PrimFloat.is_nan (min_order_latency_ms m) = false ->
  PrimFloat.is_nan (max_order_latency_ms m) = false ->
  (min_order_latency_ms (update_latency latency_ms m) <=? latency_ms)%float = true
  /\ (latency_ms <=? max_order_latency_ms (update_latency latency_ms m))%float = true
  /\ total_orders (update_latency latency_ms m) = total_orders m + 1.
Proof.
  intros Hl Hmin Hmax. cbn [update_latency min_order_latency_ms max_order_latency_ms total_orders].
  unfold Double.min, Double.max. repeat split.
  - destruct (latency_ms <? min_order_latency_ms m)%float eqn:E.
    + now apply leb_refl.
    + now apply ltb_false_leb.
  - destruct (max_order_latency_ms m <? latency_ms)%float eqn:E.
    + now apply leb_refl.
    + now apply ltb_false_leb.
Qed.

Lemma update_latency_brackets_the_sample_witness :
  PrimFloat.is_nan 12.5%float = false
  /\ PrimFloat.is_nan (min_order_latency_ms LatencyMetrics_default) = false
  /\ PrimFloat.is_nan (max_order_latency_ms LatencyMetrics_default) = false
  /\ (min_order_latency_ms (update_latency 12.5%float LatencyMetrics_default) <=? 12.5)%float
     = true
  /\ (12.5 <=? max_order_latency_ms (update_latency 12.5%float LatencyMetrics_default))%float
     = true
  /\ total_orders (update_latency 12.5%float LatencyMetrics_default)
     = total_orders LatencyMetrics_default + 1.
Proof.
  assert (A : PrimFloat.is_nan 12.5%float = false) by (vm_compute; reflexivity).
  assert (B : PrimFloat.is_nan (min_order_latency_ms LatencyMetrics_default) = false)
    by (vm_compute; reflexivity).
  assert (C : PrimFloat.is_nan (max_order_latency_ms LatencyMetrics_default) = false)
    by (vm_compute; reflexivity).
  split; [exact A|]. split; [exact B|]. split; [exact C|].
  exact (update_latency_brackets_the_sample 12.5%float LatencyMetrics_default A B C).
Defined.

(** ** The order manager: cancels, the calls of a reprice, prices that are
    not numbers *)

Section OrderManagerCalls.
Import OrderManager.
Context `{Libm}.

Ltac fields :=
  cbn [with_steady_reads with_system_reads with_dis_draws with_calls
       steady_reads steady_clock system_clock system_reads dis dis_draws
       venue_place venue_cancel calls
       set_active_bid set_active_ask set_last_mid_price set_last_order_update set_metrics
       config_ active_bid_order_ active_ask_order_ last_mid_price_ last_order_update_ metrics_
       fst snd negb].

Ltac exec :=
  cbv beta iota zeta delta
    [bind ret this modify now system_now draw format_price generate_client_order_id
     place_order cancel_order exchange_place_limit_order exchange_cancel_order
     update_metrics fst snd];
  fields.

Ltac replies :=
  repeat match goal with
         | |- context [match venue_cancel ?w ?k ?c with _ => _ end] =>
             destruct (venue_cancel w k c) as [[|]|]; exec
         | |- context [match venue_place ?w ?k ?c with _ => _ end] =>
             destruct (venue_place w k c) as [?|]; exec
         end.

(** X7: whatever the venue answers, [cancel_all_active_orders] sends one
    cancel for each active leg and nothing else, leaves no leg active, and
    keeps the last mid price and the metrics; called again it sends nothing
    and reports success. *)
Theorem cancel_all_clears_both_legs (m : t) (w : World) :
  let r := cancel_all_active_orders (m, w) in
  no_leg_active (fst (snd r))
  /\ (exists sent, calls (snd (snd r)) = calls w ++ sent /\ Permutation sent (cancels_of m))
  /\ last_mid_price_ (fst (snd r)) = last_mid_price_ m
  /\ metrics_ (fst (snd r)) = metrics_ m
  /\ cancel_all_active_orders (snd r) = (true, snd r).
Proof.
  unfold cancel_all_active_orders, cancels_of, no_leg_active.
  destruct m as [cfg [b|] [a|] mid upd met]; exec; replies.
  all: repeat match goal with |- _ /\ _ => split end; try reflexivity.
  all: eexists; (split; [try rewrite <- app_assoc; try reflexivity; symmetry; apply app_nil_r
                        | reflexivity]).
Qed.

(** The calls of a full reprice, in the order in which the two cancels and
    the two placements are run here. *)
Lemma place_calls M obt m w :
  (M <=? 0)%float = false -> need_update M m = true ->
  calls (snd (snd (place_market_maker_orders M obt (m, w))))
  = calls w
    ++ match active_bid_order_ m, active_ask_order_ m with
       | Some _, Some _ => cancels_of m
       | _, _ => []
       end
    ++ [PlaceLimitOrder (Config.symbol (config_ m)) BUY
          (formatted (config_ m) (M * (1 - Config.spread_percentage (config_ m))))
          (Config.order_size (config_ m))
          (client_order_id_of BUY (system_clock w (system_reads w)) (dis w (dis_draws w)));
        PlaceLimitOrder (Config.symbol (config_ m)) SELL
          (formatted (config_ m) (M * (1 + Config.spread_percentage (config_ m))))
          (Config.order_size (config_ m))
          (client_order_id_of SELL (system_clock w (S (system_reads w)))
             (dis w (S (dis_draws w))))].
Proof.
  intros Hpos Hneed. unfold place_market_maker_orders, cancels_of, formatted.
  rewrite Hpos. exec. rewrite Hneed. cbn [negb].
  destruct (active_bid_order_ m) as [b|], (active_ask_order_ m) as [a|]; exec; replies.
  all: rewrite <- ?app_assoc; reflexivity.
Qed.

Lemma bid_and_ask_ids_differ ts r ts' r' :
  client_order_id_of BUY ts r <> client_order_id_of SELL ts' r'.
Proof. unfold client_order_id_of. cbn. discriminate. Qed.

(** X8: a reprice that goes ahead sends its cancels before its placements.
    The cancels are those of the two legs when both are active, and none
    otherwise (a single active leg is not cancelled); the placements are one
    BUY at the formatted [mid * (1 - spread)] and one SELL at the formatted
    [mid * (1 + spread)], for the configured symbol and size, under two
    different client order ids. *)
Theorem reprice_cancels_then_places (M : float) (obt : Z) (m : t) (w : World) :
  (M <=? 0)%float = false -> need_update M m = true ->
  exists cancels places id_bid id_ask,
    calls (snd (snd (place_market_maker_orders M obt (m, w)))) = calls w ++ cancels ++ places
    /\ (both_legs_active m -> Permutation cancels (cancels_of m))
    /\ (~ both_legs_active m -> cancels = [])
    /\ Permutation places
         [PlaceLimitOrder (Config.symbol (config_ m)) BUY
            (formatted (config_ m) (M * (1 - Config.spread_percentage (config_ m))))
            (Config.order_size (config_ m)) id_bid;
          PlaceLimitOrder (Config.symbol (config_ m)) SELL
            (formatted (config_ m) (M * (1 + Config.spread_percentage (config_ m))))
            (Config.order_size (config_ m)) id_ask]
    /\ id_bid <> id_ask.
Proof.
  intros Hpos Hneed. rewrite (place_calls M obt m w Hpos Hneed).
  eexists _, _, _, _. split; [reflexivity|].
  split; [|split; [|split; [reflexivity | apply bid_and_ask_ids_differ]]].
  - intros [[b Hb] [a Ha]]. now rewrite Hb, Ha.
  - intros Hnot. destruct (active_bid_order_ m) as [b|] eqn:Hb; [|reflexivity].
    destruct (active_ask_order_ m) as [a|] eqn:Ha; [|reflexivity].
    exfalso. apply Hnot. split; eexists; eassumption.
Qed.

(** X9: a reprice that goes ahead from a state with both legs or no leg
    active returns true exactly when both new legs are active afterwards.
    It counts one more order, two more successes whatever the venue
    answered, and between zero and two more failures, none when it returns
    true. *)
Theorem reprice_reports_both_legs (M : float) (obt : Z) (m : t) (w : World) :
  (M <=? 0)%float = false -> need_update M m = true ->
  both_legs_active m \/ no_leg_active m ->
  let r := place_market_maker_orders M obt (m, w) in
  (fst r = true <-> both_legs_active (fst (snd r)))
  /\ Types.total_orders (metrics_ (fst (snd r))) = Types.total_orders (metrics_ m) + 1
  /\ Types.successful_orders (metrics_ (fst (snd r))) = Types.successful_orders (metrics_ m) + 2
  /\ Types.failed_orders (metrics_ m) <= Types.failed_orders (metrics_ (fst (snd r)))
     <= Types.failed_orders (metrics_ m) + 2
  /\ (fst r = true ->
      Types.failed_orders (metrics_ (fst (snd r))) = Types.failed_orders (metrics_ m)).
Proof.
  intros Hpos Hneed Hlegs. unfold place_market_maker_orders. rewrite Hpos. exec.
  rewrite Hneed. cbn [negb]. unfold both_legs_active, no_leg_active in *.
  destruct (active_bid_order_ m) as [b|] eqn:Hb, (active_ask_order_ m) as [a|] eqn:Ha.
  2,3: exfalso; destruct Hlegs as [[[? ?] [? ?]]|[? ?]]; congruence.
  all: exec; replies.
  all: cbn [Types.total_orders Types.successful_orders Types.failed_orders
            update_latency update_reaction_latency add_successful_orders incr_failed_orders
            andb].
  all: repeat match goal with |- _ /\ _ => split end; try lia; try (intros; lia).
  all: rewrite ?Hb, ?Ha;
    (split; [intros E; try discriminate E; split; eexists; reflexivity
            | intros [[? E1] [? E2]]; try discriminate E1; try discriminate E2; reflexivity]).
Qed.

(** X10: a mid price that is not a number is not refused by the test
    [mid_price <= 0]: unless both legs are active already, the reprice goes
    ahead, places its two orders and records the NaN as the last mid
    price. *)
Theorem nan_mid_is_not_refused (M : float) (obt : Z) (m : t) (w : World) :
  PrimFloat.is_nan M = true -> ~ both_legs_active m ->
  placements (snd (snd (place_market_maker_orders M obt (m, w)))) = (placements w + 2)%nat
  /\ last_mid_price_ (fst (snd (place_market_maker_orders M obt (m, w)))) = M.
Proof.
  intros Hnan Hlegs. apply is_nan_true in Hnan.
  assert (Hpos : (M <=? 0)%float = false) by now apply leb_nan_l.
  assert (Hneed : need_update M m = true).
  { unfold need_update. destruct (active_bid_order_ m) as [b|] eqn:Hb; [|reflexivity].
    destruct (active_ask_order_ m) as [a|] eqn:Ha; [|reflexivity].
    exfalso. apply Hlegs. split; eexists; eassumption. }
  destruct (place_loud M obt m w Hpos Hneed) as (A & _ & _ & _ & _ & B & _).
  split; [exact B | exact A].
Qed.

Lemma frozen_step (e : entry) (M : float) (obt : Z) (m : t) (w : World) :
  PrimFloat.is_nan (last_mid_price_ m) = true -> both_legs_active m ->
  untouched m w (run e M obt (m, w)).
Proof.
  intros Hnan Hlegs. apply is_nan_true in Hnan.
  assert (Hneed : need_update M m = false).
  { destruct Hlegs as [[b Hb] [a Ha]]. unfold need_update. rewrite Hb, Ha.
    apply ltb_nan_r. now apply div_nan_r. }
  assert (P : forall w', untouched m w' (place_market_maker_orders M obt (m, w'))).
  { intros w'. destruct (M <=? 0)%float eqn:Hpos.
    - rewrite place_refuses_nonpositive by exact Hpos. split; reflexivity.
    - rewrite place_quiet by assumption. split; reflexivity. }
  destruct e; cbn [run]; [apply P|].
  rewrite update_orders_if_needed_eq, should_update_orders_eq.
  destruct (PrimFloat.abs (M - last_mid_price_ m) <? 0.00001)%float; cbn [fst snd].
  - split; reflexivity.
  - destruct (negb _); cbn [fst snd]; [|split; reflexivity].
    destruct (P (with_steady_reads (S (steady_reads w)) w)) as [A B]. split; [exact A | exact B].
Qed.

(** X11: once the last mid price is not a number and both legs are active,
    no series of price updates, through either entry point and at whatever
    prices, changes the manager or reaches the venue again: the quotes stay
    as they are. *)
Theorem nan_last_mid_freezes_the_quotes (updates : list (entry * float * Z)) (m : t) (w : World) :
  PrimFloat.is_nan (last_mid_price_ m) = true -> both_legs_active m ->
  fst (run_all updates (m, w)) = m
  /\ calls (snd (run_all updates (m, w))) = calls w.
Proof.
  intros Hnan Hlegs. revert w. induction updates as [|[[e M] obt] updates IH]; intros w.
  - split; reflexivity.
  - unfold run_all. cbn [fold_left fst snd]. fold (run_all updates).
    destruct (frozen_step e M obt m w Hnan Hlegs) as [A B].
    destruct (run e M obt (m, w)) as [b [m' w']]. cbn [fst snd] in *. subst m'.
    rewrite <- B. apply IH.
Qed.

End OrderManagerCalls.

Lemma reprice_cancels_then_places_witness :
  (50050 <=? 0)%float = false
  /\ OrderManager.need_update 50050%float (fst (started Sample.venue_accepting)) = true
  /\ exists cancels places id_bid id_ask,
       calls (snd (snd (OrderManager.place_market_maker_orders (H := Sample.libm) 50050%float 0
                          (fst (started Sample.venue_accepting),
                           snd (started Sample.venue_accepting)))))
       = calls (snd (started Sample.venue_accepting)) ++ cancels ++ places
       /\ (both_legs_active (fst (started Sample.venue_accepting)) ->
           Permutation cancels (cancels_of (fst (started Sample.venue_accepting))))
       /\ (~ both_legs_active (fst (started Sample.venue_accepting)) -> cancels = [])
       /\ Permutation places
            [PlaceLimitOrder
               (Config.symbol (OrderManager.config_ (fst (started Sample.venue_accepting)))) BUY
               (formatted (H := Sample.libm)
                  (OrderManager.config_ (fst (started Sample.venue_accepting)))
                  (50050 * (1 - Config.spread_percentage
                                  (OrderManager.config_ (fst (started Sample.venue_accepting))))))
               (Config.order_size (OrderManager.config_ (fst (started Sample.venue_accepting))))
               id_bid;
             PlaceLimitOrder
               (Config.symbol (OrderManager.config_ (fst (started Sample.venue_accepting)))) SELL
               (formatted (H := Sample.libm)
                  (OrderManager.config_ (fst (started Sample.venue_accepting)))
                  (50050 * (1 + Config.spread_percentage
                                  (OrderManager.config_ (fst (started Sample.venue_accepting))))))
               (Config.order_size (OrderManager.config_ (fst (started Sample.venue_accepting))))
               id_ask]
       /\ id_bid <> id_ask.
Proof.
  assert (A : (50050 <=? 0)%float = false) by (vm_compute; reflexivity).
  assert (B : OrderManager.need_update 50050%float (fst (started Sample.venue_accepting)) = true)
    by (vm_compute; reflexivity).
  split; [exact A|]. split; [exact B|].
  exact (reprice_cancels_then_places (H := Sample.libm) 50050%float 0
           (fst (started Sample.venue_accepting)) (snd (started Sample.venue_accepting)) A B).
Defined.

Lemma reprice_reports_both_legs_witness :
  (50050 <=? 0)%float = false
  /\ OrderManager.need_update 50050%float (fst (started Sample.venue_rejecting_bids)) = true
  /\ (both_legs_active (fst (started Sample.venue_rejecting_bids))
      \/ no_leg_active (fst (started Sample.venue_rejecting_bids)))
  /\ let r := OrderManager.place_market_maker_orders (H := Sample.libm) 50050%float 0
                (fst (started Sample.venue_rejecting_bids),
                 snd (started Sample.venue_rejecting_bids)) in
     (fst r = true <-> both_legs_active (fst (snd r)))
     /\ Types.total_orders (OrderManager.metrics_ (fst (snd r)))
        = Types.total_orders (OrderManager.metrics_ (fst (started Sample.venue_rejecting_bids))) + 1
     /\ Types.successful_orders (OrderManager.metrics_ (fst (snd r)))
        = Types.successful_orders
            (OrderManager.metrics_ (fst (started Sample.venue_rejecting_bids))) + 2
     /\ Types.failed_orders (OrderManager.metrics_ (fst (started Sample.venue_rejecting_bids)))
        <= Types.failed_orders (OrderManager.metrics_ (fst (snd r)))
        <= Types.failed_orders
             (OrderManager.metrics_ (fst (started Sample.venue_rejecting_bids))) + 2
     /\ (fst r = true ->
         Types.failed_orders (OrderManager.metrics_ (fst (snd r)))
         = Types.failed_orders (OrderManager.metrics_ (fst (started Sample.venue_rejecting_bids)))).
Proof.
  assert (A : (50050 <=? 0)%float = false) by (vm_compute; reflexivity).
  assert (B : OrderManager.need_update 50050%float (fst (started Sample.venue_rejecting_bids))
              = true) by (vm_compute; reflexivity).
  assert (C : both_legs_active (fst (started Sample.venue_rejecting_bids))
              \/ no_leg_active (fst (started Sample.venue_rejecting_bids)))
    by (right; split; vm_compute; reflexivity).
  split; [exact A|]. split; [exact B|]. split; [exact C|].
  exact (reprice_reports_both_legs (H := Sample.libm) 50050%float 0
           (fst (started Sample.venue_rejecting_bids))
           (snd (started Sample.venue_rejecting_bids)) A B C).
Defined.

Lemma no_leg_at_the_start : ~ both_legs_active (fst (started Sample.venue_accepting)).
Proof. intros [[b Hb] _]. vm_compute in Hb. discriminate Hb. Qed.

Lemma nan_mid_is_not_refused_witness :
  PrimFloat.is_nan PrimFloat.nan = true
  /\ ~ both_legs_active (fst (started Sample.venue_accepting))
  /\ placements
       (snd (snd (OrderManager.place_market_maker_orders (H := Sample.libm) PrimFloat.nan 0
                    (fst (started Sample.venue_accepting),
                     snd (started Sample.venue_accepting)))))
     = (placements (snd (started Sample.venue_accepting)) + 2)%nat
  /\ OrderManager.last_mid_price_
       (fst (snd (OrderManager.place_market_maker_orders (H := Sample.libm) PrimFloat.nan 0
                    (fst (started Sample.venue_accepting),
                     snd (started Sample.venue_accepting)))))
     = PrimFloat.nan.
Proof.
  assert (A : PrimFloat.is_nan PrimFloat.nan = true) by (vm_compute; reflexivity).
  split; [exact A|]. split; [exact no_leg_at_the_start|].
  exact (nan_mid_is_not_refused (H := Sample.libm) PrimFloat.nan 0
           (fst (started Sample.venue_accepting)) (snd (started Sample.venue_accepting))
           A no_leg_at_the_start).
Defined.

Lemma nan_last_mid_freezes_the_quotes_witness :
  PrimFloat.is_nan (OrderManager.last_mid_price_ (fst quoted_nan)) = true
  /\ both_legs_active (fst quoted_nan)
  /\ fst (run_all (H := Sample.libm)
            [(Update_orders_if_needed, 50000%float, 0); (Place_market_maker_orders, 60000%float, 0)]
            (fst quoted_nan, snd quoted_nan)) = fst quoted_nan
  /\ calls (snd (run_all (H := Sample.libm)
                   [(Update_orders_if_needed, 50000%float, 0);
                    (Place_market_maker_orders, 60000%float, 0)]
                   (fst quoted_nan, snd quoted_nan))) = calls (snd quoted_nan).
Proof.
  assert (A : PrimFloat.is_nan (OrderManager.last_mid_price_ (fst quoted_nan)) = true)
    by (vm_compute; reflexivity).
  assert (B : both_legs_active (fst quoted_nan)) by (split; vm_compute; eexists; reflexivity).
  split; [exact A|]. split; [exact B|].
  exact (nan_last_mid_freezes_the_quotes (H := Sample.libm)
           [(Update_orders_if_needed, 50000%float, 0); (Place_market_maker_orders, 60000%float, 0)]
           (fst quoted_nan) (snd quoted_nan) A B).
Defined.

(** ** The frame loop of the market-data worker *)

Section WorkerFacts.
Import WebSocketClient.

Lemma extended_length_rest len7 rest n r :
  extended_length len7 rest = Some (n, r) -> (List.length r <= List.length rest)%nat.
Proof.
  unfold extended_length. destruct (len7 =? 126).
  - destruct rest as [|h [|l tl']]; try discriminate. intros [= _ <-]. cbn [List.length]. lia.
  - destruct (len7 =? 127).
    + destruct rest as [|a [|b [|c [|d [|e [|f [|g [|h tl']]]]]]]]; try discriminate.
      match goal with |- Some (?v, _) = _ -> _ => generalize v; intros big end.
      intros [= _ <-]. cbn [List.length]. lia.
    + intros [= _ <-]. lia.
Qed.

Lemma next_frame_shorter bs fin opcode payload rest :
  next_frame bs = Frame fin opcode payload rest ->
  (List.length rest + 2 <= List.length bs)%nat.
Proof.
  unfold next_frame. destruct bs as [|b0 [|b1 tl]]; try discriminate.
  destruct (extended_length (Z.land b1 127) tl) as [[n r]|] eqn:E; [|discriminate].
  apply extended_length_rest in E. cbv zeta.
  destruct (Z.testbit b1 7).
  all: destruct (_ <? 0); [destruct (_ <? n); discriminate|].
  all: destruct (_ <? n); [discriminate|].
  all: intros [= _ _ _ <-]; rewrite !length_skipn; cbn [List.length]; lia.
Qed.

Lemma frames_fuel (n : nat) : forall f1 f2 handler bs acc,
  (List.length bs <= n)%nat -> (n <= f1)%nat -> (n <= f2)%nat ->
  frames f1 handler bs acc = frames f2 handler bs acc.
Proof.
  induction n as [|n IH]; intros f1 f2 handler bs acc Hbs H1 H2.
  - destruct bs; [|cbn in Hbs; lia]. destruct f1, f2; reflexivity.
  - destruct f1 as [|f1]; [lia|]. destruct f2 as [|f2]; [lia|]. cbn [frames].
    destruct (next_frame bs) as [| |fin opcode payload rest] eqn:E; try reflexivity.
    apply next_frame_shorter in E.
    assert (R : forall acc', frames f1 handler rest acc' = frames f2 handler rest acc')
      by (intros acc'; apply IH; lia).
    rewrite !R. reflexivity.
Qed.

(** The loop, one frame at a time. *)
Lemma process_read_step handler bs acc :
  process_read handler bs acc
  = match next_frame bs with
    | Stop => ([], acc)
    | Past => ([Overrun], acc)
    | Frame fin opcode payload rest =>
        dispatch handler fin opcode payload acc (process_read handler rest)
    end.
Proof.
  unfold process_read. destruct bs as [|b bs']; [reflexivity|].
  cbn [List.length frames].
  destruct (next_frame (b :: bs')) as [| |fin opcode payload rest] eqn:E; try reflexivity.
  apply next_frame_shorter in E. cbn [List.length] in E.
  assert (R : forall acc', frames (List.length bs') handler rest acc'
                           = frames (List.length rest) handler rest acc')
    by (intros acc'; apply (frames_fuel (List.length rest)); lia).
  unfold dispatch. rewrite !R.
  destruct ((opcode =? 1) || (opcode =? 0)).
  - destruct fin; [|reflexivity]. now destruct (frames (List.length rest) handler rest []).
  - destruct (opcode =? 8); [reflexivity|]. destruct (opcode =? 9); [|reflexivity].
    now destruct (frames (List.length rest) handler rest acc).
Qed.

Lemma first_byte (fin : bool) (opcode : Z) :
  0 <= opcode < 16 ->
  Z.testbit (Z.lor (if fin then 0x80 else 0) opcode) 7 = fin
  /\ Z.land (Z.lor (if fin then 0x80 else 0) opcode) 0x0F = opcode.
Proof.
  intros Hop. split.
  - rewrite Z.lor_spec, (small_bits opcode 7 4) by (change (2 ^ 4) with 16; lia).
    now destruct fin.
  - rewrite Z.land_lor_distr_l.
    replace (Z.land (if fin then 128 else 0) 15) with 0 by now destruct fin.
    change 15 with (Z.ones 4). rewrite Z.land_ones by lia. rewrite Z.lor_0_l.
    apply Z.mod_small. change (2 ^ 4) with 16. lia.
Qed.

Lemma length_two_bytes len :
  0 <= len <= 65535 -> Z.lor (Z.shiftl (len / 256) 8) (len mod 256) = len.
Proof.
  intros Hlen. rewrite <- (length16 len Hlen) at 3.
  change 255 with (Z.ones 8). rewrite !Z.land_ones by lia.
  rewrite Z.shiftr_div_pow2 by lia. change (2 ^ 8) with 256.
  rewrite (Z.mod_small (len / 256)); [reflexivity|].
  split; [apply Z.div_pos; lia | apply Z.div_lt_upper_bound; lia].
Qed.

Lemma seven_bits len :
  0 <= len <= 127 -> Z.testbit len 7 = false /\ Z.land len 0x7F = len.
Proof.
  intros Hlen. split.
  - apply (small_bits len 7 7); [change (2 ^ 7) with 128|]; lia.
  - change 127 with (Z.ones 7). rewrite Z.land_ones by lia.
    apply Z.mod_small. change (2 ^ 7) with 128. lia.
Qed.

(** The loop reads a whole unmasked frame as the frame it is. *)
Lemma next_frame_server_frame fin opcode payload rest :
  0 <= opcode < 16 -> Z.of_nat (List.length payload) <= 65535 ->
  next_frame (server_frame fin opcode payload ++ rest) = Frame fin opcode payload rest.
Proof.
  intros Hop Hlen. destruct (first_byte fin opcode Hop) as [Ef Eo].
  unfold server_frame. cbv zeta.
  destruct (Z.leb_spec (Z.of_nat (List.length payload)) 125) as [Hs|Hs].
  - destruct (seven_bits (Z.of_nat (List.length payload))) as [Eb E7]; [lia|].
    cbn [app]. unfold next_frame. rewrite Ef, Eo, Eb, E7. unfold extended_length.
    destruct (Z.eqb_spec (Z.of_nat (List.length payload)) 126); [lia|].
    destruct (Z.eqb_spec (Z.of_nat (List.length payload)) 127); [lia|].
    rewrite List.length_app, Z.sub_0_r.
    destruct (Z.ltb_spec (Z.of_nat (List.length payload + List.length rest)) 0); [lia|].
    destruct (Z.ltb_spec (Z.of_nat (List.length payload + List.length rest))
                         (Z.of_nat (List.length payload))); [lia|].
    rewrite Nat2Z.id, firstn_app, Nat.sub_diag, firstn_all, skipn_app, Nat.sub_diag, skipn_all.
    cbn [firstn skipn app]. now rewrite app_nil_r.
  - cbn [app]. unfold next_frame.
    change (Z.testbit 126 7) with false. change (Z.land 126 127) with 126.
    rewrite Ef, Eo. unfold extended_length. change (126 =? 126) with true. cbv iota.
    rewrite length_two_bytes by lia.
    rewrite List.length_app, Z.sub_0_r.
    destruct (Z.ltb_spec (Z.of_nat (List.length payload + List.length rest)) 0); [lia|].
    destruct (Z.ltb_spec (Z.of_nat (List.length payload + List.length rest))
                         (Z.of_nat (List.length payload))); [lia|].
    rewrite Nat2Z.id, firstn_app, Nat.sub_diag, firstn_all, skipn_app, Nat.sub_diag, skipn_all.
    cbn [firstn skipn app]. now rewrite app_nil_r.
Qed.

Lemma process_read_server_frame handler fin opcode payload rest acc :
  0 <= opcode < 16 -> Z.of_nat (List.length payload) <= 65535 ->
  process_read handler (server_frame fin opcode payload ++ rest) acc
  = dispatch handler fin opcode payload acc (process_read handler rest).
Proof.
  intros Hop Hlen. rewrite process_read_step.
  now rewrite (next_frame_server_frame fin opcode payload rest Hop Hlen).
Qed.

(** X12: a complete, final text frame with a payload that is not empty is
    delivered to the message handler as it is, whatever was under assembly
    before it; the loop then goes on with the bytes after the frame and
    nothing under assembly. *)
Theorem worker_delivers_a_text_frame (payload rest accumulated_data : list Z) :
  payload <> [] -> Z.of_nat (List.length payload) <= 65535 ->
  process_read true (server_frame true 1 payload ++ rest) accumulated_data
  = (Deliver payload :: fst (process_read true rest []), snd (process_read true rest [])).
Proof.
  intros Hne Hlen. rewrite process_read_server_frame by lia.
  unfold dispatch. cbn [Z.eqb Pos.eqb orb app andb].
  destruct payload as [|b p]; [congruence|]. reflexivity.
Qed.

(** X13: a text frame without FIN is kept and nothing is delivered; a final
    continuation frame then delivers the two payloads joined, whether it
    comes in a later read or in the same one. *)
Theorem worker_reassembles_fragments (first_part last_part rest accumulated_data : list Z) :
  first_part ++ last_part <> [] ->
  Z.of_nat (List.length first_part) <= 65535 -> Z.of_nat (List.length last_part) <= 65535 ->
  process_read true (server_frame false 1 first_part) accumulated_data = ([], first_part)
  /\ process_read true (server_frame true 0 last_part ++ rest) first_part
     = (Deliver (first_part ++ last_part) :: fst (process_read true rest []),
        snd (process_read true rest []))
  /\ process_read true (server_frame false 1 first_part ++ server_frame true 0 last_part ++ rest)
                  accumulated_data
     = (Deliver (first_part ++ last_part) :: fst (process_read true rest []),
        snd (process_read true rest [])).
Proof.
  intros Hne H1 H2.
  assert (L : process_read true (server_frame true 0 last_part ++ rest) first_part
              = (Deliver (first_part ++ last_part) :: fst (process_read true rest []),
                 snd (process_read true rest []))).
  { rewrite process_read_server_frame by lia.
    unfold dispatch. cbn [Z.eqb Pos.eqb orb andb].
    destruct (first_part ++ last_part) as [|b p]; [congruence|]. reflexivity. }
  split; [|split; [exact L|]].
  - rewrite <- (app_nil_r (server_frame false 1 first_part)).
    rewrite process_read_server_frame by lia.
    unfold dispatch. cbn [Z.eqb Pos.eqb orb app]. reflexivity.
  - rewrite process_read_server_frame by lia.
    unfold dispatch. cbn [Z.eqb Pos.eqb orb app]. exact L.
Qed.

(** X14: a ping of at most 125 bytes is answered by one write, and the
    loop goes on with the bytes after it and the message under assembly
    untouched.  What is written reads back as a final, masked pong frame
    (opcode 10) whose payload, unmasked, is the payload of the ping. *)
Theorem worker_answers_a_ping (handler fin : bool) (payload rest accumulated_data : list Z) :
  Z.of_nat (List.length payload) <= 125 ->
  exists answer f,
    process_read handler (server_frame fin 9 payload ++ rest) accumulated_data
    = (Write answer :: fst (process_read handler rest accumulated_data),
       snd (process_read handler rest accumulated_data))
    /\ read_frame answer = Some f
    /\ WebSocketClient.fin f = true /\ opcode f = 10 /\ masked f = true
    /\ mask_payload (masking_key f) (WebSocketClient.payload f) = payload.
Proof.
  intros Hlen. rewrite process_read_server_frame by lia.
  unfold dispatch. cbn [Z.eqb Pos.eqb orb]. unfold pong.
  destruct (Z.leb_spec (Z.of_nat (List.length payload)) 125) as [_|]; [|lia].
  eexists _, _. split; [reflexivity|]. split.
  - cbn [app]. apply read_small; [lia|]. now rewrite mask_payload_length.
  - cbn [WebSocketClient.fin opcode masked masking_key WebSocketClient.payload].
    repeat split. apply mask_payload_involutive.
Qed.

(** X15: at a close frame the worker disconnects and stops: the frames
    that follow it in the same read are neither delivered nor answered. *)
Theorem worker_stops_at_a_close_frame (handler fin : bool) (payload rest accumulated_data : list Z) :
  Z.of_nat (List.length payload) <= 65535 ->
  process_read handler (server_frame fin 8 payload ++ rest) accumulated_data
  = ([Disconnected], accumulated_data).
Proof.
  intros Hlen. rewrite process_read_server_frame by lia. reflexivity.
Qed.

Lemma next_frame_truncated fin opcode payload k :
  Z.of_nat (List.length payload) <= 65535 ->
  (k < List.length (server_frame fin opcode payload))%nat ->
  next_frame (firstn k (server_frame fin opcode payload)) = Stop.
Proof.
  intros Hlen Hk. unfold server_frame in *. cbv zeta in *.
  destruct (Z.leb_spec (Z.of_nat (List.length payload)) 125) as [Hs|Hs].
  - destruct (seven_bits (Z.of_nat (List.length payload))) as [Eb E7]; [lia|].
    cbn [app List.length] in *.
    destruct k as [|[|k]]; [reflexivity..|]. cbn [firstn].
    unfold next_frame. rewrite Eb, E7. unfold extended_length.
    destruct (Z.eqb_spec (Z.of_nat (List.length payload)) 126); [lia|].
    destruct (Z.eqb_spec (Z.of_nat (List.length payload)) 127); [lia|].
    rewrite length_firstn, Z.sub_0_r.
    destruct (Z.ltb_spec (Z.of_nat (Nat.min k (List.length payload))) 0); [lia|].
    destruct (Z.ltb_spec (Z.of_nat (Nat.min k (List.length payload)))
                         (Z.of_nat (List.length payload))); [reflexivity | lia].
  - cbn [app List.length] in *.
    destruct k as [|[|[|[|k]]]]; [reflexivity..|]. cbn [firstn].
    unfold next_frame.
    change (Z.testbit 126 7) with false. change (Z.land 126 127) with 126.
    unfold extended_length. change (126 =? 126) with true. cbv iota.
    rewrite length_two_bytes by lia.
    rewrite length_firstn, Z.sub_0_r.
    destruct (Z.ltb_spec (Z.of_nat (Nat.min k (List.length payload))) 0); [lia|].
    destruct (Z.ltb_spec (Z.of_nat (Nat.min k (List.length payload)))
                         (Z.of_nat (List.length payload))); [reflexivity | lia].
Qed.

(** X16: a read that ends inside a frame, in its header or in its payload,
    does nothing: no delivery, no answer, and the message under assembly
    stays as it was. *)
Theorem worker_drops_a_truncated_frame (handler fin : bool) (opcode : Z)
    (payload accumulated_data : list Z) (k : nat) :
  Z.of_nat (List.length payload) <= 65535 ->
  (k < List.length (server_frame fin opcode payload))%nat ->
  process_read handler (firstn k (server_frame fin opcode payload)) accumulated_data
  = ([], accumulated_data).
Proof.
  intros Hlen Hk. rewrite process_read_step.
  now rewrite (next_frame_truncated fin opcode payload k Hlen Hk).
Qed.

End WorkerFacts.

Lemma worker_delivers_a_text_frame_witness :
  [104; 105] <> @nil Z
  /\ Z.of_nat (List.length [104; 105]) <= 65535
  /\ WebSocketClient.process_read true (server_frame true 1 [104; 105] ++ [0x89; 0]) [33]
     = (WebSocketClient.Deliver [104; 105]
          :: fst (WebSocketClient.process_read true [0x89; 0] []),
        snd (WebSocketClient.process_read true [0x89; 0] [])).
Proof.
  assert (A : [104; 105] <> @nil Z) by discriminate.
  assert (B : Z.of_nat (List.length [104; 105]) <= 65535) by (vm_compute; discriminate).
  split; [exact A|]. split; [exact B|].
  exact (worker_delivers_a_text_frame [104; 105] [0x89; 0] [33] A B).
Defined.

Lemma worker_reassembles_fragments_witness :
  [104] ++ [105] <> @nil Z
  /\ Z.of_nat (List.length [104]) <= 65535
  /\ Z.of_nat (List.length [105]) <= 65535
  /\ WebSocketClient.process_read true (server_frame false 1 [104]) [] = ([], [104])
  /\ WebSocketClient.process_read true (server_frame true 0 [105] ++ []) [104]
     = (WebSocketClient.Deliver ([104] ++ [105])
          :: fst (WebSocketClient.process_read true [] []),
        snd (WebSocketClient.process_read true [] []))
  /\ WebSocketClient.process_read true
       (server_frame false 1 [104] ++ server_frame true 0 [105] ++ []) []
     = (WebSocketClient.Deliver ([104] ++ [105])
          :: fst (WebSocketClient.process_read true [] []),
        snd (WebSocketClient.process_read true [] [])).
Proof.
  assert (A : [104] ++ [105] <> @nil Z) by discriminate.
  assert (B : Z.of_nat (List.length [104]) <= 65535) by (vm_compute; discriminate).
  assert (C : Z.of_nat (List.length [105]) <= 65535) by (vm_compute; discriminate).
  split; [exact A|]. split; [exact B|]. split; [exact C|].
  exact (worker_reassembles_fragments [104] [105] [] [] A B C).
Defined.

Lemma worker_answers_a_ping_witness :
  Z.of_nat (List.length [1; 2; 3]) <= 125
  /\ exists answer f,
       WebSocketClient.process_read true (server_frame true 9 [1; 2; 3] ++ []) []
       = (WebSocketClient.Write answer :: fst (WebSocketClient.process_read true [] []),
          snd (WebSocketClient.process_read true [] []))
       /\ WebSocketClient.read_frame answer = Some f
       /\ WebSocketClient.fin f = true /\ WebSocketClient.opcode f = 10
       /\ WebSocketClient.masked f = true
       /\ WebSocketClient.mask_payload (WebSocketClient.masking_key f) (WebSocketClient.payload f)
          = [1; 2; 3].
Proof.
  assert (A : Z.of_nat (List.length [1; 2; 3]) <= 125) by (vm_compute; discriminate).
  split; [exact A|].
  exact (worker_answers_a_ping true true [1; 2; 3] [] [] A).
Defined.

Lemma worker_stops_at_a_close_frame_witness :
  Z.of_nat (List.length [3; 232]) <= 65535
  /\ WebSocketClient.process_read true
       (server_frame true 8 [3; 232] ++ server_frame true 1 [104; 105]) []
     = ([WebSocketClient.Disconnected], []).
Proof.
  assert (A : Z.of_nat (List.length [3; 232]) <= 65535) by (vm_compute; discriminate).
  split; [exact A|].
  exact (worker_stops_at_a_close_frame true true [3; 232] (server_frame true 1 [104; 105]) [] A).
Defined.

Lemma worker_drops_a_truncated_frame_witness :
  Z.of_nat (List.length [104; 105; 33]) <= 65535
  /\ (4 < List.length (server_frame true 1 [104%Z; 105%Z; 33%Z]))%nat
  /\ WebSocketClient.process_read true (firstn 4 (server_frame true 1 [104; 105; 33])) [7]
     = ([], [7]).
Proof.
  assert (A : Z.of_nat (List.length [104; 105; 33]) <= 65535) by (vm_compute; discriminate).
  assert (B : (4 < List.length (server_frame true 1 [104%Z; 105%Z; 33%Z]))%nat) by (vm_compute; lia).
  split; [exact A|]. split; [exact B|].
  exact (worker_drops_a_truncated_frame true true 1 [104; 105; 33] [7] 4%nat A B).
Defined.

(** ** Strings *)

Section StrFacts.

Lemma append_cons (c : ascii) (a b : string) :
  (String c a ++ b)%string = String c (a ++ b)%string.
Proof. reflexivity. Qed.

Lemma append_empty_l (b : string) : (EmptyString ++ b)%string = b.
Proof. reflexivity. Qed.

Lemma append_empty_r (a : string) : (a ++ EmptyString)%string = a.
Proof. induction a as [|c a IH]; [reflexivity|]. now rewrite append_cons, IH. Qed.

Lemma append_assoc (a b c : string) : ((a ++ b) ++ c)%string = (a ++ (b ++ c))%string.
Proof. induction a as [|x a IH]; [reflexivity|]. now rewrite !append_cons, IH. Qed.

Lemma str_length_app (a b : string) :
  String.length (a ++ b)%string = (String.length a + String.length b)%nat.
Proof.
  induction a as [|c a IH]; [reflexivity|]. rewrite append_cons. cbn [String.length]. now rewrite IH.
Qed.

Lemma from_app (a b : string) : Str.from (String.length a) (a ++ b)%string = b.
Proof. induction a as [|c a IH]; [reflexivity|]. rewrite append_cons. exact IH. Qed.

Lemma from_add (i j : nat) (s : string) : Str.from (i + j) s = Str.from j (Str.from i s).
Proof.
  revert s. induction i as [|i IH]; intros s; [reflexivity|].
  destruct s as [|c s]; cbn; [now destruct j | apply IH].
Qed.

Lemma left_app (a b : string) : Str.left (String.length a) (a ++ b)%string = a.
Proof.
  induction a as [|c a IH]; [now destruct b|]. rewrite append_cons. cbn [String.length Str.left].
  now rewrite IH.
Qed.

Lemma lacks_cons c a s : lacks c (String a s) <-> a <> c /\ lacks c s.
Proof. unfold lacks. cbn. tauto. Qed.

Lemma lacks_app c a b : lacks c (a ++ b)%string <-> lacks c a /\ lacks c b.
Proof.
  induction a as [|x a IH].
  - rewrite append_empty_l. unfold lacks at 2. cbn. tauto.
  - rewrite append_cons, !lacks_cons, IH. tauto.
Qed.

Lemma find_lacks c s : lacks c s -> Str.find c s = None.
Proof.
  induction s as [|a s IH]; [reflexivity|]. rewrite lacks_cons. intros [Hne Hs]. cbn.
  destruct (Ascii.eqb_spec a c); [contradiction|]. now rewrite IH.
Qed.

Lemma find_first c a b :
  lacks c a -> Str.find c (a ++ String c b)%string = Some (String.length a).
Proof.
  induction a as [|x a IH].
  - intros _. rewrite append_empty_l. cbn [Str.find String.length]. now rewrite Ascii.eqb_refl.
  - rewrite lacks_cons, append_cons. intros [Hne Ha]. cbn [Str.find String.length].
    destruct (Ascii.eqb_spec x c); [contradiction|]. now rewrite IH.
Qed.

Lemma find_str_scheme (scheme rest : string) :
  lacks ":" scheme ->
  Str.find_str "://" (scheme ++ "://" ++ rest)%string = Some (String.length scheme).
Proof.
  induction scheme as [|x a IH].
  - intros _. reflexivity.
  - rewrite lacks_cons, append_cons. intros [Hne Ha].
    cbn [Str.find_str Str.starts_with String.length].
    destruct (Ascii.eqb_spec ":" x) as [E|_]; [congruence|]. cbn [andb option_map].
    now rewrite (IH Ha).
Qed.

End StrFacts.

(** ** The address that the market-data client connects to *)

Section ConnectFacts.
Import WebSocketClient.
Context `{Strtol}.

Lemma find_path_start (authority tail : string) :
  lacks "/" authority -> path_or_nothing tail ->
  Str.find "/" (authority ++ tail)%string
  = match tail with EmptyString => None | _ => Some (String.length authority) end.
Proof.
  intros Ha [->|[q ->]].
  - apply find_lacks. apply lacks_app. split; [exact Ha|]. unfold lacks. cbn. tauto.
  - now apply find_first.
Qed.

(** The authority and the path that [connect] cuts out of the URI. *)
Lemma parse_uri_authority (scheme authority tail : string) :
  lacks ":" scheme -> lacks "/" authority -> path_or_nothing tail ->
  parse_uri (scheme ++ "://" ++ authority ++ tail)%string
  = match Str.find ":" authority with
    | Some colon =>
        match stoi (Str.from (colon + 1) authority) with
        | Some port => Some {| host := Str.left colon authority; port := port;
                               path := path_of tail |}
        | None => None
        end
    | None => Some {| host := authority; port := 443; path := path_of tail |}
    end.
Proof.
  intros Hs Ha Ht. unfold parse_uri. rewrite (find_str_scheme scheme _ Hs). cbv zeta.
  set (uri := (scheme ++ "://" ++ authority ++ tail)%string).
  assert (Efrom : Str.from (String.length scheme + 3) uri = (authority ++ tail)%string).
  { subst uri. rewrite from_add, from_app. reflexivity. }
  assert (Elen : (String.length uri <? String.length scheme + 3)%nat = false).
  { subst uri. rewrite !str_length_app. cbn [String.length]. apply Nat.ltb_ge. lia. }
  unfold Str.find_from. rewrite Elen, Efrom, (find_path_start authority tail Ha Ht).
  destruct tail as [|c q] eqn:Et.
  - cbn [option_map path_of]. now rewrite append_empty_r.
  - cbn [option_map path_of]. unfold Str.substr.
    replace (String.length scheme + 3 + String.length authority - (String.length scheme + 3))%nat
      with (String.length authority) by lia.
    rewrite !Efrom, from_add, Efrom, left_app, from_app. reflexivity.
Qed.

(** X17: [connect] takes a URI of the form [scheme://name:port/path] apart
    into the host [name], the port as [std::stoi] reads it and the path from
    the first slash on; without a port the port is 443, and without a path
    the path is ["/"]. *)
Theorem connect_parses_the_uri (scheme name port_text tail : string) (n : Z) :
  lacks ":" scheme ->
  lacks "/" name -> lacks ":" name ->
  lacks "/" port_text ->
  path_or_nothing tail ->
  stoi port_text = Some n ->
  parse_uri (scheme ++ "://" ++ name ++ ":" ++ port_text ++ tail)%string
  = Some {| host := name; port := n; path := path_of tail |}
  /\ parse_uri (scheme ++ "://" ++ name ++ tail)%string
     = Some {| host := name; port := 443; path := path_of tail |}.
Proof.
  intros Hs Hn1 Hn2 Hp Ht Hstoi. split.
  - replace (scheme ++ "://" ++ name ++ ":" ++ port_text ++ tail)%string
      with (scheme ++ "://" ++ (name ++ ":" ++ port_text) ++ tail)%string.
    2:{ now rewrite !append_assoc. }
    rewrite parse_uri_authority; try assumption.
    + change (name ++ ":" ++ port_text)%string with (name ++ String ":" port_text)%string.
      rewrite (find_first ":" name port_text Hn2), from_add, from_app. cbn [Str.from].
      rewrite Hstoi, left_app. reflexivity.
    + change (name ++ ":" ++ port_text)%string with (name ++ String ":" port_text)%string.
      apply lacks_app. split; [exact Hn1|]. apply lacks_cons. split; [discriminate | exact Hp].
  - rewrite parse_uri_authority; try assumption. now rewrite (find_lacks ":" name Hn2).
Qed.

End ConnectFacts.

Lemma connect_parses_the_uri_witness :
  WebSocketClient.parse_uri (H := Sample.strtol)
    ("wss" ++ "://" ++ "stream.binance.com" ++ ":" ++ "9443" ++ "/ws/btcusdt@depth20")%string
  = Some {| WebSocketClient.host := "stream.binance.com";
            WebSocketClient.port := 9443;
            WebSocketClient.path := path_of "/ws/btcusdt@depth20" |}
  /\ WebSocketClient.parse_uri (H := Sample.strtol)
       ("wss" ++ "://" ++ "stream.binance.com" ++ "/ws/btcusdt@depth20")%string
     = Some {| WebSocketClient.host := "stream.binance.com";
               WebSocketClient.port := 443;
               WebSocketClient.path := path_of "/ws/btcusdt@depth20" |}.
Proof.
  apply (connect_parses_the_uri (H := Sample.strtol)
           "wss" "stream.binance.com" "9443" "/ws/btcusdt@depth20" 9443).
  - intros Hin; vm_compute in Hin; repeat (destruct Hin as [Hin|Hin]; [discriminate Hin|]);
      exact Hin.
  - intros Hin; vm_compute in Hin; repeat (destruct Hin as [Hin|Hin]; [discriminate Hin|]);
      exact Hin.
  - intros Hin; vm_compute in Hin; repeat (destruct Hin as [Hin|Hin]; [discriminate Hin|]);
      exact Hin.
  - intros Hin; vm_compute in Hin; repeat (destruct Hin as [Hin|Hin]; [discriminate Hin|]);
      exact Hin.
  - right. eexists. reflexivity.
  - vm_compute. reflexivity.
Defined.

(** ** The pool of curl handles *)

Section PoolFacts.
Import RestClient.
Context {handle : Type}.

Lemma handles_run (pool : list handle) (k : nat) : forall i,
  (i < List.length pool)%nat -> (i + k <= List.length pool)%nat ->
  handles k pool i = Some (take k (drop i pool), ((i + k) mod List.length pool)%nat).
Proof.
  induction k as [|k IH]; intros i Hi Hk.
  - cbn [handles]. rewrite Nat.add_0_r, Nat.mod_small by exact Hi. reflexivity.
  - cbn [handles]. unfold get_curl_handle.
    destruct (lookup_lt_is_Some_2 _ _ Hi) as [x Hx]. rewrite Hx.
    rewrite (drop_S _ _ _ Hx). cbn [take firstn].
    destruct (Nat.eq_dec (i + 1)%nat (List.length pool)) as [E|Hne].
    + assert (k = O) by lia. subst k. rewrite E, Nat.Div0.mod_same. cbn [handles].
      change (take 0%nat (drop (S i) pool)) with (@nil handle). reflexivity.
    + rewrite (Nat.mod_small (i + 1)%nat) by lia. rewrite IH by lia.
      replace (i + 1)%nat with (S i) by lia. do 3 f_equal. lia.
Qed.

Lemma handles_app (pool : list handle) (k1 k2 : nat) : forall i,
  handles (k1 + k2) pool i
  = match handles k1 pool i with
    | Some (first, j) =>
        match handles k2 pool j with
        | Some (second, last) => Some (first ++ second, last)
        | None => None
        end
    | None => None
    end.
Proof.
  induction k1 as [|k1 IH]; intros i.
  - cbn [handles Nat.add]. destruct (handles k2 pool i) as [[second last]|]; reflexivity.
  - cbn [handles Nat.add]. destruct (get_curl_handle pool i) as [[curl next]|]; [|reflexivity].
    rewrite IH. destruct (handles k1 pool next) as [[first j]|]; [|reflexivity].
    destruct (handles k2 pool j) as [[second last]|]; reflexivity.
Qed.

(** X18: as many calls of [get_curl_handle] as the pool has handles return
    every handle of the pool once, in the order of the pool from the current
    index on and around, and leave the index where it was. *)
Theorem the_pool_is_used_in_turn (curl_pool : list handle) (pool_index : nat) :
  (pool_index < List.length curl_pool)%nat ->
  handles (List.length curl_pool) curl_pool pool_index
  = Some (drop pool_index curl_pool ++ take pool_index curl_pool, pool_index).
Proof.
  intros Hi.
  replace (List.length curl_pool) with (List.length curl_pool - pool_index + pool_index)%nat at 1
    by lia.
  rewrite handles_app, handles_run by lia.
  replace (pool_index + (List.length curl_pool - pool_index))%nat with (List.length curl_pool)
    by lia.
  rewrite Nat.Div0.mod_same.
  destruct pool_index as [|i].
  - cbn [handles]. change (take 0%nat curl_pool) with (@nil handle). rewrite !app_nil_r.
    rewrite take_ge; [reflexivity|]. rewrite length_drop. lia.
  - rewrite handles_run by lia. cbn [Nat.add]. rewrite Nat.mod_small by lia.
    change (drop 0%nat curl_pool) with curl_pool.
    rewrite (take_ge (drop (S i) curl_pool)); [reflexivity|]. rewrite length_drop. lia.
Qed.

End PoolFacts.

Lemma the_pool_is_used_in_turn_witness :
  (1 < List.length [10; 20; 30])%nat
  /\ handles (List.length [10; 20; 30]) [10; 20; 30] 1
     = Some (drop 1 [10; 20; 30] ++ take 1 [10; 20; 30], 1%nat).
Proof.
  assert (A : (1 < List.length [10; 20; 30])%nat) by (vm_compute; lia).
  split; [exact A|].
  exact (the_pool_is_used_in_turn [10; 20; 30] 1%nat A).
Defined.

Section StringSearches.

Lemma left_from (k : nat) (s : string) : (Str.left k s ++ Str.from k s)%string = s.
Proof.
  revert s. induction k as [|k IH]; intros s; [reflexivity|].
  destruct s as [|c s]; [reflexivity|]. cbn [Str.left Str.from]. now rewrite append_cons, IH.
Qed.

Lemma map_app f (a b : string) : Str.map f (a ++ b)%string = (Str.map f a ++ Str.map f b)%string.
Proof.
  induction a as [|c a IH]; [reflexivity|]. rewrite append_cons. cbn [Str.map].
  now rewrite append_cons, IH.
Qed.

Lemma find_last_not_of_zeros k : Str.find_last_not_of "0" (zeros k) = None.
Proof. induction k as [|k IH]; [reflexivity|]. cbn [zeros Str.find_last_not_of]. now rewrite IH. Qed.

Lemma find_last_not_of_app c (a b : string) :
  Str.find_last_not_of c (a ++ b)%string
  = match Str.find_last_not_of c b with
    | Some i => Some (String.length a + i)%nat
    | None => Str.find_last_not_of c a
    end.
Proof.
  induction a as [|x a IH]; [rewrite append_empty_l; now destruct (Str.find_last_not_of c b)|].
  rewrite append_cons. cbn [Str.find_last_not_of String.length]. rewrite IH.
  destruct (Str.find_last_not_of c b); reflexivity.
Qed.

Lemma length_zeros k : String.length (zeros k) = k.
Proof. induction k as [|k IH]; [reflexivity|]. cbn. now rewrite IH. Qed.

Lemma str_to_int_small z : 0 <= z < 2 ^ 31 -> Str.to_int z = z.
Proof.
  intros Hz. unfold Str.to_int. rewrite Z.mod_small; [lia|].
  change (2 ^ 32) with 4294967296. change (2 ^ 31) with 2147483648 in *. lia.
Qed.

End StringSearches.

(** ** Precisions and symbols *)

Section PrecisionFacts.
Import RestClient BinanceExchange.

(** X19: of a step or tick size written as [units], a point, [digits], a
    character [last] other than a zero and then [k] zeros, [get_symbol_info]
    takes as precision the number of characters from the point to [last],
    while [get_exchange_info] counts the [k] trailing zeros too.  Of a size
    with nothing but zeros after the point, [get_symbol_info] keeps the
    precision it had, and [get_exchange_info] takes the number of zeros. *)
Theorem precision_stops_at_the_last_digit (units digits : string) (last : ascii) (k : nat)
    (precision : Z) :
  lacks "." units -> last <> "0"%char ->
  Z.of_nat (String.length units + String.length digits + k) + 2 < 2 ^ 31 ->
  precision_of_step (units ++ "." ++ digits ++ String last (zeros k)) precision
  = Z.of_nat (String.length digits) + 1
  /\ precision_of_tick (units ++ "." ++ digits ++ String last (zeros k))
     = Z.of_nat (String.length digits) + 1 + Z.of_nat k
  /\ precision_of_step (units ++ "." ++ zeros k) precision = precision
  /\ precision_of_tick (units ++ "." ++ zeros k) = Z.of_nat k.
Proof.
  intros Hu Hlast Hlen.
  assert (P : forall rest, Str.find "." (units ++ "." ++ rest)%string = Some (String.length units)).
  { intros rest. change ("." ++ rest)%string with (String "." rest). now apply find_first. }
  assert (L1 : Str.find_last_not_of "0" (units ++ "." ++ digits ++ String last (zeros k))%string
               = Some (String.length units + S (String.length digits))%nat).
  { change ("." ++ digits ++ String last (zeros k))%string
      with (String "." (digits ++ String last (zeros k)))%string.
    rewrite find_last_not_of_app. cbn [Str.find_last_not_of].
    rewrite find_last_not_of_app. cbn [Str.find_last_not_of].
    rewrite find_last_not_of_zeros. destruct (Ascii.eqb_spec last "0"); [contradiction|].
    do 2 f_equal. lia. }
  assert (L2 : Str.find_last_not_of "0" (units ++ "." ++ zeros k)%string
               = Some (String.length units + 0)%nat).
  { change ("." ++ zeros k)%string with (String "." (zeros k)).
    rewrite find_last_not_of_app. cbn [Str.find_last_not_of].
    rewrite find_last_not_of_zeros. reflexivity. }
  unfold precision_of_step, precision_of_tick. rewrite !P, L1, L2.
  rewrite !str_length_app. cbn [String.length]. rewrite length_zeros.
  repeat split.
  - destruct (Z.ltb_spec (Z.of_nat (String.length units))
                (Z.of_nat (String.length units + S (String.length digits)))); [|lia].
    rewrite Z.mod_small by lia. rewrite str_to_int_small by lia. lia.
  - rewrite Z.mod_small by lia. rewrite str_to_int_small by lia. lia.
  - destruct (Z.ltb_spec (Z.of_nat (String.length units))
                (Z.of_nat (String.length units + 0))); [lia | reflexivity].
  - rewrite Z.mod_small by lia. rewrite str_to_int_small by lia. lia.
Qed.

End PrecisionFacts.

Section SymbolFacts.
Import BinanceExchange.

Lemma lacks_left c k s : lacks c s -> lacks c (Str.left k s).
Proof. intros Hs. rewrite <- (left_from k s) in Hs. apply lacks_app in Hs. tauto. Qed.

Lemma lacks_from c k s : lacks c s -> lacks c (Str.from k s).
Proof. intros Hs. rewrite <- (left_from k s) in Hs. apply lacks_app in Hs. tauto. Qed.

(** X20: a Binance symbol in upper case and without a slash survives the
    round trip through the generic format, whatever the list of quote
    currencies and whether or not one of them matched. *)
Theorem symbol_conversion_round_trip (supported_quote_currencies_ : list string) (symbol : string) :
  lacks "/" symbol -> Str.map Str.toupper symbol = symbol ->
  convert_symbol_to_binance (convert_symbol_from_binance supported_quote_currencies_ symbol)
  = symbol.
Proof.
  intros Hslash Hupper.
  induction supported_quote_currencies_ as [|quote rest IH]; cbn [convert_symbol_from_binance].
  - unfold convert_symbol_to_binance. now rewrite (find_lacks "/" symbol Hslash).
  - destruct (_ && _) eqn:Hq; [|exact IH].
    apply andb_true_iff in Hq as [_ Hq]. apply String.eqb_eq in Hq.
    set (k := (String.length symbol - String.length quote)%nat) in *.
    unfold convert_symbol_to_binance.
    change ("/" ++ quote)%string with (String "/" quote).
    rewrite (find_first "/" (Str.left k symbol) quote) by now apply lacks_left.
    unfold Str.erase1. rewrite left_app.
    replace (S (String.length (Str.left k symbol)))
      with (String.length (Str.left k symbol) + 1)%nat by lia.
    rewrite from_add, from_app. cbn [Str.from].
    rewrite <- Hq, left_from. exact Hupper.
Qed.

End SymbolFacts.

Lemma precision_stops_at_the_last_digit_witness :
  RestClient.precision_of_step ("0" ++ "." ++ "000" ++ String "1" (zeros 4)) 8 = Z.of_nat 3 + 1
  /\ BinanceExchange.precision_of_tick ("0" ++ "." ++ "000" ++ String "1" (zeros 4))
     = Z.of_nat 3 + 1 + Z.of_nat 4
  /\ RestClient.precision_of_step ("0" ++ "." ++ zeros 4) 8 = 8
  /\ BinanceExchange.precision_of_tick ("0" ++ "." ++ zeros 4) = Z.of_nat 4.
Proof.
  apply (precision_stops_at_the_last_digit "0" "000" "1"%char 4 8).
  - intros Hin; vm_compute in Hin; repeat (destruct Hin as [Hin|Hin]; [discriminate Hin|]);
      exact Hin.
  - discriminate.
  - vm_compute. reflexivity.
Defined.

Lemma symbol_conversion_round_trip_witness :
  BinanceExchange.convert_symbol_to_binance
    (BinanceExchange.convert_symbol_from_binance ["BUSD"; "USDT"]%string "BTCUSDT")
  = "BTCUSDT"%string.
Proof.
  apply (symbol_conversion_round_trip ["BUSD"; "USDT"]%string "BTCUSDT").
  - intros Hin; vm_compute in Hin; repeat (destruct Hin as [Hin|Hin]; [discriminate Hin|]);
      exact Hin.
  - vm_compute. reflexivity.
Defined.

(** ** The trading stream: request ids, the pending table and the counters *)

Section TradingClientSessions.
Import TradingClient.
Context `{Numeric} `{Crypto}.

Lemma request_ids_eq (k : nat) : forall c,
  0 <= request_id_counter_ c < 2 ^ 64 ->
  request_ids k c
  = map (fun i => ("req_" ++ Fmt.to_string ((request_id_counter_ c + Z.of_nat i) mod 2 ^ 64))%string)
        (seq 0 k).
Proof.
  induction k as [|k IH]; intros c Hc; [reflexivity|].
  cbn [request_ids seq map generate_request_id fst snd].
  rewrite Z.add_0_r, (Z.mod_small _ _ Hc). f_equal.
  rewrite IH by (cbn [with_counter request_id_counter_]; apply Z.mod_pos_bound; reflexivity).
  cbn [with_counter request_id_counter_]. rewrite <- seq_shift, map_map.
  apply map_ext. intros i. rewrite Zplus_mod_idemp_l. do 3 f_equal. lia.
Qed.

Lemma NoDup_map_in {A B : Type} (f : A -> B) (l : list A) :
  (forall x y, In x l -> In y l -> f x = f y -> x = y) ->
  List.NoDup l -> List.NoDup (map f l).
Proof.
  intros Hinj. induction 1 as [|x l Hx Hl IH]; cbn [map]; constructor.
  - rewrite in_map_iff. intros (y & E & Hy). apply Hx.
    rewrite (Hinj x y); [exact Hy | now left | now right | now symmetry].
  - apply IH. intros a b Ha Hb. apply Hinj; now right.
Qed.

(** X21: up to [2^64] successive calls of [generate_request_id] return ids
    that are all different. *)
Theorem request_ids_are_distinct (k : nat) (c : t) :
  0 <= request_id_counter_ c < 2 ^ 64 ->
  Z.of_nat k <= 2 ^ 64 ->
  List.NoDup (request_ids k c).
Proof.
  intros Hc Hk. rewrite request_ids_eq by exact Hc.
  apply NoDup_map_in; [|apply seq_NoDup].
  intros i j Hi Hj E. apply in_seq in Hi, Hj.
  injection E as E. apply to_string_inj in E.
  set (n := request_id_counter_ c) in *.
  assert (Hdiv : ((n + Z.of_nat i) - (n + Z.of_nat j)) mod 2 ^ 64 = 0).
  { rewrite Zminus_mod, E, Z.sub_diag. reflexivity. }
  apply Z.mod_divide in Hdiv; [|discriminate]. destruct Hdiv as [q Hq].
  assert (q = 0) by nia. lia.
Qed.

Lemma handle_response_counts response (m : TradingMetrics) :
  0 <= successful_orders m -> 0 <= failed_orders m -> 0 <= cancelled_orders m ->
  outcomes m < 2 ^ 64 - 1 ->
  let m' := metrics_after (handle_response response m) in
  total_requests m' = total_requests m
  /\ 0 <= successful_orders m' /\ 0 <= failed_orders m' /\ 0 <= cancelled_orders m'
  /\ outcomes m' <= outcomes m + 1.
Proof.
  intros Hs Hf Hc Hsum. unfold outcomes in *.
  assert (Es : (successful_orders m + 1) mod 2 ^ 64 = successful_orders m + 1)
    by (apply Z.mod_small; lia).
  assert (Ef : (failed_orders m + 1) mod 2 ^ 64 = failed_orders m + 1)
    by (apply Z.mod_small; lia).
  assert (Ec : (cancelled_orders m + 1) mod 2 ^ 64 = cancelled_orders m + 1)
    by (apply Z.mod_small; lia).
  unfold handle_response, handle_order_response, handle_error_response.
  repeat case_match;
    cbn [metrics_after count_successful count_failed count_cancelled
         total_requests successful_orders failed_orders cancelled_orders];
    rewrite ?Es, ?Ef, ?Ec; repeat split; lia.
Qed.

Lemma request_id_of_signed_request method params system_ns (c : t) request c' :
  create_signed_request method params system_ns c = (Some request, c') ->
  Json.get "id" request
  = Some (Json.stringValue ("req_" ++ Fmt.to_string (request_id_counter_ c))).
Proof.
  unfold create_signed_request, generate_request_id.
  repeat case_match; intros [= <- _]; reflexivity.
Qed.

Lemma create_signed_request_counter method params system_ns (c : t) :
  request_id_counter_ (snd (create_signed_request method params system_ns c))
  = (request_id_counter_ c + 1) mod 2 ^ 64
  /\ metrics_ (snd (create_signed_request method params system_ns c)) = metrics_ c.
Proof.
  unfold create_signed_request, generate_request_id. repeat case_match; split; reflexivity.
Qed.

(** A new request leaves the entries of the table where they are. *)
Lemma register_request_keeps method params now system_ns sent address (c : t) id a :
  used_ids c -> 1 <= request_id_counter_ c ->
  pending_requests_ c !! id = Some a ->
  pending_requests_ (register_request method params now system_ns sent address c) !! id
  = Some a.
Proof.
  intros Hused Hc Hid. unfold register_request.
  pose proof (create_signed_request_keeps_requests method params system_ns c) as (_ & _ & _ & Et).
  pose proof (request_id_of_signed_request method params system_ns c) as Eid.
  destruct (create_signed_request method params system_ns c) as [[request|] c1];
    cbn [snd] in *; [|now rewrite Et].
  rewrite (Eid request c1 eq_refl).
  destruct (Hused id a Hid) as (k & Hk & ->).
  assert (Hne : ("req_" ++ Fmt.to_string (request_id_counter_ c))%string
                <> ("req_" ++ Fmt.to_string k)%string).
  { intros E. injection E as E. apply to_string_inj in E. lia. }
  destruct sent; cbn [with_requests pending_requests_].
  - rewrite lookup_insert_ne by exact Hne. now rewrite Et.
  - rewrite lookup_delete_ne by exact Hne.
    rewrite lookup_insert_ne by exact Hne. now rewrite Et.
Qed.

Lemma send_request_keeps method params now system_ns sent address (c : t) id a :
  used_ids c -> 1 <= request_id_counter_ c ->
  pending_requests_ c !! id = Some a ->
  pending_requests_ (send_request method params now system_ns sent address c) !! id = Some a.
Proof.
  intros Hused Hc Hid. unfold send_request.
  destruct (connected_ c); cbn [negb]; [|exact Hid].
  now apply register_request_keeps.
Qed.

Lemma used_ids_submap (c c' : t) :
  request_id_counter_ c <= request_id_counter_ c' ->
  (forall id a, pending_requests_ c' !! id = Some a -> pending_requests_ c !! id = Some a) ->
  used_ids c -> used_ids c'.
Proof.
  intros Hc Hsub Hused id a Hid. destruct (Hused id a (Hsub id a Hid)) as (k & Hk & E).
  exists k. split; [lia | exact E].
Qed.

Lemma disconnect_begin_leaves (c : t) :
  request_id_counter_ (disconnect_begin c) = request_id_counter_ c
  /\ metrics_ (disconnect_begin c) = metrics_ c
  /\ pending_requests_ (disconnect_begin c) = pending_requests_ c.
Proof. unfold disconnect_begin. destruct (running_ c); repeat split. Qed.

Lemma disconnect_end_leaves (c c' : t) :
  disconnect_end c = Some c' ->
  request_id_counter_ c' = request_id_counter_ c /\ metrics_ c' = metrics_ c
  /\ (forall id a, pending_requests_ c' !! id = Some a -> pending_requests_ c !! id = Some a).
Proof.
  unfold disconnect_end. destruct (map_fold _ _ _); [|discriminate]. intros [= <-]. cbn.
  repeat split. intros id a. rewrite lookup_empty. discriminate.
Qed.

Lemma process_message_leaves response (c : t) :
  request_id_counter_ (process_message response c) = request_id_counter_ c
  /\ (forall id a, pending_requests_ (process_message response c) !! id = Some a ->
                   pending_requests_ c !! id = Some a)
  /\ (metrics_ (process_message response c) = metrics_ c
      \/ metrics_ (process_message response c) = count_total (metrics_ c)
      \/ metrics_ (process_message response c)
         = metrics_after (handle_response response (count_total (metrics_ c)))).
Proof.
  unfold process_message.
  repeat case_match; cbn [with_requests with_metrics request_id_counter_ pending_requests_ metrics_];
    (split; [reflexivity|split; [|]]); auto.
  all: try (intros id a Hd; apply lookup_delete_Some in Hd; tauto).
  all: try discriminate.
  all: right; right;
    match goal with
    | E : handle_response _ _ = _ |- _ => cbn [with_metrics metrics_] in E; now rewrite E
    end.
Qed.

Lemma step_after_at_most (n : Z) (e : event) (c c' : t) :
  after_at_most n c -> n + 3 < 2 ^ 64 -> step e c = Some c' -> after_at_most (n + 1) c'.
Proof.
  intros (Hc & Hused & Hs & Hf & Hcc & Hsum & Htot) Hn Hstep.
  assert (Same : forall c1 : t,
            request_id_counter_ c1 = request_id_counter_ c -> metrics_ c1 = metrics_ c ->
            (forall id a, pending_requests_ c1 !! id = Some a -> pending_requests_ c !! id = Some a) ->
            after_at_most (n + 1) c1).
  { intros c1 E1 E2 Hsub. unfold after_at_most. rewrite E1, E2.
    split; [lia|]. split; [apply (used_ids_submap c c1); [lia | exact Hsub | exact Hused]|].
    repeat split; try assumption; lia. }
  assert (Begun : after_at_most (n + 1) (disconnect_begin c)).
  { destruct (disconnect_begin_leaves c) as (A & B & C). apply Same; try assumption.
    intros id a. now rewrite C. }
  destruct e as [| | | | | | |method params now system_ns sent address|response
                 |request_id address| |];
    cbn [step] in Hstep.
  - injection Hstep as <-. apply Same; auto.
  - destruct (connected_ c || ws_thread_ c); [discriminate|]. injection Hstep as <-.
    apply Same; auto.
  - destruct (connected_ c); [discriminate|]. injection Hstep as <-. exact Begun.
  - destruct (ws_thread_ c); [|discriminate]. injection Hstep as <-. apply Same; auto.
  - destruct (ws_thread_ c); [|discriminate]. injection Hstep as <-. apply Same; auto.
  - destruct (ws_thread_ c); [|discriminate]. injection Hstep as <-. apply Same; auto.
  - injection Hstep as <-. destruct (connected_ c); apply Same; auto.
  - destruct (admitted_ c) as [|k]; [discriminate|].
    destruct (heap_ c !! address); [discriminate|]. injection Hstep as <-.
    set (c0 := with_admitted k c).
    unfold register_request.
    pose proof (create_signed_request_keeps_requests method params system_ns c0)
      as (_ & _ & _ & Et).
    pose proof (create_signed_request_counter method params system_ns c0) as (Ec & Em).
    pose proof (request_id_of_signed_request method params system_ns c0) as Eid.
    change (request_id_counter_ c0) with (request_id_counter_ c) in Ec, Eid.
    change (metrics_ c0) with (metrics_ c) in Em.
    change (pending_requests_ c0) with (pending_requests_ c) in Et.
    rewrite Z.mod_small in Ec by lia.
    assert (Sent : forall c1 : t,
              request_id_counter_ c1 = request_id_counter_ c + 1 -> metrics_ c1 = metrics_ c ->
              (forall id a, pending_requests_ c1 !! id = Some a ->
                 pending_requests_ c !! id = Some a
                 \/ id = ("req_" ++ Fmt.to_string (request_id_counter_ c))%string) ->
              after_at_most (n + 1) c1).
    { intros c1 E1 E2 Hsub. unfold after_at_most. rewrite E1, E2.
      split; [lia|]. split; [|repeat split; try assumption; lia].
      intros id a Hid. destruct (Hsub id a Hid) as [Hold| ->].
      - destruct (Hused id a Hold) as (j & Hj & E). exists j. split; [lia | exact E].
      - exists (request_id_counter_ c). split; [lia | reflexivity]. }
    destruct (create_signed_request method params system_ns c0) as [[request|] c1];
      cbn [snd] in *.
    + rewrite (Eid request c1 eq_refl).
      destruct sent; apply Sent; cbn [with_requests request_id_counter_ metrics_ pending_requests_];
        try assumption.
      * intros id a Hid. apply lookup_insert_Some in Hid as [[<- _]|[_ Hid]]; [now right|].
        left. now rewrite <- Et.
      * intros id a Hid. apply lookup_delete_Some in Hid as [_ Hid].
        apply lookup_insert_Some in Hid as [[<- _]|[_ Hid]]; [now right|].
        left. now rewrite <- Et.
    + apply Sent; try assumption. intros id a Hid. left. now rewrite <- Et.
  - destruct (ws_thread_ c); [|discriminate]. injection Hstep as <-.
    destruct (process_message_leaves response c) as (Ec & Hsub & Hm).
    unfold after_at_most. rewrite Ec.
    split; [lia|]. split; [apply (used_ids_submap c _); [lia | exact Hsub | exact Hused]|].
    assert (Et : total_requests (count_total (metrics_ c)) = total_requests (metrics_ c) + 1).
    { cbn. apply Z.mod_small. unfold outcomes in Hsum. lia. }
    destruct Hm as [-> | [-> | ->]].
    + repeat split; try assumption; lia.
    + cbn [count_total successful_orders failed_orders cancelled_orders] in *.
      unfold outcomes in *. cbn [count_total successful_orders failed_orders cancelled_orders
                                  total_requests] in *.
      repeat split; try assumption; lia.
    + destruct (handle_response_counts response (count_total (metrics_ c)))
        as (A & B & C & D & E); try assumption.
      { unfold outcomes in *. cbn. lia. }
      rewrite A, Et. unfold outcomes in E |- *.
      cbn [count_total successful_orders failed_orders cancelled_orders] in E.
      unfold outcomes in Hsum. repeat split; try assumption; lia.
  - destruct (pending_requests_ c !! request_id); [|discriminate].
    destruct (heap_ c !! address); [|discriminate].
    destruct (_ && _); [|discriminate]. injection Hstep as <-.
    apply Same; try reflexivity. cbn. intros id a Hd. apply lookup_delete_Some in Hd. tauto.
  - injection Hstep as <-. exact Begun.
  - destruct (ws_thread_ c && negb (running_ c)); [|discriminate].
    destruct (disconnect_end_leaves c c' Hstep) as (A & B & C). now apply Same.
Qed.

Lemma session_after_at_most (events : list event) : forall (n : Z) (c c' : t),
  after_at_most n c -> n + Z.of_nat (List.length events) + 2 < 2 ^ 64 ->
  session events c = Some c' ->
  after_at_most (n + Z.of_nat (List.length events)) c'.
Proof.
  induction events as [|e events IH]; intros n c c' Hinv Hn Hrun.
  - injection Hrun as <-. cbn [List.length]. now rewrite Z.add_0_r.
  - cbn [session] in Hrun. destruct (step e c) as [c1|] eqn:Hstep; [|discriminate].
    cbn [List.length] in *.
    replace (n + Z.of_nat (S (List.length events)))
      with (n + 1 + Z.of_nat (List.length events)) by lia.
    apply (IH (n + 1) c1); [|lia | exact Hrun].
    apply (step_after_at_most n e c); [exact Hinv | lia | exact Hstep].
Qed.

Lemma create_after_at_most api_key api_secret : after_at_most 0 (create api_key api_secret).
Proof.
  unfold after_at_most, used_ids, outcomes. cbn. repeat split; try lia.
  intros id a. rewrite lookup_empty. discriminate.
Qed.

(** X22: in a client that a session of fewer than [2^64 - 2] events led to,
    sending one more request, whether the write succeeds or fails, leaves
    every entry of the pending table at its id: the new id is none of the
    ids in use. *)
Theorem a_new_request_keeps_the_pending_ones
    (api_key api_secret : string) (events : list event) (c : t)
    (method : string) (params : Json.Value) (now system_ns : Z) (sent : bool) (address : nat)
    (id : string) (a : nat) :
  session events (create api_key api_secret) = Some c ->
  Z.of_nat (List.length events) + 2 < 2 ^ 64 ->
  pending_requests_ c !! id = Some a ->
  pending_requests_ (send_request method params now system_ns sent address c) !! id = Some a.
Proof.
  intros Hrun Hn Hid.
  destruct (session_after_at_most events 0 _ c (create_after_at_most api_key api_secret))
    as (Hc & Hused & _); [lia | exact Hrun|].
  apply send_request_keeps; [exact Hused | lia | exact Hid].
Qed.

(** X23: at any point of such a session, the successful, failed and
    cancelled orders counted so far add up to at most [total_requests],
    which is at most the number of events so far. *)
Theorem outcomes_never_exceed_responses
    (api_key api_secret : string) (events : list event) (c : t) :
  session events (create api_key api_secret) = Some c ->
  Z.of_nat (List.length events) + 2 < 2 ^ 64 ->
  0 <= outcomes (metrics_ c)
  /\ outcomes (metrics_ c) <= total_requests (metrics_ c)
  /\ total_requests (metrics_ c) <= Z.of_nat (List.length events).
Proof.
  intros Hrun Hn.
  destruct (session_after_at_most events 0 _ c (create_after_at_most api_key api_secret))
    as (_ & _ & Hs & Hf & Hcc & Hsum & Htot); [lia | exact Hrun|].
  unfold outcomes in *. repeat split; lia.
Qed.

(** X24: once a request has timed out, a response that carries its id
    changes nothing: the table, the request objects and the metrics stay as
    the timeout left them. *)
Theorem a_late_response_is_ignored (response : Json.Value) (request_id : string)
    (address : nat) (c : t) :
  id_of response = Some request_id ->
  process_message response (request_timeout request_id address c)
  = request_timeout request_id address c.
Proof.
  unfold id_of, process_message. intros Hid.
  destruct (Json.isMember "id" response) as [[|]|]; try reflexivity.
  destruct (Json.get "id" response) as [idv|]; [|reflexivity].
  rewrite Hid. cbn [request_timeout with_requests pending_requests_].
  now rewrite lookup_delete_eq.
Qed.

End TradingClientSessions.

Lemma request_ids_are_distinct_witness :
  0 <= TradingClient.request_id_counter_ (TradingClient.create "key" "secret") < 2 ^ 64
  /\ Z.of_nat 3 <= 2 ^ 64
  /\ List.NoDup (request_ids 3 (TradingClient.create "key" "secret")).
Proof.
  assert (A : 0 <= TradingClient.request_id_counter_ (TradingClient.create "key" "secret") < 2 ^ 64)
    by (vm_compute; split; [discriminate | reflexivity]).
  assert (B : Z.of_nat 3 <= 2 ^ 64) by (vm_compute; discriminate).
  split; [exact A|]. split; [exact B|].
  exact (request_ids_are_distinct 3 (TradingClient.create "key" "secret") A B).
Defined.

Lemma session_of_pending_order :
  session (H := Sample.numeric) (H0 := Sample.crypto) events_of_pending_order
    (TradingClient.create "key" "secret") = Some client_with_pending_order.
Proof. vm_compute. reflexivity. Qed.

Lemma a_new_request_keeps_the_pending_ones_witness :
  TradingClient.pending_requests_ client_with_pending_order !! "req_1"%string = Some 0%nat
  /\ TradingClient.pending_requests_
       (TradingClient.send_request (H := Sample.numeric) (H0 := Sample.crypto)
          "order.place" order_params 6000000000 1700000001123456789 false 1
          client_with_pending_order) !! "req_1"%string = Some 0%nat.
Proof.
  assert (A : TradingClient.pending_requests_ client_with_pending_order !! "req_1"%string
              = Some 0%nat) by (vm_compute; reflexivity).
  assert (B : Z.of_nat (List.length events_of_pending_order) + 2 < 2 ^ 64)
    by (vm_compute; reflexivity).
  split; [exact A|].
  exact (a_new_request_keeps_the_pending_ones (H := Sample.numeric) (H0 := Sample.crypto)
           "key" "secret" events_of_pending_order client_with_pending_order
           "order.place" order_params 6000000000 1700000001123456789 false 1
           "req_1" 0%nat session_of_pending_order B A).
Defined.

Lemma outcomes_never_exceed_responses_witness :
  0 <= outcomes (TradingClient.metrics_ client_with_pending_order)
  /\ outcomes (TradingClient.metrics_ client_with_pending_order)
     <= TradingClient.total_requests (TradingClient.metrics_ client_with_pending_order)
  /\ TradingClient.total_requests (TradingClient.metrics_ client_with_pending_order)
     <= Z.of_nat (List.length events_of_pending_order).
Proof.
  assert (B : Z.of_nat (List.length events_of_pending_order) + 2 < 2 ^ 64)
    by (vm_compute; reflexivity).
  exact (outcomes_never_exceed_responses (H := Sample.numeric) (H0 := Sample.crypto)
           "key" "secret" events_of_pending_order client_with_pending_order
           session_of_pending_order B).
Defined.

Lemma a_late_response_is_ignored_witness :
  id_of (H := Sample.numeric) response_to_req_1 = Some "req_1"%string
  /\ TradingClient.process_message (H := Sample.numeric) response_to_req_1
       (TradingClient.request_timeout "req_1" 0 client_with_pending_order)
     = TradingClient.request_timeout "req_1" 0 client_with_pending_order.
Proof.
  assert (A : id_of (H := Sample.numeric) response_to_req_1 = Some "req_1"%string)
    by (vm_compute; reflexivity).
  split; [exact A|].
  exact (a_late_response_is_ignored (H := Sample.numeric) response_to_req_1 "req_1" 0%nat
           client_with_pending_order A).
Defined.

(** ** The exchange factory *)

Section FactoryFacts.
Import ExchangeFactory.

Lemma tolower_idempotent (c : ascii) : Str.tolower (Str.tolower c) = Str.tolower c.
Proof. destruct c as [[] [] [] [] [] [] [] []]; reflexivity. Qed.

Lemma map_tolower_idempotent (s : string) :
  Str.map Str.tolower (Str.map Str.tolower s) = Str.map Str.tolower s.
Proof.
  induction s as [|c s IH]; [reflexivity|]. cbn [Str.map]. now rewrite tolower_idempotent, IH.
Qed.

(** X25: a normalized exchange name is its own normal form. *)
Theorem normalize_exchange_name_is_idempotent (name : string) :
  normalize_exchange_name (normalize_exchange_name name) = normalize_exchange_name name.
Proof.
  unfold normalize_exchange_name at 2 3.
  set (l := Str.map Str.tolower name).
  assert (El : Str.map Str.tolower l = l) by apply map_tolower_idempotent.
  destruct (String.eqb l "binance.com" || String.eqb l "binance.us") eqn:E1; [reflexivity|].
  destruct (String.eqb l "coinbase" || String.eqb l "coinbasepro" || String.eqb l "coinbase pro")
    eqn:E2; [reflexivity|].
  destruct (String.eqb l "okex") eqn:E3; [reflexivity|].
  unfold normalize_exchange_name. rewrite El, E1, E2, E3. reflexivity.
Qed.

(** X26: every name that [is_supported] accepts once the static
    initializer has run has a type other than [UNKNOWN], and the name of
    that type is the normalized name. *)
Theorem supported_exchanges_have_a_type (exchange_name : string) :
  is_supported initial_registry exchange_name = true ->
  get_exchange_type exchange_name <> UNKNOWN
  /\ get_exchange_name (get_exchange_type exchange_name)
     = normalize_exchange_name exchange_name.
Proof.
  unfold is_supported, get_exchange_type. rewrite bool_decide_eq_true.
  unfold initial_registry, register_exchange.
  change (normalize_exchange_name "kucoin") with "kucoin"%string.
  change (normalize_exchange_name "bitget") with "bitget"%string.
  change (normalize_exchange_name "okx") with "okx"%string.
  change (normalize_exchange_name "bybit") with "bybit"%string.
  change (normalize_exchange_name "kraken") with "kraken"%string.
  change (normalize_exchange_name "coinbase") with "coinbase"%string.
  change (normalize_exchange_name "binance") with "binance"%string.
  set (n := normalize_exchange_name exchange_name).
  rewrite !elem_of_union, !elem_of_singleton, elem_of_empty.
  intros [E|[E|[E|[E|[E|[E|[E|[]]]]]]]]; rewrite E; split; (discriminate || reflexivity).
Qed.

(** The type of the name of a type is that type, [UNKNOWN] included. *)
Lemma exchange_names_round_trip (type : ExchangeType) :
  get_exchange_type (get_exchange_name type) = type.
Proof. destruct type; reflexivity. Qed.

End FactoryFacts.

Lemma supported_exchanges_have_a_type_witness :
  ExchangeFactory.is_supported ExchangeFactory.initial_registry "Coinbase Pro" = true
  /\ ExchangeFactory.get_exchange_type "Coinbase Pro" <> ExchangeFactory.UNKNOWN
  /\ ExchangeFactory.get_exchange_name (ExchangeFactory.get_exchange_type "Coinbase Pro")
     = ExchangeFactory.normalize_exchange_name "Coinbase Pro".
Proof.
  assert (A : ExchangeFactory.is_supported ExchangeFactory.initial_registry "Coinbase Pro" = true)
    by (vm_compute; reflexivity).
  split; [exact A|].
  exact (supported_exchanges_have_a_type "Coinbase Pro" A).
Defined.

(** ** The price feed and the trading loop *)

Section BotFacts.
Import MarketData Bot.
Context `{Libm}.

Lemma handle_creeping_book (book : OrderBook) (now : Z) (b : bot) :
  two_sided book ->
  (0.00001 <? PrimFloat.abs (current_mid_price_ b - get_mid_price book))%float = false ->
  current_mid_price_ (handle_orderbook_update book now b) = get_mid_price book
  /\ notifications_ (handle_orderbook_update book now b) = notifications_ b
  /\ price_changed_ (handle_orderbook_update book now b) = price_changed_ b.
Proof.
  intros [Hb Ha]. unfold handle_orderbook_update, update_mid_price, get_mid_price.
  cbn [current_orderbook_ current_mid_price_].
  destruct (bids book) as [|bid ?]; [congruence|]. destruct (asks book) as [|ask ?]; [congruence|].
  intros Hsmall. cbn [current_mid_price_ notifications_ price_changed_]. rewrite Hsmall.
  repeat split.
Qed.

(** X27: books that come one after the other, each with a mid within
    [1e-5] of the mid of the book before, never set [price_changed_] and
    never notify the trading loop, however far the mid has moved in the end:
    the difference is taken against the mid of the previous book, which
    every book replaces. *)
Theorem a_creeping_mid_is_never_notified (books : list (OrderBook * Z)) (b : bot) :
  creeping (current_mid_price_ b) books ->
  notifications_ (feed books b) = notifications_ b
  /\ price_changed_ (feed books b) = price_changed_ b
  /\ current_mid_price_ (feed books b) = last_mid (current_mid_price_ b) books.
Proof.
  revert b. induction books as [|[book now] books IH]; intros b Hc.
  - repeat split.
  - destruct Hc as (Hsides & Hsmall & Hrest).
    destruct (handle_creeping_book book now b Hsides Hsmall) as (Em & En & Ep).
    unfold feed, last_mid. cbn [fold_left fst snd].
    fold (feed books (handle_orderbook_update book now b)).
    fold (last_mid (get_mid_price book) books).
    rewrite <- Em in Hrest |- *. destruct (IH _ Hrest) as (A & B & C).
    rewrite A, B, C, En, Ep. repeat split.
Qed.

(** X28: when no price change is flagged and a two-sided book moves the
    mid by at most [1e-5], the turn of the main loop that follows does not
    touch the order manager and sends nothing to the venue. *)
Theorem a_small_move_leaves_the_quotes_alone
    (book : OrderBook) (now last_status_print : Z) (b : bot) (m : OrderManager.t) (w : World) :
  price_changed_ b = false ->
  two_sided book ->
  (0.00001 <? PrimFloat.abs (current_mid_price_ b - get_mid_price book))%float = false ->
  let r := main_loop_turn (handle_orderbook_update book now b) last_status_print (m, w) in
  fst (snd r) = m
  /\ calls (snd (snd r)) = calls w
  /\ price_changed_ (fst (fst r)) = false.
Proof.
  intros Hflag Hsides Hsmall.
  destruct (handle_creeping_book book now b Hsides Hsmall) as (_ & _ & Ep).
  rewrite Hflag in Ep. cbv zeta. unfold main_loop_turn. rewrite Ep.
  unfold print_status, OrderManager.bind, OrderManager.ret, OrderManager.now.
  destruct (0 <? _)%float; cbn [fst snd];
    destruct (30 <=? _); cbn [fst snd with_steady_reads calls]; repeat split; exact Ep.
Qed.

End BotFacts.

Section FeedFacts.
Import MarketData.
Context `{Numeric}.

Lemma parse_levels_bad_level (before after : list Json.Value) (p q : string)
    (more : list Json.Value) :
  stod p = None ->
  parse_levels (before ++ Json.arrayValue (Json.stringValue p :: Json.stringValue q :: more)
                          :: after) = None.
Proof.
  intros Hp. induction before as [|entry before IH].
  - cbn. now rewrite Hp.
  - cbn [app parse_levels]. rewrite IH. now repeat case_match.
Qed.

(** X29: a depth document in which one level of the bids or of the asks has
    a price that [std::stod] rejects is dropped as a whole: the order book
    of the exchange and the bot stay as they were, whatever the other levels
    hold. *)
Theorem one_bad_level_discards_the_update
    (members : list (string * Json.Value)) (side : string)
    (before after more : list Json.Value) (p q : string) (now : Z) (st : OrderBook * bot) :
  side = "bids"%string \/ side = "asks"%string ->
  Json.find_member side members
  = Some (Json.arrayValue
            (before ++ Json.arrayValue (Json.stringValue p :: Json.stringValue q :: more)
                    :: after)) ->
  stod p = None ->
  process_binance_orderbook (Some (Json.objectValue members)) now st = st.
Proof.
  intros Hside Hfind Hp. unfold process_binance_orderbook, orderbook_of.
  cbn [Json.isMember Json.get Json.iterate].
  destruct Hside as [-> | ->]; rewrite Hfind.
  - destruct (Json.find_member "asks" members); [|reflexivity].
    cbn [Json.iterate]. now rewrite parse_levels_bad_level.
  - destruct (Json.find_member "bids" members); [|reflexivity].
    cbn [Json.iterate]. rewrite parse_levels_bad_level by exact Hp.
    now destruct (parse_levels _).
Qed.

End FeedFacts.

Lemma a_creeping_mid_is_never_notified_witness :
  creeping (MarketData.current_mid_price_ bot_at_50050) [(book_a_millionth_above, 1)]
  /\ MarketData.notifications_ (feed [(book_a_millionth_above, 1)] bot_at_50050)
     = MarketData.notifications_ bot_at_50050
  /\ MarketData.price_changed_ (feed [(book_a_millionth_above, 1)] bot_at_50050)
     = MarketData.price_changed_ bot_at_50050
  /\ MarketData.current_mid_price_ (feed [(book_a_millionth_above, 1)] bot_at_50050)
     = last_mid (MarketData.current_mid_price_ bot_at_50050) [(book_a_millionth_above, 1)].
Proof.
  assert (A : creeping (MarketData.current_mid_price_ bot_at_50050)
                [(book_a_millionth_above, 1)]).
  { split; [split; discriminate|]. split; [vm_compute; reflexivity | exact I]. }
  split; [exact A|].
  exact (a_creeping_mid_is_never_notified [(book_a_millionth_above, 1)] bot_at_50050 A).
Defined.

Lemma a_small_move_leaves_the_quotes_alone_witness :
  MarketData.price_changed_ bot_at_50050 = false
  /\ two_sided book_a_millionth_above
  /\ (0.00001 <? PrimFloat.abs (MarketData.current_mid_price_ bot_at_50050
                                 - get_mid_price book_a_millionth_above))%float = false
  /\ let r := Bot.main_loop_turn (H := Sample.libm)
                (MarketData.handle_orderbook_update book_a_millionth_above 1 bot_at_50050) 0
                (fst (quoted_50050 Sample.venue_accepting),
                 snd (quoted_50050 Sample.venue_accepting)) in
     fst (snd r) = fst (quoted_50050 Sample.venue_accepting)
     /\ calls (snd (snd r)) = calls (snd (quoted_50050 Sample.venue_accepting))
     /\ MarketData.price_changed_ (fst (fst r)) = false.
Proof.
  assert (A : MarketData.price_changed_ bot_at_50050 = false) by (vm_compute; reflexivity).
  assert (B : two_sided book_a_millionth_above) by (split; discriminate).
  assert (C : (0.00001 <? PrimFloat.abs (MarketData.current_mid_price_ bot_at_50050
                                         - get_mid_price book_a_millionth_above))%float = false)
    by (vm_compute; reflexivity).
  split; [exact A|]. split; [exact B|]. split; [exact C|].
  exact (a_small_move_leaves_the_quotes_alone (H := Sample.libm) book_a_millionth_above 1 0
           bot_at_50050 (fst (quoted_50050 Sample.venue_accepting))
           (snd (quoted_50050 Sample.venue_accepting)) A B C).
Defined.

Lemma one_bad_level_discards_the_update_witness :
  stod (Numeric := Sample.numeric) "n/a" = None
  /\ MarketData.process_binance_orderbook (H := Sample.numeric)
       (Some (Json.objectValue depth_with_a_bad_bid)) 1 market_start
     = market_start.
Proof.
  assert (A : stod (Numeric := Sample.numeric) "n/a" = None) by (vm_compute; reflexivity).
  split; [exact A|].
  exact (one_bad_level_discards_the_update (H := Sample.numeric) depth_with_a_bad_bid "bids"
           [] [] [] "n/a" "1" 1 market_start (or_introl eq_refl) eq_refl A).
Defined.

(** ** From the feed to the quotes *)

Section FeedToQuotes.
Import MarketData Bot.
Context `{Libm} `{Numeric}.

Lemma positive_is_not_refused (x : float) : (0 <? x)%float = true -> (x <=? 0)%float = false.
Proof.
  rewrite ltb_spec, leb_spec. unfold SFltb, SFleb.
  rewrite (SFcompare_antisym (Prim2SF 0) (Prim2SF x)).
  destruct (SFcompare (Prim2SF 0) (Prim2SF x)) as [[| |]|]; cbn; congruence.
Qed.

(** X30: from a depth document to the venue.  When the document parses to a
    two-sided book with a positive mid that differs by more than [1e-5] both
    from the mid the bot held and from the last mid of the order manager,
    the cooldown is over and the hysteresis test passes, then the exchange
    stores the book, and the turn of the main loop that follows clears
    [price_changed_], records the mid of the book as the last mid price and
    sends the calls of one reprice at that mid: the cancels of the two legs
    if both were active, then one BUY at the formatted [mid * (1 - spread)]
    and one SELL at the formatted [mid * (1 + spread)]. *)
Theorem a_moved_book_is_quoted (root : Json.Value) (book : OrderBook)
    (now last_status_print : Z) (st : OrderBook * bot) (m : OrderManager.t) (w : World) :
  orderbook_of root = Some book ->
  two_sided book ->
  (0 <? get_mid_price book)%float = true ->
  (0.00001 <? PrimFloat.abs (current_mid_price_ (snd st) - get_mid_price book))%float = true ->
  (PrimFloat.abs (get_mid_price book - OrderManager.last_mid_price_ m) <? 0.00001)%float = false ->
  Config.order_update_cooldown (OrderManager.config_ m) <= since_last_update m w ->
  OrderManager.need_update (get_mid_price book) m = true ->
  let st' := process_binance_orderbook (Some root) now st in
  let r := main_loop_turn (snd st') last_status_print (m, w) in
  fst st' = book
  /\ price_changed_ (fst (fst r)) = false
  /\ OrderManager.last_mid_price_ (fst (snd r)) = get_mid_price book
  /\ exists cancels places id_bid id_ask,
       calls (snd (snd r)) = calls w ++ cancels ++ places
       /\ (both_legs_active m -> Permutation cancels (cancels_of m))
       /\ (~ both_legs_active m -> cancels = [])
       /\ Permutation places
            [PlaceLimitOrder (Config.symbol (OrderManager.config_ m)) BUY
               (formatted (OrderManager.config_ m)
                  (get_mid_price book
                   * (1 - Config.spread_percentage (OrderManager.config_ m))))
               (Config.order_size (OrderManager.config_ m)) id_bid;
             PlaceLimitOrder (Config.symbol (OrderManager.config_ m)) SELL
               (formatted (OrderManager.config_ m)
                  (get_mid_price book
                   * (1 + Config.spread_percentage (OrderManager.config_ m))))
               (Config.order_size (OrderManager.config_ m)) id_ask].
Proof.
  intros Hdoc Hsides Hpos Hmoved Hnew Hcool Hneed.
  pose proof (positive_is_not_refused _ Hpos) as Hpos'.
  cbv zeta. unfold process_binance_orderbook. rewrite Hdoc. cbn [fst snd].
  split; [reflexivity|].
  set (b := handle_orderbook_update book now (snd st)).
  assert (Eb : current_mid_price_ b = get_mid_price book /\ price_changed_ b = true
               /\ last_orderbook_time_ b = now).
  { subst b. destruct Hsides as [Hb Ha]. revert Hmoved.
    unfold handle_orderbook_update, update_mid_price, get_mid_price.
    cbn [current_orderbook_ current_mid_price_].
    destruct (bids book) as [|bid ?]; [congruence|].
    destruct (asks book) as [|ask ?]; [congruence|].
    intros Hmoved. cbn [current_mid_price_ price_changed_ last_orderbook_time_].
    rewrite Hmoved. repeat split. }
  destruct Eb as (Emid & Eflag & Etime).
  set (M := get_mid_price book) in *.
  set (w1 := with_steady_reads (S (steady_reads w)) w).
  set (p := OrderManager.place_market_maker_orders M now (m, w1)).
  assert (R : fst (fst (main_loop_turn b last_status_print (m, w))) = set_price_changed false b
              /\ fst (snd (main_loop_turn b last_status_print (m, w))) = fst (snd p)
              /\ calls (snd (snd (main_loop_turn b last_status_print (m, w))))
                 = calls (snd (snd p))).
  { remember (main_loop_turn b last_status_print (m, w)) as r eqn:Er.
    unfold main_loop_turn in Er. rewrite Emid, Hpos, Eflag in Er.
    unfold check_and_update_orders in Er.
    cbn [set_price_changed current_mid_price_ last_orderbook_time_] in Er.
    rewrite Emid, Hpos', Etime in Er.
    unfold OrderManager.bind at 1 2 3 in Er.
    rewrite update_orders_if_needed_eq, should_update_orders_eq, Hnew in Er.
    destruct (Z.ltb_spec (since_last_update m w)
                (Config.order_update_cooldown (OrderManager.config_ m))) as [|_]; [lia|].
    cbn [negb fst snd] in Er. fold w1 in Er. fold p in Er. destruct p as [ok [m' w']].
    unfold print_status, OrderManager.bind, OrderManager.ret, OrderManager.now in Er.
    cbn [fst snd] in Er.
    destruct (30 <=? _); subst r; cbn [fst snd with_steady_reads calls]; repeat split. }
  destruct R as (Rb & Rm & Rc). rewrite Rb, Rm, Rc. subst p.
  split; [reflexivity|].
  destruct (place_loud M now m w1 Hpos' Hneed) as (Emid' & _).
  split; [exact Emid'|].
  rewrite (place_calls M now m w1 Hpos' Hneed).
  eexists _, _, _, _. split; [reflexivity|].
  split; [|split; [|reflexivity]].
  - intros [[x Hx] [y Hy]]. now rewrite Hx, Hy.
  - intros Hnot. destruct (OrderManager.active_bid_order_ m) as [x|] eqn:Hx; [|reflexivity].
    destruct (OrderManager.active_ask_order_ m) as [y|] eqn:Hy; [|reflexivity].
    exfalso. apply Hnot. split; eexists; eassumption.
Qed.

End FeedToQuotes.

Lemma a_moved_book_is_quoted_witness :
  two_sided book_50050
  /\ let st' := MarketData.process_binance_orderbook (H := Sample.numeric)
               (Some (Sample.depth "50049.5" "50050.5")) 1 market_start in
  let r := Bot.main_loop_turn (H := Sample.libm) (snd st') 0
             (fst (started Sample.venue_accepting), snd (started Sample.venue_accepting)) in
  fst st' = book_50050
  /\ MarketData.price_changed_ (fst (fst r)) = false
  /\ OrderManager.last_mid_price_ (fst (snd r)) = get_mid_price book_50050
  /\ exists cancels places id_bid id_ask,
       calls (snd (snd r)) = calls (snd (started Sample.venue_accepting)) ++ cancels ++ places
       /\ (both_legs_active (fst (started Sample.venue_accepting)) ->
           Permutation cancels (cancels_of (fst (started Sample.venue_accepting))))
       /\ (~ both_legs_active (fst (started Sample.venue_accepting)) -> cancels = [])
       /\ Permutation places
            [PlaceLimitOrder
               (Config.symbol (OrderManager.config_ (fst (started Sample.venue_accepting)))) BUY
               (formatted (H := Sample.libm)
                  (OrderManager.config_ (fst (started Sample.venue_accepting)))
                  (get_mid_price book_50050
                   * (1 - Config.spread_percentage
                            (OrderManager.config_ (fst (started Sample.venue_accepting))))))
               (Config.order_size (OrderManager.config_ (fst (started Sample.venue_accepting))))
               id_bid;
             PlaceLimitOrder
               (Config.symbol (OrderManager.config_ (fst (started Sample.venue_accepting)))) SELL
               (formatted (H := Sample.libm)
                  (OrderManager.config_ (fst (started Sample.venue_accepting)))
                  (get_mid_price book_50050
                   * (1 + Config.spread_percentage
                            (OrderManager.config_ (fst (started Sample.venue_accepting))))))
               (Config.order_size (OrderManager.config_ (fst (started Sample.venue_accepting))))
               id_ask].
Proof.
  assert (S : two_sided book_50050) by (split; discriminate).
  split; [exact S|].
  apply (a_moved_book_is_quoted (H := Sample.libm) (H0 := Sample.numeric)
           (Sample.depth "50049.5" "50050.5") book_50050 1 0 market_start
           (fst (started Sample.venue_accepting)) (snd (started Sample.venue_accepting))).
  - vm_compute. reflexivity.
  - exact S.
  - vm_compute. reflexivity.
  - vm_compute. reflexivity.
  - vm_compute. reflexivity.
  - vm_compute. discriminate.
  - vm_compute. reflexivity.
Defined.
